(** * qis.plots.scatter: the scatter / regression plotting core

    A shallow embedding of [src/qis/plots/scatter.py]: [calc_ci],
    [plot_scatter] and [plot_classification_scatter].

    - numpy arrays are lists over a numeric carrier [F] with the scalar
      operations numpy applies ([Float64]); two carriers are provided, IEEE
      binary64 (what numpy computes with) and the real numbers (the exact
      arithmetic the formulas are written in);
    - a pandas DataFrame is a record of column labels and rows, a row
      mapping labels to cells; DataFrames live in a store, because
      [plot_scatter] rebinds and mutates its local [df];
    - rendering (matplotlib, seaborn, qis.plots) is recorded as a log of
      calls; statistics delegates (statsmodels, scipy, qis.utils) are the
      fields of the [Delegates] interface;
    - Python exceptions are the [Raise] outcome of a state-and-error monad
      that keeps the state reached when the exception was raised. *)

From Stdlib Require Import Floats.
From Stdlib Require Import ZArith List String Bool Lia Reals Lra.
From stdpp Require Import base option list strings gmap.
From Stdlib Require DecimalString Sorted.

Local Open Scope string_scope.
Local Open Scope Z_scope.

(** ** Exceptions and results *)

Inductive exn : Type :=
| ValueError (msg : string)
| KeyError (key : string)
| IndexError
| ZeroDivisionError
| TypeError
| AttributeError
| DelegateError (name : string).

Inductive result (A : Type) : Type :=
| Ok (a : A)
| Raise (e : exn).
Arguments Ok {A} a.
Arguments Raise {A} e.

Definition rbind {A B : Type} (r : result A) (k : A -> result B) : result B :=
  match r with
  | Ok a => k a
  | Raise e => Raise e
  end.

Notation "'try' x := e 'in' k" := (rbind e (fun x => k))
  (at level 10, x name, e at level 100, k at level 200).

(** ** Scalars: the operations numpy and Python apply to float64 values *)

Class Float64 (F : Type) : Type := {
  f_of_int : Z -> F;            (* int -> float conversion             *)
  f_095 : F;                    (* the literal 0.95                    *)
  f_add : F -> F -> F;
  f_sub : F -> F -> F;
  f_mul : F -> F -> F;
  f_div : F -> F -> F;          (* numpy division: no exception on 0   *)
  f_sqrt : F -> F;              (* np.sqrt                             *)
  f_lt : F -> F -> bool;        (* <                                   *)
  f_le : F -> F -> bool;        (* <=                                  *)
  f_eq : F -> F -> bool         (* ==                                  *)
}.

Definition float_of_int (z : Z) : float :=
  if z <? 0 then PrimFloat.opp (PrimFloat.of_uint63 (Uint63.of_Z (- z)))
  else PrimFloat.of_uint63 (Uint63.of_Z z).

#[export] Instance binary64 : Float64 float := {
  f_of_int := float_of_int;
  f_095 := 0x1.e666666666666p-1%float;
  f_add := PrimFloat.add;
  f_sub := PrimFloat.sub;
  f_mul := PrimFloat.mul;
  f_div := PrimFloat.div;
  f_sqrt := PrimFloat.sqrt;
  f_lt := PrimFloat.ltb;
  f_le := PrimFloat.leb;
  f_eq := PrimFloat.eqb
}.

Definition Rltb (a b : R) : bool := if Rlt_dec a b then true else false.
Definition Rleb (a b : R) : bool := if Rle_dec a b then true else false.
Definition Reqb (a b : R) : bool := if Req_dec_T a b then true else false.

#[export] Instance exact_reals : Float64 R := {
  f_of_int := IZR;
  f_095 := (95 / 100)%R;
  f_add := Rplus;
  f_sub := Rminus;
  f_mul := Rmult;
  f_div := Rdiv;
  f_sqrt := sqrt;
  f_lt := Rltb;
  f_le := Rleb;
  f_eq := Reqb
}.

Section Arrays.
Context {F : Type} `{Float64 F}.

(** [a ** 2] on a float array is the elementwise square. *)
Definition f_sq (a : F) : F := f_mul a a.

(** [np.sum] of a one-dimensional array ([0.0] for the empty array). *)
Definition np_sum (a : list F) : F := fold_left f_add a (f_of_int 0).

(** [np.mean]: the sum divided by the element count. *)
Definition np_mean (a : list F) : F :=
  f_div (np_sum a) (f_of_int (Z.of_nat (length a))).

(** Python's [a / b] on two ints. *)
Definition int_truediv (a b : Z) : result F :=
  if b =? 0 then Raise ZeroDivisionError
  else Ok (f_div (f_of_int a) (f_of_int b)).

(** A binary operator on two one-dimensional arrays, with numpy's
    broadcasting: equal shapes combine elementwise, a one-element array
    is stretched, any other pair of shapes is refused. *)
Definition broadcast2 (op : F -> F -> F) (a b : list F) : result (list F) :=
  if (length a =? length b)%nat then Ok (zip_with op a b)
  else match a, b with
       | [a0], _ => Ok (map (op a0) b)
       | _, [b0] => Ok (map (fun v => op v b0) a)
       | _, _ => Raise (ValueError "operands could not be broadcast together")
       end.

(** *** calc_ci (scatter.py, lines 293-307)

    [t_ppf q dof] stands for [scipy.stats.t.ppf(q, dof)]. *)
Section CalcCi.
Variable t_ppf : F -> Z -> F.

Definition calc_ci (x y y_model : list F) : result (list F) :=
  let n := Z.of_nat (length x) in
  let m := 2 in
  let dof := n - m in
  let t := t_ppf f_095 dof in
  try resid := broadcast2 f_sub y y_model in
  let s_err := f_sqrt (f_div (np_sum (map f_sq resid)) (f_of_int dof)) in
  try inv_n := int_truediv 1 n in
  let dev2 := map (fun xi => f_sq (f_sub xi (np_mean x))) x in
  let sxx := np_sum (map (fun xi => f_sq (f_sub xi (np_mean x))) x) in
  Ok (map (fun d => f_mul (f_mul t s_err)
                      (f_sqrt (f_add inv_n (f_div d sxx)))) dev2).

(** The band drawn by [plot_scatter] (lines 145-146): [y_model - ci] and
    [y_model + ci]. *)
Definition ci_lower (y_model ci : list F) : result (list F) :=
  broadcast2 f_sub y_model ci.

Definition ci_upper (y_model ci : list F) : result (list F) :=
  broadcast2 f_add y_model ci.

(** *** The half-width as the specification writes it

    [dof = n - 2], [t = quantile(0.95, dof)],
    [standard_error = sqrt(sum(residual^2) / dof)],
    [half_width(x_i) = t * standard_error *
       sqrt(1/n + (x_i - mean(x))^2 / sum((x_j - mean(x))^2))]. *)
Fixpoint sum_sq_residuals (y y_model : list F) : list F :=
  match y, y_model with
  | yi :: y', mi :: m' => f_sq (f_sub yi mi) :: sum_sq_residuals y' m'
  | _, _ => []
  end.

Definition spec_dof (n : Z) : Z := n - 2.

Definition spec_standard_error (n : Z) (y y_model : list F) : F :=
  f_sqrt (f_div (np_sum (sum_sq_residuals y y_model)) (f_of_int (spec_dof n))).

Definition spec_half_width (x y y_model : list F) (xi : F) : F :=
  let n := Z.of_nat (length x) in
  let t := t_ppf f_095 (spec_dof n) in
  let sxx := np_sum (map (fun xj => f_sq (f_sub xj (np_mean x))) x) in
  f_mul (f_mul t (spec_standard_error n y y_model))
        (f_sqrt (f_add (f_div (f_of_int 1) (f_of_int n))
                       (f_div (f_sq (f_sub xi (np_mean x))) sxx))).
End CalcCi.
End Arrays.

(** ** DataFrames, the rendering log and the delegates *)

Section Model.
Context {F : Type} `{Float64 F}.

(** A cell of a DataFrame: a float, a string (object columns, group
    labels) or a missing value. *)
Inductive cell : Type :=
| Num (v : F)
| Str (s : string)
| NA.

(** [==] on cells; a missing value equals nothing. *)
Definition cell_eqb (a b : cell) : bool :=
  match a, b with
  | Num u, Num v => f_eq u v
  | Str s, Str t => String.eqb s t
  | _, _ => false
  end.

(** What [dropna] counts as missing: None/NaT and the float NaN. *)
Definition is_missing (c : cell) : bool :=
  match c with
  | NA => true
  | Num v => negb (f_eq v v)
  | Str _ => false
  end.

(** The order [sort_values] uses within one column. *)
Definition cell_lt (a b : cell) : bool :=
  match a, b with
  | Num u, Num v => f_lt u v
  | Str s, Str t => String.ltb s t
  | _, NA => negb (is_missing a)
  | _, _ => false
  end.

(** A row maps column labels to cells; [columns] keeps the column order. *)
Record frame : Type := Frame {
  columns : list string;
  rows : list (gmap string cell)
}.

Definition row_get (r : gmap string cell) (name : string) : cell :=
  default NA (r !! name).

(** [df[name]]: the cells of one column, or KeyError. *)
Definition column (df : frame) (name : string) : result (list cell) :=
  if bool_decide (name ∈ columns df)
  then Ok (map (fun r => row_get r name) (rows df))
  else Raise (KeyError name).

(** [df.dropna()]: the rows without a missing cell, in order. *)
Definition complete_row (cols : list string) (r : gmap string cell) : bool :=
  forallb (fun c => negb (is_missing (row_get r c))) cols.

Definition dropna (df : frame) : frame :=
  Frame (columns df) (List.filter (complete_row (columns df)) (rows df)).

(** [Series.unique()]: the distinct values in order of first appearance. *)
Fixpoint unique (l : list cell) : list cell :=
  match l with
  | [] => []
  | c :: l' => c :: List.filter (fun d => negb (cell_eqb d c)) (unique l')
  end.

(** [df[df[hue] == hue_id]] *)
Definition select_eq (df : frame) (hue : string) (hue_id : cell) : result frame :=
  try _ := column df hue in
  Ok (Frame (columns df)
            (List.filter (fun r => cell_eqb (row_get r hue) hue_id) (rows df))).

(** [df.sort_values(by=name)] *)
Fixpoint insert_sorted (name : string) (r : gmap string cell)
         (l : list (gmap string cell)) : list (gmap string cell) :=
  match l with
  | [] => [r]
  | r' :: l' =>
      if cell_lt (row_get r name) (row_get r' name) then r :: l
      else r' :: insert_sorted name r l'
  end.

Definition sort_values (df : frame) (name : string) : result frame :=
  try _ := column df name in
  Ok (Frame (columns df) (fold_right (insert_sorted name) [] (rows df))).

(** [df[name] = value] with a scalar: overwrite the column, or append it. *)
Definition set_column (df : frame) (name : string) (value : cell) : frame :=
  Frame (if bool_decide (name ∈ columns df) then columns df
         else columns df ++ [name])
        (map (fun r => <[name := value]> r) (rows df)).

(** [df.loc[df[hue] == hue_id, name] = value] *)
Definition set_where (df : frame) (hue : string) (hue_id : cell)
           (name : string) (value : cell) : result frame :=
  try _ := column df hue in
  Ok (Frame (if bool_decide (name ∈ columns df) then columns df
             else columns df ++ [name])
            (map (fun r => if cell_eqb (row_get r hue) hue_id
                           then <[name := value]> r
                           else if bool_decide (name ∈ columns df) then r
                                else <[name := NA]> r)
                 (rows df))).

(** [df.columns.drop(label)] *)
Definition columns_drop (cols : list string) (label : string) : result (list string) :=
  if bool_decide (label ∈ cols)
  then Ok (List.filter (fun c => negb (String.eqb c label)) cols)
  else Raise (KeyError label).

(** [pd.melt(df, id_vars=[x], value_vars=vars, var_name=hue, value_name=v)]:
    one block of rows per value column, each row keeping its x cell. *)
Definition melt (df : frame) (x : string) (vars : list string)
           (var_name value_name : string) : frame :=
  Frame [x; var_name; value_name]
        (flat_map (fun v =>
           map (fun r => <[value_name := row_get r v]>
                           (<[var_name := Str v]>
                              (<[x := row_get r x]> (∅ : gmap string cell))))
               (rows df))
           vars).

(** [to_numpy()] of a column as a float array; arithmetic on an object
    array raises TypeError. *)
Fixpoint as_floats (l : list cell) : result (list F) :=
  match l with
  | [] => Ok []
  | Num v :: l' => try vs := as_floats l' in Ok (v :: vs)
  | _ :: _ => Raise TypeError
  end.

(** *** Rendering calls *)

Inductive label_arg : Type :=
| LabelBool (b : bool)
| LabelStr (s : string)
| LabelNone.

Inductive call : Type :=
| PltSubplots (fig ax : nat)
| SnsScatterplot (ax : nat) (x y : string) (data : frame) (color : string) (s : Z)
| SnsRegplot (ax : nat) (x y : string) (data : frame) (ci : option Z)
             (order : Z) (truncate : option bool) (color : string) (s : Z)
             (linewidth : F)
| AxPlot (ax : nat) (xs : list cell) (ys : list F) (color : string)
         (lw : option F) (linestyle : string)
| AxAnnotate (ax : nat) (text : string) (x y : cell) (color : cell) (fontsize : Z)
| AxScatter (ax : nat) (x y : cell) (c : cell) (s : Z)
| AxSetXlim (ax : nat) (lo hi : F)
| AxSetYlim (ax : nat) (lo hi : F)
| QpSetXLimits (ax : nat) (limits : option F * option F)
| QpSetYLimits (ax : nat) (limits : option F * option F)
| QpSetAxTickLabels (ax : nat) (xticks : option (list cell * list string)) (fontsize : Z)
| QpSetAxXyLabels (ax : nat) (xlabel ylabel : label_arg) (fontsize : Z)
| QpSetAxTicksFormat (ax : nat) (xvar_format yvar_format : string) (fontsize : Z)
| QpSetLegend (ax : nat) (labels : list cell) (colors : list string)
              (legend_loc : string) (fontsize : Z)
| QpSetTitle (ax : nat) (title : string) (fontsize : Z)
| QpSetSpines (ax : nat).

(** *** Delegates: library code called by the module

    [M] is the type of a fitted statsmodels regression result. *)
Class Delegates (M : Type) : Type := {
  stats_t_ppf : F -> Z -> F;
  (* qu.get_ols_x(x=x, order=order, fit_intercept=fit_intercept) *)
  get_ols_x : list cell -> Z -> bool -> result (list (list F));
  (* sm.OLS(y, x1).fit() *)
  ols_fit : list cell -> list (list F) -> result M;
  (* reg_model.predict(x1) *)
  predict : M -> list (list F) -> result (list F);
  (* qu.reg_model_params_to_str(reg_model, order, r2_only, fit_intercept) *)
  reg_model_params_to_str : M -> Z -> bool -> bool -> string;
  (* qp.get_n_colors(n=n) *)
  get_n_colors : nat -> list string;
  (* str() of a float, as an f-string formats it *)
  float_str : F -> string;
  (* ax.get_xlim(), ax.get_ylim() after the calls made so far *)
  ax_get_xlim : list call -> nat -> F * F;
  ax_get_ylim : list call -> nat -> F * F;
  (* np.linspace(lo, hi) *)
  np_linspace : F -> F -> list F;
  (* qu.add_quantile_classification(df, x_column, hue_name, num_buckets, bins)[0] *)
  add_quantile_classification :
    frame -> string -> string -> option Z -> list F -> result frame
}.

(** *** The arguments of plot_scatter, with their defaults *)

Record scatter_args : Type := ScatterArgs {
  x_column : option string;
  y_column : option string;
  hue : option string;
  xlabel : label_arg;
  ylabel : label_arg;
  title : option string;
  annotation_labels : option (list string);
  annotation_colors : option (list string);
  annotation_color : option string;
  add_universe_model_label : bool;
  add_universe_model_prediction : bool;
  add_universe_model_ci : bool;
  add_hue_model_label : option bool;
  ci : option Z;
  order : Z;
  full_sample_order : option Z;
  fit_intercept : bool;
  color0 : string;
  colors : option (list string);
  xvar_format : string;
  yvar_format : string;
  x_limits : option (option F * option F);
  y_limits : option (option F * option F);
  xticks : option (list string);
  fontsize : Z;
  linewidth : F;
  markersize : Z;
  full_sample_label : string;
  add_45line : bool;
  r2_only : bool;
  legend_loc : string;
  value_name : string;
  ax : option nat
}.

Definition default_args : scatter_args := {|
  x_column := None; y_column := None; hue := None;
  xlabel := LabelBool true; ylabel := LabelBool true; title := None;
  annotation_labels := None; annotation_colors := None;
  annotation_color := Some "red";
  add_universe_model_label := true;
  add_universe_model_prediction := false;
  add_universe_model_ci := false;
  add_hue_model_label := None;
  ci := None; order := 2; full_sample_order := Some 2; fit_intercept := true;
  color0 := "darkblue"; colors := None;
  xvar_format := "{:.0%}"; yvar_format := "{:.0%}";
  x_limits := None; y_limits := None; xticks := None;
  fontsize := 10;
  linewidth := f_div (f_of_int 3) (f_of_int 2);
  markersize := 4;
  full_sample_label := "Full sample: ";
  add_45line := false; r2_only := false; legend_loc := "upper left";
  value_name := "value_name"; ax := None
|}.

(** ** The interpreter state and its monad

    [heap] holds the DataFrame objects, [log] the rendering calls made so
    far (oldest first), [next_id] the next matplotlib object identifier. *)

Record state : Type := State {
  heap : gmap positive frame;
  log : list call;
  next_id : nat
}.

Definition py (A : Type) : Type := state -> result A * state.

Definition ret {A : Type} (a : A) : py A := fun st => (Ok a, st).

Definition bind {A B : Type} (m : py A) (k : A -> py B) : py B :=
  fun st =>
    match m st with
    | (Ok a, st') => k a st'
    | (Raise e, st') => (Raise e, st')
    end.

Definition lift {A : Type} (r : result A) : py A := fun st => (r, st).

Definition raise {A : Type} (e : exn) : py A := lift (Raise e).

Definition emit (c : call) : py unit :=
  fun st => (Ok tt, State (heap st) (log st ++ [c]) (next_id st)).

Definition get_log : py (list call) := fun st => (Ok (log st), st).

(** Reading through a reference; a name that is not bound to a DataFrame
    has none of its methods. *)
Definition get_frame (l : positive) : py frame :=
  fun st =>
    match heap st !! l with
    | Some d => (Ok d, st)
    | None => (Raise AttributeError, st)
    end.

(** A method that returns a new DataFrame object. *)
Definition new_frame (d : frame) : py positive :=
  fun st =>
    let l := fresh (dom (heap st)) in
    (Ok l, State (<[l := d]> (heap st)) (log st) (next_id st)).

(** In-place assignment into the DataFrame a name refers to. *)
Definition put_frame (l : positive) (d : frame) : py unit :=
  fun st => (Ok tt, State (<[l := d]> (heap st)) (log st) (next_id st)).

(** [plt.subplots(1, 1, figsize=(8, 6))] *)
Definition plt_subplots : py (nat * nat) :=
  fun st =>
    let fig := next_id st in
    let ax := S (next_id st) in
    (Ok (fig, ax),
     State (heap st) (log st ++ [PltSubplots fig ax]) (S (S (next_id st)))).

Notation "x <- e ;; k" := (bind e (fun x => k))
  (at level 100, e at next level, k at level 200, right associativity).
Notation "e ;;; k" := (bind e (fun _ => k))
  (at level 100, k at level 200, right associativity).

Definition when (b : bool) (m : py unit) : py unit := if b then m else ret tt.

(** ** Small Python helpers *)

Context {M : Type} `{Delegates M}.

(** [l[i]] for [i >= 0]. *)
Definition list_item {A : Type} (l : list A) (i : nat) : result A :=
  match l !! i with
  | Some a => Ok a
  | None => Raise IndexError
  end.

(** [str(value)] of a cell, as an f-string renders it. *)
Definition cell_str (c : cell) : string :=
  match c with
  | Str s => s
  | Num v => float_str v
  | NA => "nan"
  end.

(** The dict [estimated_reg_models], keyed by group value. *)
Fixpoint dict_set (d : list (cell * M)) (k : cell) (v : M) : list (cell * M) :=
  match d with
  | [] => [(k, v)]
  | (k', v') :: d' =>
      if cell_eqb k' k then (k', v) :: d' else (k', v') :: dict_set d' k v
  end.

Fixpoint dict_get (d : list (cell * M)) (k : cell) : result M :=
  match d with
  | [] => Raise (KeyError (cell_str k))
  | (k', v') :: d' => if cell_eqb k' k then Ok v' else dict_get d' k
  end.

Definition is_some {A : Type} (o : option A) : bool :=
  match o with Some _ => true | None => false end.

(** ** plot_scatter (scatter.py, lines 19-240) *)

(** Line 58: [df = df.copy().dropna()]. *)
Definition copy_dropna (df : positive) : py positive :=
  d <- get_frame df ;;
  c <- new_frame d ;;
  d' <- get_frame c ;;
  new_frame (dropna d').

(** The test of lines 61 and 66:
    [len(df.columns) == 2 or (len(df.columns) == 3 and hue is not None)]. *)
Definition two_or_three (d : frame) (hue : option string) : bool :=
  (length (columns d) =? 2)%nat
  || ((length (columns d) =? 3)%nat && is_some hue).

(** Lines 60-72: the x column, the y column, the group column and, when the
    table is reshaped to long form, the melted table. *)
Definition resolve (a : scatter_args) (d : frame)
  : result (string * string * option string * option frame) :=
  try x := match x_column a with
           | Some x => Ok x
           | None =>
               if two_or_three d (hue a) then list_item (columns d) 0
               else Raise (ValueError "x_column is not defined for more than on columns")
           end in
  match y_column a with
  | Some y => Ok (x, y, hue a, None)
  | None =>
      if two_or_three d (hue a) then
        try y := list_item (columns d) 1 in
        Ok (x, y, hue a, None)
      else
        try vars := columns_drop (columns d) x in
        Ok (x, value_name a, Some "hue",
            Some (melt d x vars "hue" (value_name a)))
  end.

(** The same lines on the store: [pd.melt] returns a new DataFrame, bound
    to the local name [df]. *)
Definition resolve_columns (a : scatter_args) (df : positive)
  : py (string * string * option string * positive) :=
  d <- get_frame df ;;
  r <- lift (resolve a d) ;;
  let '(x, y, hue, melted) := r in
  match melted with
  | Some m => df' <- new_frame m ;; ret (x, y, hue, df')
  | None => ret (x, y, hue, df)
  end.

(** Line 74 *)
Definition effective_hue_model_label (a : scatter_args) (hue : option string)
  : option bool :=
  if is_some hue && negb (is_some (add_hue_model_label a)) then Some true
  else add_hue_model_label a.

Definition truthy (o : option bool) : bool :=
  match o with Some true => true | _ => false end.

(** Lines 77-80 *)
Definition make_axes (ax : option nat) : py (option nat * nat) :=
  match ax with
  | None => p <- plt_subplots ;; ret (Some (fst p), snd p)
  | Some ax => ret (None, ax)
  end.

(** Lines 91-93: the rows of one group sorted by x, and their x and y
    arrays. *)
Definition group_data (d : frame) (x y hue : string) (hue_id : cell)
  : result (frame * list cell * list cell) :=
  try sel := select_eq d hue hue_id in
  try data_hue := sort_values sel x in
  try xs := column data_hue x in
  try ys := column data_hue y in
  Ok (data_hue, xs, ys).

(** Lines 101-112: the regression curve of one group. *)
Definition plot_group_curve (a : scatter_args) (ax : nat) (x y : string)
           (data_hue : frame) (xs : list cell) (x1 : list (list F))
           (reg_model : M) (color : string) : py unit :=
  if 0 <? order a then
    if is_some (ci a) then
      emit (SnsRegplot ax x y data_hue (ci a) (order a) (Some true) color
                       (markersize a) (linewidth a))
    else
      prediction <- lift (predict reg_model x1) ;;
      emit (AxPlot ax xs prediction color (Some (linewidth a)) "-")
  else ret tt.

(** Lines 89-112: the loop over the group values. *)
Fixpoint plot_hue_groups (a : scatter_args) (ax : nat) (df : positive)
         (x y hue : string) (palette : list string) (idx : nat)
         (hue_ids : list cell) (models : list (cell * M))
  : py (list (cell * M)) :=
  match hue_ids with
  | [] => ret models
  | hue_id :: rest =>
      d <- get_frame df ;;
      g <- lift (group_data d x y hue hue_id) ;;
      let '(data_hue, xs, ys) := g in
      x1 <- lift (get_ols_x xs (order a) (fit_intercept a)) ;;
      reg_model <- lift (ols_fit ys x1) ;;
      let models := dict_set models hue_id reg_model in
      color <- lift (list_item palette idx) ;;
      emit (SnsScatterplot ax x y data_hue color (markersize a)) ;;;
      plot_group_curve a ax x y data_hue xs x1 reg_model color ;;;
      plot_hue_groups a ax df x y hue palette (S idx) rest models
  end.

(** Lines 82-124: the scatter layers; returns [estimated_reg_models] and
    the value of [colors] afterwards. *)
Definition plot_layers (a : scatter_args) (ax : nat) (df : positive)
           (x y : string) (hue : option string)
  : py (list (cell * M) * option (list string)) :=
  match hue with
  | Some h =>
      d <- get_frame df ;;
      colors <- match colors a with
                | Some cs => ret cs
                | None =>
                    hue_col <- lift (column d h) ;;
                    ret (get_n_colors (length (unique hue_col)))
                end ;;
      hue_col <- lift (column d h) ;;
      models <- plot_hue_groups a ax df x y h colors 0 (unique hue_col) [] ;;
      ret (models, Some colors)
  | None =>
      match full_sample_order a with
      | None => ret ([], colors a)
      | Some o =>
          d <- get_frame df ;;
          (if o =? 0 then
             emit (SnsScatterplot ax x y d (color0 a) (markersize a))
           else
             emit (SnsRegplot ax x y d (ci a) o None (color0 a)
                              (markersize a) (linewidth a))) ;;;
          ret ([], colors a)
      end
  end.

(** Lines 127-152: the pooled model; returns the legend labels and colors
    accumulated so far. *)
Definition universe_model (a : scatter_args) (ax : nat) (df : positive)
           (x y : string) : py (list cell * list string) :=
  match full_sample_order a with
  | None => ret ([], [])
  | Some o =>
      if (add_universe_model_prediction a || add_universe_model_label a
          || add_universe_model_ci a) && (0 <? o) then
        d <- get_frame df ;;
        _ <- lift (column d x) ;;
        _ <- lift (column d y) ;;
        xy <- lift (sort_values d x) ;;
        xs <- lift (column xy x) ;;
        ys <- lift (column xy y) ;;
        x1 <- lift (get_ols_x xs o (fit_intercept a)) ;;
        reg_model <- lift (ols_fit ys x1) ;;
        when (add_universe_model_prediction a)
             (prediction <- lift (predict reg_model x1) ;;
              emit (AxPlot ax xs prediction (color0 a) (Some (linewidth a)) "--")) ;;;
        when (add_universe_model_ci a)
             (y_model <- lift (predict reg_model x1) ;;
              xf <- lift (as_floats xs) ;;
              yf <- lift (as_floats ys) ;;
              ci <- lift (calc_ci stats_t_ppf xf yf y_model) ;;
              lower <- lift (ci_lower y_model ci) ;;
              emit (AxPlot ax xs lower "0.5" None "--") ;;;
              upper <- lift (ci_upper y_model ci) ;;
              emit (AxPlot ax xs upper "0.5" None "--")) ;;;
        if add_universe_model_label a then
          ret ([Str (full_sample_label a ++ " "
                     ++ reg_model_params_to_str reg_model o false (fit_intercept a))],
               [color0 a])
        else ret ([], [])
      else ret ([], [])
  end.

(** Lines 160-169: the legend text of one group. *)
Definition group_label (a : scatter_args) (label_models : bool)
           (models : list (cell * M)) (hue_id : cell) : result cell :=
  if 0 <? order a then
    if label_models then
      try reg_model := dict_get models hue_id in
      Ok (Str (cell_str hue_id ++ ": "
               ++ reg_model_params_to_str reg_model (order a)
                    (r2_only a) (fit_intercept a)))
    else Ok hue_id
  else Ok hue_id.

(** Lines 158-170: one legend entry per (color, group value) pair. *)
Fixpoint hue_legend (a : scatter_args) (df : positive) (hue : string)
         (label_models : bool) (models : list (cell * M))
         (pairs : list (string * cell))
         (legend_labels : list cell) (legend_colors : list string)
  : py (list cell * list string) :=
  match pairs with
  | [] => ret (legend_labels, legend_colors)
  | (color, hue_id) :: rest =>
      d <- get_frame df ;;
      d' <- lift (set_where d hue hue_id "color" (Str "red")) ;;
      put_frame df d' ;;;
      text <- lift (group_label a label_models models hue_id) ;;
      hue_legend a df hue label_models models rest
                 (legend_labels ++ [text]) (legend_colors ++ [color])
  end.

(** Lines 155-174. The [elif] of line 172 repeats [hue is not None] and
    is never taken. *)
Definition legend_entries (a : scatter_args) (df : positive)
           (hue : option string) (label_models : bool)
           (models : list (cell * M)) (colors : option (list string))
           (legend_labels : list cell) (legend_colors : list string)
  : py (list cell * list string) :=
  d <- get_frame df ;;
  put_frame df (set_column d "color" (Str (color0 a))) ;;;
  match hue with
  | Some h =>
      d <- get_frame df ;;
      hue_col <- lift (column d h) ;;
      hue_legend a df h label_models models
                 (zip (default [] colors) (unique hue_col))
                 legend_labels legend_colors
  | None => ret (legend_labels, legend_colors)
  end.

(** Lines 184-191 *)
Fixpoint annotate_points (ax : nat) (fontsize : Z)
         (points : list (string * (cell * (cell * cell)))) : py unit :=
  match points with
  | [] => ret tt
  | (label, (x, (y, color))) :: rest =>
      emit (AxAnnotate ax label x y color fontsize) ;;;
      when (negb (String.eqb label ""))
           (emit (AxScatter ax x y color 20)) ;;;
      annotate_points ax fontsize rest
  end.

(** Lines 178-183: the color of each annotation. *)
Definition annotation_point_colors (a : scatter_args) (d : frame)
  : result (list cell) :=
  match annotation_colors a with
  | Some cs => Ok (map Str cs)
  | None =>
      match annotation_color a with
      | Some c => Ok (replicate (length (rows d)) (Str c))
      | None => column d "color"
      end
  end.

(** Lines 177-191 *)
Definition annotate (a : scatter_args) (ax : nat) (df : positive)
           (x y : string) : py unit :=
  match annotation_labels a with
  | None => ret tt
  | Some labels =>
      d <- get_frame df ;;
      colors <- lift (annotation_point_colors a d) ;;
      xs <- lift (column d x) ;;
      ys <- lift (column d y) ;;
      annotate_points ax (fontsize a) (zip labels (zip xs (zip ys colors)))
  end.

(** Lines 193-201 *)
Definition line_45 (ax : nat) : py unit :=
  lg <- get_log ;;
  let ylim := ax_get_ylim lg ax in
  let xlim := ax_get_xlim lg ax in
  let min := if f_lt (fst ylim) (fst xlim) then fst ylim else fst xlim in
  let max := if f_lt (snd xlim) (snd ylim) then snd ylim else snd xlim in
  emit (AxSetXlim ax min max) ;;;
  emit (AxSetYlim ax min max) ;;;
  lg' <- get_log ;;
  let xlim' := ax_get_xlim lg' ax in
  let x := np_linspace (fst xlim') (snd xlim') in
  emit (AxPlot ax (map Num x) x "black" (Some (f_of_int 1)) "--").

Definition resolve_label (l : label_arg) (prefix name : string) : label_arg :=
  match l with
  | LabelBool true => LabelStr (prefix ++ name)
  | LabelBool false => LabelStr ""
  | _ => l
  end.

(** Lines 203-238 *)
Definition decorate (a : scatter_args) (ax : nat) (df : positive)
           (x y : string) (legend_labels : list cell)
           (legend_colors : list string) : py unit :=
  match x_limits a with
  | Some l => emit (QpSetXLimits ax l)
  | None => ret tt
  end ;;;
  match y_limits a with
  | Some l => emit (QpSetYLimits ax l)
  | None => ret tt
  end ;;;
  match xticks a with
  | Some labels =>
      d <- get_frame df ;;
      xs <- lift (column d x) ;;
      emit (QpSetAxTickLabels ax (Some (xs, labels)) (fontsize a))
  | None => emit (QpSetAxTickLabels ax None (fontsize a))
  end ;;;
  emit (QpSetAxXyLabels ax (resolve_label (xlabel a) "x = " x)
                        (resolve_label (ylabel a) "y = " y) (fontsize a)) ;;;
  emit (QpSetAxTicksFormat ax (xvar_format a) (yvar_format a) (fontsize a)) ;;;
  emit (QpSetLegend ax legend_labels legend_colors (legend_loc a) (fontsize a)) ;;;
  match title a with
  | Some t => emit (QpSetTitle ax t (fontsize a))
  | None => ret tt
  end ;;;
  emit (QpSetSpines ax).

(** The part of plot_scatter after the figure exists (lines 82-238). *)
Definition render (a : scatter_args) (ax : nat) (df : positive)
           (x y : string) (hue : option string) : py unit :=
  layers <- plot_layers a ax df x y hue ;;
  universe <- universe_model a ax df x y ;;
  legend <- legend_entries a df hue
              (truthy (effective_hue_model_label a hue))
              (fst layers) (snd layers) (fst universe) (snd universe) ;;
  annotate a ax df x y ;;;
  when (add_45line a) (line_45 ax) ;;;
  decorate a ax df x y (fst legend) (snd legend).

Definition plot_scatter (df : positive) (a : scatter_args) : py (option nat) :=
  df <- copy_dropna df ;;
  r <- resolve_columns a df ;;
  let '(x, y, hue, df) := r in
  fa <- make_axes (ax a) ;;
  render a (snd fa) df x y hue ;;;
  ret (fst fa).

(** ** plot_classification_scatter (scatter.py, lines 243-290) *)

Record classification_args : Type := ClassificationArgs {
  cls_x_column : option string;
  cls_y_column : option string;
  cls_hue_name : string;
  cls_num_buckets : option Z;
  cls_bins : list F;
  cls_order : Z;
  cls_title : option string;
  cls_full_sample_order : option Z;
  cls_markersize : Z;
  cls_xvar_format : string;
  cls_yvar_format : string;
  cls_fit_intercept : bool;
  cls_ax : option nat
}.

Definition classification_scatter_args (c : classification_args)
           (x y : string) : scatter_args := {|
  x_column := Some x; y_column := Some y; hue := Some (cls_hue_name c);
  xlabel := LabelBool true; ylabel := LabelBool true; title := cls_title c;
  annotation_labels := None; annotation_colors := None;
  annotation_color := Some "red";
  add_universe_model_label := true;
  add_universe_model_prediction := false;
  add_universe_model_ci := false;
  add_hue_model_label := Some true;
  ci := None; order := cls_order c;
  full_sample_order := cls_full_sample_order c;
  fit_intercept := cls_fit_intercept c;
  color0 := "darkblue"; colors := None;
  xvar_format := cls_xvar_format c; yvar_format := cls_yvar_format c;
  x_limits := None; y_limits := None; xticks := None;
  fontsize := 10;
  linewidth := f_div (f_of_int 3) (f_of_int 2);
  markersize := cls_markersize c;
  full_sample_label := "Full sample: ";
  add_45line := false; r2_only := false; legend_loc := "upper left";
  value_name := "value_name"; ax := cls_ax c
|}.

Definition plot_classification_scatter (df : positive) (c : classification_args)
  : py (option nat) :=
  d <- get_frame df ;;
  x <- match cls_x_column c with
       | Some x => ret x
       | None =>
           if (length (columns d) =? 2)%nat then lift (list_item (columns d) 0)
           else raise (ValueError "x_column is not defined for more than on columns")
       end ;;
  y <- match cls_y_column c with
       | Some y => ret y
       | None =>
           if (length (columns d) =? 2)%nat then lift (list_item (columns d) 1)
           else raise (ValueError "y_column is not defined for more than on columns")
       end ;;
  classified <- lift (add_quantile_classification d x (cls_hue_name c)
                        (cls_num_buckets c) (cls_bins c)) ;;
  df' <- new_frame classified ;;
  fig <- plot_scatter df' (classification_scatter_args c x y) ;;
  ret fig.

End Model.

Arguments cell F : clear implicits.
Arguments frame F : clear implicits.
Arguments label_arg : clear implicits.
Arguments call F : clear implicits.
Arguments Delegates F M : clear implicits.
Arguments scatter_args F : clear implicits.
Arguments classification_args F : clear implicits.
Arguments state F : clear implicits.
Arguments py F A : clear implicits.

(** ** Reference delegates

    One inhabitant of [Delegates], used to run the model on concrete
    DataFrames: a polynomial design matrix, least squares through the
    normal equations (reporting a singular system, as a solver without a
    pseudo-inverse does), and fixed answers for the rendering queries. *)

Section ReferenceDelegates.
Context {F : Type} `{Float64 F}.

Fixpoint f_pow (v : F) (n : nat) : F :=
  match n with
  | O => f_of_int 1
  | S n' => f_mul v (f_pow v n')
  end.

(** Modelled from the spec: qu.get_ols_x is not among the sources; "build a
    polynomial design matrix of the configured order (optionally including
    an intercept column)". The intercept column comes first. *)
Definition poly_design (xs : list (cell F)) (order : Z) (fit_intercept : bool)
  : result (list (list F)) :=
  try xf := as_floats xs in
  Ok (map (fun v => ((if fit_intercept then [f_of_int 1] else [])
                     ++ map (f_pow v) (seq 1 (Z.to_nat order)))%list) xf).

(** Modelled from the spec: the number of regression coefficients implied
    by the order and the intercept flag. *)
Definition num_coefficients (order : Z) (fit_intercept : bool) : nat :=
  (Z.to_nat order + (if fit_intercept then 1 else 0))%nat.

Definition dot (u v : list F) : F := np_sum (zip_with f_mul u v).

Definition matrix_column (m : list (list F)) (j : nat) : list F :=
  map (fun r => nth j r (f_of_int 0)) m.

(** The augmented normal system [X'X | X'y]. *)
Definition normal_system (x1 : list (list F)) (y : list F) : list (list F) :=
  let k := match x1 with r :: _ => length r | [] => O end in
  map (fun i => (map (fun j => dot (matrix_column x1 i) (matrix_column x1 j)) (seq 0 k)
                 ++ [dot (matrix_column x1 i) y])%list)
      (seq 0 k).

(** Gaussian elimination without pivoting; each returned row is the part
    right of its unit pivot. *)
Fixpoint eliminate (fuel : nat) (system : list (list F)) : result (list (list F)) :=
  match fuel, system with
  | S fuel', (p :: r) :: rest =>
      if f_eq p (f_of_int 0) then Raise (DelegateError "LinAlgError: Singular matrix")
      else
        let r' := map (fun v => f_div v p) r in
        let reduce (s : list F) : list F :=
          match s with
          | q :: s' => zip_with (fun sv rv => f_sub sv (f_mul q rv)) s' r'
          | [] => []
          end in
        try tri := eliminate fuel' (map reduce rest) in
        Ok (r' :: tri)
  | _, _ => Ok []
  end.

Definition back_substitute (tri : list (list F)) : list F :=
  fold_right (fun r beta =>
                f_sub (List.last r (f_of_int 0)) (dot (removelast r) beta) :: beta)
             [] tri.

Definition least_squares (ys : list (cell F)) (x1 : list (list F))
  : result (list F) :=
  try yf := as_floats ys in
  try tri := eliminate (length x1 + 1) (normal_system x1 yf) in
  Ok (back_substitute tri).

Definition linear_predict (beta : list F) (x1 : list (list F)) : result (list F) :=
  Ok (map (fun r => dot r beta) x1).

Definition params_text (beta : list F) (order : Z) (r2_only fit_intercept : bool)
  : string :=
  if r2_only then "R2" else "y=poly(x), R2".

Definition tab10 : list string :=
  ["C0"; "C1"; "C2"; "C3"; "C4"; "C5"; "C6"; "C7"; "C8"; "C9"].

Definition n_colors (n : nat) : list string :=
  map (fun i => nth (i mod 10) tab10 "C0") (seq 0 n).

Definition linspace50 (lo hi : F) : list F :=
  map (fun i => f_add lo (f_mul (f_of_int (Z.of_nat i))
                                 (f_div (f_sub hi lo) (f_of_int 49))))
      (seq 0 50).

(** One bucket for every row: enough to run plot_classification_scatter. *)
Definition one_bucket (d : frame F) (x hue_name : string)
           (num_buckets : option Z) (bins : list F) : result (frame F) :=
  try _ := column d x in
  Ok (set_column d hue_name (Str "all")).

Definition reference_delegates (t_ppf : F -> Z -> F) : Delegates F (list F) := {|
  stats_t_ppf := t_ppf;
  get_ols_x := poly_design;
  ols_fit := least_squares;
  predict := linear_predict;
  reg_model_params_to_str := params_text;
  get_n_colors := n_colors;
  float_str := fun _ => "float";
  ax_get_xlim := fun _ _ => (f_of_int 0, f_of_int 1);
  ax_get_ylim := fun _ _ => (f_of_int 0, f_of_int 1);
  np_linspace := linspace50;
  add_quantile_classification := one_bucket
|}.

End ReferenceDelegates.

(** Student's t quantile for the binary64 runs: nan outside the
    distribution's domain (dof <= 0), as scipy answers; the 0.95 quantiles
    of one to four degrees of freedom, and the normal quantile beyond. *)
Definition t_ppf_table (q : float) (dof : Z) : float :=
  if dof <=? 0 then nan
  else if dof =? 1 then 0x1.9414813ba662bp+2%float
  else if dof =? 2 then 0x1.75c2166635922p+1%float
  else if dof =? 3 then 0x1.2d3b035609bccp+1%float
  else if dof =? 4 then 0x1.10e05b01ad863p+1%float
  else 0x1.a515209676abbp+0%float.

#[export] Instance float_delegates : Delegates float (list float) :=
  reference_delegates t_ppf_table.

(** ** Observations on the rendering log, and the claims' vocabulary *)

Section Observations.
Context {F : Type} {num : Float64 F}.

(** A regression curve drawn for one group: the per-group [sns.regplot]
    (the only call passing [truncate=True]) or the solid prediction line
    of line 112. The pooled curves are dashed. *)
Definition is_group_curve (c : call F) : bool :=
  match c with
  | SnsRegplot _ _ _ _ _ _ (Some true) _ _ _ => true
  | AxPlot _ _ _ _ _ linestyle => String.eqb linestyle "-"
  | _ => false
  end.

(** The (labels, colors) handed to [qp.set_legend]. *)
Definition legends (lg : list (call F)) : list (list (cell F) * list string) :=
  flat_map (fun c => match c with
                     | QpSetLegend _ labels colors _ _ => [(labels, colors)]
                     | _ => []
                     end) lg.

(** Marker sizes of the base scatter layers and of the re-drawn annotated
    points. *)
Definition base_marker_sizes (lg : list (call F)) : list Z :=
  flat_map (fun c => match c with
                     | SnsScatterplot _ _ _ _ _ s => [s]
                     | SnsRegplot _ _ _ _ _ _ _ _ s _ => [s]
                     | _ => []
                     end) lg.

Definition redraw_marker_sizes (lg : list (call F)) : list Z :=
  flat_map (fun c => match c with
                     | AxScatter _ _ _ _ s => [s]
                     | _ => []
                     end) lg.

(** The band property as the specification states it: a non-negative
    half-width, and equal distances from the prediction to both edges. *)
Definition band_symmetric (t_ppf : F -> Z -> F) (x y y_model : list F) : Prop :=
  exists ci lower upper,
    calc_ci t_ppf x y y_model = Ok ci /\
    ci_lower y_model ci = Ok lower /\
    ci_upper y_model ci = Ok upper /\
    forall (i : nat) (h p lo up : F),
      ci !! i = Some h -> y_model !! i = Some p ->
      lower !! i = Some lo -> upper !! i = Some up ->
      f_le (f_of_int 0) h = true /\ f_eq (f_sub up p) (f_sub p lo) = true.

(** A legend entry of a group: the group value itself, or its text
    followed by the regression summary. *)
Definition labels_group {M : Type} {lib : Delegates F M} (hue_id t : cell F) : Prop :=
  t = hue_id \/ exists params, t = Str (cell_str hue_id ++ ": " ++ params).

(** "The two non-group columns", in column order. *)
Definition non_group_columns (cols : list string) (hue : string) : list string :=
  List.filter (fun c => negb (String.eqb c hue)) cols.

(** What the annotation of a list of labelled points draws: the text at
    every point, and the point again, at size 20, when its label is not
    empty. *)
Definition annotation_calls (ax : nat) (fontsize : Z)
           (points : list (string * (cell F * (cell F * cell F)))) : list (call F) :=
  flat_map (fun p => match p with
                     | (label, (x, (y, color))) =>
                         AxAnnotate ax label x y color fontsize
                         :: (if String.eqb label "" then []
                             else [AxScatter ax x y color 20])
                     end) points.

(** The table the legend loop reads: the cleaned (and possibly melted)
    table with its [color] column set. *)
Definition legend_frame (a : scatter_args F) (cleaned : frame F)
           (melted : option (frame F)) : frame F :=
  set_column (default cleaned melted) "color" (Str (color0 a)).

(** The figure a call returns: a figure created by this call when no axes
    was passed, None otherwise. *)
Definition returns_figure (ax : option nat) (st st' : state F) (r : option nat)
  : Prop :=
  match ax with
  | None =>
      r = Some (next_id st) /\
      exists rest,
        log st' = (log st ++ PltSubplots (next_id st) (S (next_id st)) :: rest)%list
  | Some _ => r = None
  end.

End Observations.

(** ** Judgements on computations *)

Section Judgements.
Context {F : Type} {num : Float64 F}.

(** The marker sizes the code passes: base layers at [markersize],
    re-drawn annotated points at size 20. *)
Definition sizes_as_coded (a : scatter_args F) (c : call F) : Prop :=
  match c with
  | SnsScatterplot _ _ _ _ _ s => s = markersize a
  | SnsRegplot _ _ _ _ _ _ _ _ s _ => s = markersize a
  | AxScatter _ _ _ _ s => s = 20
  | _ => True
  end.

(** What every call logged by plot_scatter satisfies: a group curve only
    under [order > 0], and the marker sizes above. *)
Definition allowed (a : scatter_args F) (c : call F) : Prop :=
  (is_group_curve c = true -> (0 <? order a) = true) /\ sizes_as_coded a c.

(** The DataFrame [d0] is bound at [l0]. *)
Definition good (l0 : positive) (d0 : frame F) (st : state F) : Prop :=
  heap st !! l0 = Some d0.

(** Running [m] from [st], whatever the outcome: the log is extended by
    allowed calls only, and the DataFrame at [l0] is kept. *)
Definition ok_at {A : Type} (a : scatter_args F) (l0 : positive) (d0 : frame F)
           (m : py F A) (st : state F) : Prop :=
  (exists new, log (snd (m st)) = (log st ++ new)%list /\ Forall (allowed a) new)
  /\ (good l0 d0 st -> good l0 d0 (snd (m st))).

(** What a computation can return. *)
Definition returns {A : Type} (Q : A -> Prop) (m : py F A) : Prop :=
  forall st x st', m st = (Ok x, st') -> Q x.

End Judgements.

(** ** Concrete tables and calls (binary64) *)

Definition row_of (l : list (string * cell float)) : gmap string (cell float) :=
  list_to_map l.

Definition one_frame_state (d : frame float) : state float :=
  State {[ 1%positive := d ]} [] 0.

Definition xy_frame : frame float :=
  Frame ["x"; "y"]
        [row_of [("x", Num 1%float); ("y", Num 2%float)];
         row_of [("x", Num 2%float); ("y", Num 4%float)];
         row_of [("x", Num 3%float); ("y", Num 5%float)];
         row_of [("x", Num 4%float); ("y", Num 4%float)];
         row_of [("x", Num 5%float); ("y", Num 5%float)]].

Definition grouped_rows (g : string) : list (gmap string (cell float)) :=
  [row_of [("x", Num 1%float); ("y", Num 2%float); (g, Str "a")];
   row_of [("x", Num 2%float); ("y", Num 4%float); (g, Str "b")];
   row_of [("x", Num 3%float); ("y", Num 5%float); (g, Str "a")];
   row_of [("x", Num 4%float); ("y", Num 4%float); (g, Str "b")];
   row_of [("x", Num 5%float); ("y", Num 5%float); (g, Str "a")];
   row_of [("x", Num 6%float); ("y", Num 7%float); (g, Str "b")]].

(** Two groups, [a] and [b], in a column named [g]. *)
Definition grouped_frame : frame float := Frame ["x"; "y"; "g"] (grouped_rows "g").

(** The same table with the group column named [color]. *)
Definition color_frame : frame float :=
  Frame ["x"; "y"; "color"] (grouped_rows "color").

(** The same table with the group column first. *)
Definition group_first_frame : frame float :=
  Frame ["g"; "x"; "y"] (grouped_rows "g").

(** Group [a] has a single row. *)
Definition lonely_group_frame : frame float :=
  Frame ["x"; "y"; "g"]
        [row_of [("x", Num 1%float); ("y", Num 2%float); ("g", Str "a")];
         row_of [("x", Num 2%float); ("y", Num 4%float); ("g", Str "b")];
         row_of [("x", Num 3%float); ("y", Num 5%float); ("g", Str "b")];
         row_of [("x", Num 4%float); ("y", Num 4%float); ("g", Str "b")]].

Definition five_column_frame : frame float :=
  Frame ["a"; "b"; "c"; "d"; "e"]
        [row_of [("a", Num 1%float); ("b", Num 2%float); ("c", Num 3%float);
                 ("d", Num 4%float); ("e", Num 5%float)]].

Definition with_hue (a : scatter_args float) (h : string) (o : Z)
  : scatter_args float := {|
  x_column := x_column a; y_column := y_column a; hue := Some h;
  xlabel := xlabel a; ylabel := ylabel a; title := title a;
  annotation_labels := annotation_labels a;
  annotation_colors := annotation_colors a;
  annotation_color := annotation_color a;
  add_universe_model_label := add_universe_model_label a;
  add_universe_model_prediction := add_universe_model_prediction a;
  add_universe_model_ci := add_universe_model_ci a;
  add_hue_model_label := add_hue_model_label a;
  ci := ci a; order := o; full_sample_order := full_sample_order a;
  fit_intercept := fit_intercept a; color0 := color0 a; colors := colors a;
  xvar_format := xvar_format a; yvar_format := yvar_format a;
  x_limits := x_limits a; y_limits := y_limits a; xticks := xticks a;
  fontsize := fontsize a; linewidth := linewidth a; markersize := markersize a;
  full_sample_label := full_sample_label a; add_45line := add_45line a;
  r2_only := r2_only a; legend_loc := legend_loc a;
  value_name := value_name a; ax := ax a
|}.

Definition with_annotation (a : scatter_args float) (labels : list string)
           (size : Z) : scatter_args float := {|
  x_column := x_column a; y_column := y_column a; hue := hue a;
  xlabel := xlabel a; ylabel := ylabel a; title := title a;
  annotation_labels := Some labels;
  annotation_colors := annotation_colors a;
  annotation_color := annotation_color a;
  add_universe_model_label := add_universe_model_label a;
  add_universe_model_prediction := add_universe_model_prediction a;
  add_universe_model_ci := add_universe_model_ci a;
  add_hue_model_label := add_hue_model_label a;
  ci := ci a; order := order a; full_sample_order := full_sample_order a;
  fit_intercept := fit_intercept a; color0 := color0 a; colors := colors a;
  xvar_format := xvar_format a; yvar_format := yvar_format a;
  x_limits := x_limits a; y_limits := y_limits a; xticks := xticks a;
  fontsize := fontsize a; linewidth := linewidth a; markersize := size;
  full_sample_label := full_sample_label a; add_45line := add_45line a;
  r2_only := r2_only a; legend_loc := legend_loc a;
  value_name := value_name a; ax := ax a
|}.

Definition with_ax (a : scatter_args float) (axes : nat) : scatter_args float := {|
  x_column := x_column a; y_column := y_column a; hue := hue a;
  xlabel := xlabel a; ylabel := ylabel a; title := title a;
  annotation_labels := annotation_labels a;
  annotation_colors := annotation_colors a;
  annotation_color := annotation_color a;
  add_universe_model_label := add_universe_model_label a;
  add_universe_model_prediction := add_universe_model_prediction a;
  add_universe_model_ci := add_universe_model_ci a;
  add_hue_model_label := add_hue_model_label a;
  ci := ci a; order := order a; full_sample_order := full_sample_order a;
  fit_intercept := fit_intercept a; color0 := color0 a; colors := colors a;
  xvar_format := xvar_format a; yvar_format := yvar_format a;
  x_limits := x_limits a; y_limits := y_limits a; xticks := xticks a;
  fontsize := fontsize a; linewidth := linewidth a; markersize := markersize a;
  full_sample_label := full_sample_label a; add_45line := add_45line a;
  r2_only := r2_only a; legend_loc := legend_loc a;
  value_name := value_name a; ax := Some axes
|}.

Definition float_defaults : scatter_args float := default_args.

Definition default_classification : classification_args float := {|
  cls_x_column := None; cls_y_column := None; cls_hue_name := "hue";
  cls_num_buckets := None;
  cls_bins := [(-3)%float; (-1.5)%float; 0%float; 1.5%float; 3%float];
  cls_order := 1; cls_title := None; cls_full_sample_order := Some 3;
  cls_markersize := 10; cls_xvar_format := "{:.2f}"; cls_yvar_format := "{:.2f}";
  cls_fit_intercept := false; cls_ax := None
|}.

(** The shapes numpy broadcasts against each other, for one-dimensional
    arrays of lengths [n] and [m]. *)
Definition broadcastable (n m : nat) : bool :=
  (n =? m)%nat || (n =? 1)%nat || (m =? 1)%nat.

(** ** Further observations on the rendering log *)

Section LogObservations.
Context {F : Type} {num : Float64 F}.

(** A seaborn layer drawn from a table. *)
Definition is_data_layer (c : call F) : bool :=
  match c with
  | SnsScatterplot _ _ _ _ _ _ => true
  | SnsRegplot _ _ _ _ _ _ _ _ _ _ => true
  | _ => false
  end.

(** A table without a missing cell in any of its columns. *)
Definition complete_frame (d : frame F) : bool :=
  forallb (complete_row (columns d)) (rows d).

(** The table of a seaborn layer has no missing cell. *)
Definition data_complete (c : call F) : Prop :=
  match c with
  | SnsScatterplot _ _ _ data _ _ => complete_frame data = true
  | SnsRegplot _ _ _ data _ _ _ _ _ _ => complete_frame data = true
  | _ => True
  end.

(** An edge of the confidence band (lines 145-146): the dashed [ax.plot]
    calls without a line width. *)
Definition is_ci_band (c : call F) : bool :=
  match c with
  | AxPlot _ _ _ _ None linestyle => String.eqb linestyle "--"
  | _ => false
  end.

(** The calls into qis.plots that format the axes (lines 203-238). *)
Definition is_formatting (c : call F) : bool :=
  match c with
  | QpSetXLimits _ _ | QpSetYLimits _ _ | QpSetAxTickLabels _ _ _
  | QpSetAxXyLabels _ _ _ _ | QpSetAxTicksFormat _ _ _ _
  | QpSetLegend _ _ _ _ _ | QpSetTitle _ _ _ | QpSetSpines _ => true
  | _ => false
  end.

(** Running [m] from [st], whatever the outcome, appends to the log only
    calls that satisfy [P]. *)
Definition emits {A : Type} (P : call F -> Prop) (m : py F A) (st : state F) : Prop :=
  exists new, log (snd (m st)) = (log st ++ new)%list /\ Forall P new.

(** The band is asked for and a pooled model of positive order is fitted
    (lines 129-130, 141). *)
Definition band_requested (a : scatter_args F) : bool :=
  add_universe_model_ci a
  && match full_sample_order a with
     | Some o => 0 <? o
     | None => false
     end.

(** The pooled model is fitted and its legend entry asked for (lines
    129-130, 148). *)
Definition pooled_label_requested (a : scatter_args F) : bool :=
  add_universe_model_label a
  && match full_sample_order a with
     | Some o => 0 <? o
     | None => false
     end.

End LogObservations.
(** A wide table: x and three value columns. *)
Definition wide_frame : frame float :=
  Frame ["x"; "u"; "v"; "w"]
        [row_of [("x", Num 1%float); ("u", Num 2%float); ("v", Num 3%float);
                 ("w", Num 5%float)];
         row_of [("x", Num 2%float); ("u", Num 4%float); ("v", Num 1%float);
                 ("w", Num 6%float)]].

(** The x column, the palette, the band flag and the order of the pooled
    model of a call. *)
Definition with_choices (a : scatter_args float) (x : option string)
           (palette : option (list string)) (band : bool) (pooled : option Z)
  : scatter_args float := {|
  x_column := x; y_column := y_column a; hue := hue a;
  xlabel := xlabel a; ylabel := ylabel a; title := title a;
  annotation_labels := annotation_labels a;
  annotation_colors := annotation_colors a;
  annotation_color := annotation_color a;
  add_universe_model_label := add_universe_model_label a;
  add_universe_model_prediction := add_universe_model_prediction a;
  add_universe_model_ci := band;
  add_hue_model_label := add_hue_model_label a;
  ci := ci a; order := order a; full_sample_order := pooled;
  fit_intercept := fit_intercept a; color0 := color0 a; colors := palette;
  xvar_format := xvar_format a; yvar_format := yvar_format a;
  x_limits := x_limits a; y_limits := y_limits a; xticks := xticks a;
  fontsize := fontsize a; linewidth := linewidth a; markersize := markersize a;
  full_sample_label := full_sample_label a; add_45line := add_45line a;
  r2_only := r2_only a; legend_loc := legend_loc a;
  value_name := value_name a; ax := ax a
|}.
(** ** get_random_data (scatter.py, lines 310-324)

    The state of numpy's global generator is the sequence of standard
    normal draws it produces next: [np.random.normal(loc, scale, n)] takes
    the first [n] of them and leaves the rest. *)

Section RandomData.
Context {F : Type} {num : Float64 F}.

Definition generator : Type := nat -> F.

(** One draw of [np.random.normal(loc, scale)]: [loc + scale * z]. *)
Definition normal_draw (loc scale : F) (g : generator) (k : nat) : F :=
  f_add loc (f_mul scale (g k)).

(** [np.random.normal(loc, scale, n)]; a negative size is refused. *)
Definition np_random_normal (loc scale : F) (n : Z) (g : generator)
  : result (list F) * generator :=
  if n <? 0 then (Raise (ValueError "negative dimensions are not allowed"), g)
  else (Ok (map (normal_draw loc scale g) (seq 0 (Z.to_nat n))),
        fun k => g (Z.to_nat n + k)%nat).

(** [np.ones(n)] *)
Definition np_ones (n : Z) : result (list F) :=
  if n <? 0 then Raise (ValueError "negative dimensions are not allowed")
  else Ok (repeat (f_of_int 1) (Z.to_nat n)).

(** [pd.concat([pd.Series(x, name='x'), pd.Series(y, name='y')], axis=1)]:
    the two series side by side, row by row; past the end of the shorter
    one its cells are missing. *)
Definition series_cell (s : list F) (k : nat) : cell F :=
  match s !! k with
  | Some v => Num v
  | None => NA
  end.

Definition xy_row (x y : cell F) : gmap string (cell F) :=
  <["x" := x]> (<["y" := y]> ∅).

Definition concat_xy (x y : list F) : frame F :=
  Frame ["x"; "y"]
        (map (fun k => xy_row (series_cell x k) (series_cell y k))
             (seq 0 (Nat.max (length x) (length y)))).

(** Lines 314-317: [beta]. *)
Definition random_beta (is_random_beta : bool) (n : Z) (x : list F) (g : generator)
  : result (list F) * generator :=
  if is_random_beta then
    match np_random_normal (f_of_int 1) (f_of_int 1) n g with
    | (Ok noise, g') => (broadcast2 f_mul noise (map f_sq x), g')
    | (Raise e, g') => (Raise e, g')
    end
  else (np_ones n, g).

Definition get_random_data (is_random_beta : bool) (n : Z) (g : generator)
  : result (frame F) * generator :=
  match np_random_normal (f_of_int 0) (f_of_int 1) n g with
  | (Raise e, g1) => (Raise e, g1)
  | (Ok x, g1) =>
      match np_random_normal (f_of_int 0) (f_of_int 1) n g1 with
      | (Raise e, g2) => (Raise e, g2)
      | (Ok eps, g2) =>
          match random_beta is_random_beta n x g2 with
          | (Raise e, g3) => (Raise e, g3)
          | (Ok beta, g3) =>
              (try bx := broadcast2 f_mul beta x in
               try y := broadcast2 f_add bx eps in
               sort_values (concat_xy x y) "x", g3)
          end
      end
  end.

(** Row [k] of the table before it is sorted: the draw [x], and
    [y = beta * x + eps] from the draws of the same position. *)
Definition drawn_x (g : generator) (k : nat) : F :=
  normal_draw (f_of_int 0) (f_of_int 1) g k.

Definition drawn_eps (n : nat) (g : generator) (k : nat) : F :=
  normal_draw (f_of_int 0) (f_of_int 1) g (n + k).

Definition drawn_beta (is_random_beta : bool) (n : nat) (g : generator) (k : nat) : F :=
  if is_random_beta
  then f_mul (normal_draw (f_of_int 1) (f_of_int 1) g (n + (n + k))) (f_sq (drawn_x g k))
  else f_of_int 1.

Definition drawn_row (is_random_beta : bool) (n : nat) (g : generator) (k : nat)
  : gmap string (cell F) :=
  xy_row (Num (drawn_x g k))
         (Num (f_add (f_mul (drawn_beta is_random_beta n g k) (drawn_x g k))
                     (drawn_eps n g k))).

End RandomData.

(** Row [r] has the real number [v] in column [x]. *)
Definition has_x (r : gmap string (cell R)) (v : R) : Prop := row_get r "x" = Num v.

(** A generator for the sample calls: the draws 3, 1, 2, 0, 0, ... *)
Definition sample_draws : nat -> R :=
  fun k => match k with
           | 0%nat => 3%R
           | 1%nat => 1%R
           | 2%nat => 2%R
           | _ => 0%R
           end.

(** ** generate_strategy_factsheet (strategy_factsheet.py, lines 17-391)

    The function is a sequence of statements: it creates figures, grids
    and subplots, and calls into pandas, qis and the [PortfolioData]
    object. Its statements are listed in source order by [statements]; the
    branches it takes depend on its options and on a few facts about its
    inputs ([inputs]). [run] executes them in order and stops at the first
    exception. What a library call does to the data is not modelled: a
    call is logged with its arguments, and whether it raises is decided by
    a parameter, from the calls made so far. *)

Module Factsheet.

(** What the function reads off its inputs to choose a branch or to format
    a title. Reading an attribute, a length, the unique values, the keys
    or the string of a period is not logged as a call and does not raise
    here. *)
Record inputs : Type := Inputs {
  nav_name : string;                 (* f"{portfolio_data.nav.name}"          *)
  group_count : option nat;          (* None: group_data is None; Some n:
                                        len(portfolio_data.group_data.unique()) *)
  weight_columns : nat;              (* len(portfolio_data.weights.columns)   *)
  benchmark_columns : list string;   (* benchmark_prices.columns              *)
  benchmark_freq : option string;    (* pd.infer_freq(benchmark_prices.index) *)
  turnover_freq : option string;     (* pd.infer_freq(turnover.index)         *)
  costs_freq : option string;        (* pd.infer_freq(costs.index)            *)
  period_str : string;               (* time_period.to_str()                  *)
  period_1y_str : string;            (* to_str() of the period shifted by
                                        qis.get_time_period_shifted_by_years   *)
  exposure_groups : list string;     (* grouped_exposures_agg.keys()          *)
  pnl_groups : list string           (* grouped_pnls_agg.keys()               *)
}.

(** The keyword arguments the function branches on or formats, with their
    defaults ([default_options]). *)
Record options : Type := Options {
  regime_benchmark : option string;
  exposures_freq : option string;
  turnover_rolling_period : Z;
  turnover_title : option string;
  factor_beta_span : Z;
  beta_freq : string;
  factor_beta_title : option string;
  factor_attribution_title : option string;
  add_all_benchmarks_to_nav_figure : bool;
  fontsize : Z;
  add_var_risk_sheet : bool;
  add_grouped_exposures : bool;
  add_grouped_cum_pnl : bool;
  is_1y_exposures : bool
}.

Definition default_options : options := {|
  regime_benchmark := None; exposures_freq := Some "W-WED";
  turnover_rolling_period := 260; turnover_title := None;
  factor_beta_span := 52; beta_freq := "W-WED";
  factor_beta_title := None; factor_attribution_title := None;
  add_all_benchmarks_to_nav_figure := false; fontsize := 4;
  add_var_risk_sheet := true; add_grouped_exposures := false;
  add_grouped_cum_pnl := false; is_1y_exposures := false
|}.

(** A value passed to a call: an expression passed on as written in the
    source, or a string, a flag or an int the function computed. *)
Inductive value : Type :=
| AExpr (source : string)
| AStr (s : string)
| ABool (b : bool)
| AInt (z : Z).

(** An argument of a call: a value, or a dict of keyword arguments. *)
Inductive arg : Type :=
| One (v : value)
| ADict (items : list (string * value)).

(** A subscript of a grid: [gs[lo:hi]] or [gs[i]]. *)
Inductive gs_key : Type :=
| GsSlice (lo hi : option Z)
| GsIndex (i : Z).

Inductive step : Type :=
| Invoke (target : string) (args : list (string * arg))   (* a library call         *)
| Draw (target : string) (args : list (string * arg))     (* a call with [ax=ax]    *)
| Figure                (* fig = plt.figure(figsize=figsize, constrained_layout=True) *)
| Suptitle (text : string)  (* fig.suptitle(text, fontweight="bold", fontsize=8,
                               color='blue')                                     *)
| Gridspec (nrows ncols : Z)  (* gs = fig.add_gridspec(nrows=, ncols=,
                                 wspace=0.0, hspace=0.0)                         *)
| Subplot (rows cols : gs_key)   (* ax = fig.add_subplot(gs[rows, cols])         *)
| StartFigs                      (* figs = [fig]                                 *)
| AppendFig                      (* figs.append(fig)                             *)
| Fail (e : exn).                (* an exception of the function's own indexing  *)

Inductive event : Type :=
| NewFigure (fig : nat)
| SetSuptitle (fig : nat) (text : string)
| NewGridspec (fig : nat) (nrows ncols : Z)
| NewSubplot (fig ax : nat) (row0 row1 col0 col1 : Z)
| LibraryCall (target : string) (ax : option nat) (args : list (string * arg)).

Record state : Type := State {
  log : list event;
  next_id : nat;
  fig : option nat;
  gs : option (Z * Z);
  ax : option nat;
  figs : list nat
}.

Definition initial : state := State [] 0 None None None [].

(** [slice.indices(size)] for a slice without step. *)
Definition slice_bound (b : option Z) (size default : Z) : Z :=
  match b with
  | None => default
  | Some v => if v <? 0 then Z.max (v + size) 0 else Z.min v size
  end.

(** The first and last row (or column) a subscript of a grid selects, as
    matplotlib's GridSpec computes them: an empty slice and an index out of
    range raise IndexError. *)
Definition normalize (key : gs_key) (size : Z) : result (Z * Z) :=
  match key with
  | GsSlice lo hi =>
      let start := slice_bound lo size 0 in
      let stop := slice_bound hi size size in
      if start <? stop then Ok (start, stop - 1) else Raise IndexError
  | GsIndex i =>
      let k := if i <? 0 then i + size else i in
      if (0 <=? k) && (k <? size) then Ok (k, k) else Raise IndexError
  end.

(** [str()] and [repr()] of an int, as an f-string formats it. *)
Definition int_str (z : Z) : string :=
  DecimalString.NilZero.string_of_int (Z.to_int z).

Section Run.
(** Whether a library call raises, given the calls made so far. *)
Variable raises : list event -> string -> list (string * arg) -> option exn.

Definition logged (st : state) (e : event) : state :=
  State (log st ++ [e]) (next_id st) (fig st) (gs st) (ax st) (figs st).

Definition library_call (target : string) (on : option nat)
           (args : list (string * arg)) (st : state) : result unit * state :=
  match raises (log st) target args with
  | Some e => (Raise e, st)
  | None => (Ok tt, logged st (LibraryCall target on args))
  end.

(** One statement. A name read before it is bound is an error of the
    interpreter; the statements of the function bind [fig], [gs] and [ax]
    before they read them. *)
Definition exec (s : step) (st : state) : result unit * state :=
  match s with
  | Invoke target args => library_call target None args st
  | Draw target args =>
      match ax st with
      | Some a => library_call target (Some a) args st
      | None => (Raise AttributeError, st)
      end
  | Figure =>
      (Ok tt, State (log st ++ [NewFigure (next_id st)]) (S (next_id st))
                    (Some (next_id st)) (gs st) (ax st) (figs st))
  | Suptitle text =>
      match fig st with
      | Some f => (Ok tt, logged st (SetSuptitle f text))
      | None => (Raise AttributeError, st)
      end
  | Gridspec nrows ncols =>
      match fig st with
      | Some f =>
          if nrows <=? 0
          then (Raise (ValueError ("Number of rows must be a positive integer, not "
                                    ++ int_str nrows)), st)
          else if ncols <=? 0
          then (Raise (ValueError ("Number of columns must be a positive integer, not "
                                    ++ int_str ncols)), st)
          else (Ok tt, State (log st ++ [NewGridspec f nrows ncols]) (next_id st)
                             (fig st) (Some (nrows, ncols)) (ax st) (figs st))
      | None => (Raise AttributeError, st)
      end
  | Subplot rows cols =>
      match fig st, gs st with
      | Some f, Some (nrows, ncols) =>
          match normalize rows nrows with
          | Raise e => (Raise e, st)
          | Ok (row0, row1) =>
              match normalize cols ncols with
              | Raise e => (Raise e, st)
              | Ok (col0, col1) =>
                  (Ok tt,
                   State (log st ++ [NewSubplot f (next_id st) row0 row1 col0 col1])
                         (S (next_id st)) (fig st) (gs st) (Some (next_id st))
                         (figs st))
              end
          end
      | _, _ => (Raise AttributeError, st)
      end
  | StartFigs =>
      match fig st with
      | Some f => (Ok tt, State (log st) (next_id st) (fig st) (gs st) (ax st) [f])
      | None => (Raise AttributeError, st)
      end
  | AppendFig =>
      match fig st with
      | Some f => (Ok tt, State (log st) (next_id st) (fig st) (gs st) (ax st)
                                (figs st ++ [f]))
      | None => (Raise AttributeError, st)
      end
  | Fail e => (Raise e, st)
  end.

(** The statements in order, up to the first exception. *)
Fixpoint run (steps : list step) (st : state) : result unit * state :=
  match steps with
  | [] => (Ok tt, st)
  | s :: rest =>
      match exec s st with
      | (Ok _, st') => run rest st'
      | (Raise e, st') => (Raise e, st')
      end
  end.
End Run.

(** The library calls that never raise. *)
Definition never : list event -> string -> list (string * arg) -> option exn :=
  fun _ _ _ => None.

(** *** The statements of the function *)

(** [str()] of an optional string, as an f-string formats it. *)
Definition opt_str (o : option string) : string :=
  match o with
  | Some s => s
  | None => "None"
  end.

(** [title or default]: None and the empty string give the default. *)
Definition title_or (title : option string) (default : string) : string :=
  match title with
  | Some t => if String.eqb t "" then default else t
  | None => default
  end.

(** Lines 44-47 *)
Definition is_grouped (i : inputs) : bool :=
  match group_count i with
  | Some n => (n <=? 7)%nat
  | None => false
  end.

(** Lines 41-42: [benchmark_prices.columns[0]] when no regime benchmark is
    given. *)
Definition regime_column (i : inputs) (o : options) : result string :=
  match regime_benchmark o with
  | Some b => Ok b
  | None =>
      match benchmark_columns i with
      | c :: _ => Ok c
      | [] => Raise IndexError
      end
  end.

Definition kw (name source : string) : string * value := (name, AExpr source).

Definition pass (name source : string) : string * arg := (name, One (AExpr source)).

Definition given (name : string) (v : value) : string * arg := (name, One v).

(** [**kwargs]: the keyword arguments passed on, or built in place. *)
Definition spread (source : string) : string * arg := ("**", One (AExpr source)).

Definition spread_dict (items : list (string * value)) : string * arg :=
  ("**", ADict items).

(** [qis.update_kwargs(kwargs, dict(...))] *)
Definition update_kwargs (new_kwargs : list (string * value)) : step :=
  Invoke "qis.update_kwargs" [pass "kwargs" "kwargs"; ("new_kwargs", ADict new_kwargs)].

Definition regime_shadows : step :=
  Draw "qis.add_bnb_regime_shadows"
       [pass "pivot_prices" "pivot_prices"; pass "regime_params" "regime_params"].

Definition set_spines : step :=
  Draw "qis.set_spines" [pass "bottom_spine" "False"; pass "left_spine" "False"].

Definition shifted_period : step :=
  Invoke "qis.get_time_period_shifted_by_years" [pass "time_period" "time_period"].

Definition slice (lo hi : Z) : gs_key := GsSlice (Some lo) (Some hi).
Definition slice_from (lo : Z) : gs_key := GsSlice (Some lo) None.
Definition slice_to (hi : Z) : gs_key := GsSlice None (Some hi).

(** [benchmark_prices[regime_benchmark]] unless all benchmarks are shown
    (lines 63-66 and 158-161). *)
Definition select_benchmark (o : options) (b : string) : list step :=
  if add_all_benchmarks_to_nav_figure o then []
  else [Invoke "benchmark_prices.__getitem__" [given "key" (AStr b)]].

(** Lines 49-155: the first figure and its left column. *)
Definition left_column (i : inputs) (o : options) (b : string) : list step :=
  [Figure;
   Gridspec 14 4;
   update_kwargs [("fontsize", AInt (fontsize o)); kw "linewidth" "0.5";
                  kw "digits_to_show" "1"; kw "sharpe_digits" "2";
                  kw "weight" "'normal'"; kw "markersize" "1";
                  kw "framealpha" "0.75"];
   Suptitle (nav_name i ++ " factsheet");
   Invoke "portfolio_data.get_portfolio_nav" [pass "time_period" "time_period"]]
  ++ select_benchmark o b
  ++ [Invoke "pd.concat" [pass "objs" "[portfolio_nav, benchmark_prices_]"; pass "axis" "1"];
      Invoke "DataFrame.dropna" [];
      Invoke "joint_prices.__getitem__" [given "key" (AStr b)];
      Subplot (slice 0 2) (slice_to 2);
      Draw "qis.plot_prices"
           [pass "prices" "joint_prices"; pass "perf_params" "perf_params";
            pass "title" "'Performance'"; spread "kwargs"];
      regime_shadows; set_spines;
      Subplot (slice 2 4) (slice_to 2);
      Draw "qis.plot_rolling_drawdowns"
           [pass "prices" "joint_prices"; pass "title" "'Running Drawdowns'";
            pass "dd_legend_type" "qis.DdLegendType.DETAILED"; spread "kwargs"];
      regime_shadows; set_spines;
      Subplot (slice 4 6) (slice_to 2);
      Draw "qis.plot_rolling_time_under_water"
           [pass "prices" "joint_prices"; pass "title" "'Running Time under Water'";
            pass "dd_legend_type" "qis.DdLegendType.DETAILED"; spread "kwargs"];
      regime_shadows; set_spines;
      Invoke "portfolio_data.get_weights"
             [given "is_grouped" (ABool (10 <? weight_columns i)%nat);
              pass "time_period" "time_period"; pass "add_total" "False"];
      Subplot (slice 6 8) (slice_to 2)]
  ++ match exposures_freq o with
     | Some f => [Invoke "exposures.resample" [given "rule" (AStr f)];
                  Invoke "Resampler.last" []]
     | None => []
     end
  ++ [update_kwargs [kw "bbox_to_anchor" "(0.5, 1.05)"; kw "ncol" "2"];
      Draw "qis.plot_stack"
           [pass "df" "exposures"; pass "use_bar_plot" "True"; pass "title" "'Exposures'";
            pass "legend_stats" "qis.LegendStats.AVG_NONNAN_LAST";
            pass "var_format" "'{:.1%}'";
            spread_dict [kw "bbox_to_anchor" "(0.5, 1.05)"; kw "ncol" "2"]];
      set_spines;
      Subplot (slice 8 10) (slice_to 2);
      Invoke "portfolio_data.get_turnover"
             [pass "time_period" "time_period";
              given "roll_period" (AInt (turnover_rolling_period o))];
      Invoke "pd.infer_freq" [pass "index" "turnover.index"];
      Draw "qis.plot_time_series"
           [pass "df" "turnover"; pass "var_format" "'{:,.2%}'";
            pass "legend_stats" "qis.LegendStats.AVG_NONNAN_LAST";
            given "title"
             (AStr (title_or (turnover_title o)
                     (int_str (turnover_rolling_period o) ++ "-period rolling "
                      ++ opt_str (turnover_freq i) ++ "-freq Turnover")));
            spread "kwargs"];
      regime_shadows; set_spines;
      Subplot (slice 10 12) (slice_to 2);
      Invoke "portfolio_data.get_costs"
             [pass "time_period" "time_period";
              given "roll_period" (AInt (turnover_rolling_period o))];
      Invoke "pd.infer_freq" [pass "index" "costs.index"];
      Draw "qis.plot_time_series"
           [pass "df" "costs"; pass "var_format" "'{:,.2%}'";
            pass "legend_stats" "qis.LegendStats.AVG_NONNAN_LAST";
            given "title"
             (AStr (int_str (turnover_rolling_period o) ++ "-period rolling "
                   ++ opt_str (costs_freq i) ++ "-freq Costs"));
            spread "kwargs"];
      regime_shadows; set_spines;
      Subplot (slice_from 12) (slice_to 2);
      Invoke "portfolio_data.get_num_investable_instruments"
             [pass "time_period" "time_period"];
      Draw "qis.plot_time_series"
           [pass "df" "num_investable_instruments"; pass "var_format" "'{:,.0f}'";
            pass "legend_stats" "qis.LegendStats.FIRST_AVG_LAST";
            pass "title" "'Number of investable and invested instruments'";
            spread "kwargs"];
      regime_shadows; set_spines].

(** Whether the second performance table regresses on weekly returns
    (line 182). *)
Definition daily_benchmark (i : inputs) : bool :=
  match benchmark_freq i with
  | Some f => String.eqb f "B" || String.eqb f "D"
  | None => false
  end.

(** Lines 162-190: one performance table over two rows of the grid for
    grouped data, two tables of one row each otherwise. *)
Definition perf_tables (i : inputs) (o : options) : list step :=
  if is_grouped i then
    [Subplot (slice_to 2) (slice_from 2);
     update_kwargs [("fontsize", AInt (fontsize o))];
     Draw "portfolio_data.plot_ra_perf_table"
          [pass "benchmark_price" "benchmark_price"; pass "time_period" "time_period";
           pass "perf_params" "perf_params"; given "is_grouped" (ABool true);
           spread_dict [("fontsize", AInt (fontsize o))]]]
  else
    [Subplot (GsIndex 0) (slice_from 2);
     update_kwargs [("fontsize", AInt (fontsize o))];
     Draw "portfolio_data.plot_ra_perf_table"
          [pass "benchmark_price" "benchmark_price"; pass "time_period" "time_period";
           pass "perf_params" "perf_params"; given "is_grouped" (ABool false);
           spread_dict [("fontsize", AInt (fontsize o))]];
     Subplot (GsIndex 1) (slice_from 2);
     shifted_period;
     Invoke "pd.infer_freq" [pass "index" "benchmark_prices.index"];
     update_kwargs
       (if daily_benchmark i
        then [kw "time_period" "time_period1"; kw "alpha_an_factor" "52";
              kw "freq_reg" "'W-WED'"; ("fontsize", AInt (fontsize o))]
        else [kw "time_period" "time_period1"; ("fontsize", AInt (fontsize o))]);
     Draw "portfolio_data.plot_ra_perf_table"
          [pass "benchmark_price" "benchmark_price"; pass "perf_params" "perf_params";
           given "is_grouped" (ABool false); spread "local_kwargs"]].

(** Lines 157-244: the right column of the first figure. *)
Definition right_column (i : inputs) (o : options) (b : string) : list step :=
  select_benchmark o b
  ++ perf_tables i o
  ++ [Subplot (slice 2 4) (slice_from 2);
      update_kwargs [("fontsize", AInt (fontsize o)); kw "date_format" "'%Y'"];
      Draw "portfolio_data.plot_monthly_returns_heatmap"
           [pass "time_period" "time_period"; pass "title" "'Monthly Returns'";
            spread_dict [("fontsize", AInt (fontsize o)); kw "date_format" "'%Y'"]];
      Subplot (slice 4 6) (slice_from 2);
      update_kwargs [("fontsize", AInt (fontsize o)); kw "square" "False";
                     kw "x_rotation" "90"; kw "transpose" "True"];
      Draw "portfolio_data.plot_periodic_returns"
           [pass "benchmark_prices" "benchmark_prices";
            given "is_grouped" (ABool (is_grouped i)); pass "time_period" "time_period";
            spread "local_kwargs"];
      Subplot (slice 6 8) (GsIndex 2);
      Draw "portfolio_data.plot_contributors"
           [pass "time_period" "time_period";
            given "title" (AStr ("Performance Contributors " ++ period_str i));
            spread "kwargs"];
      Subplot (slice 6 8) (GsIndex 3);
      shifted_period;
      Draw "portfolio_data.plot_contributors"
           [pass "time_period" "time_period_1y";
            given "title" (AStr ("Performance Contributors " ++ period_1y_str i));
            spread "kwargs"];
      Subplot (slice 8 10) (slice_from 2);
      Invoke "benchmark_prices.__getitem__" [given "key" (AStr b)];
      Draw "portfolio_data.plot_regime_data"
           [given "is_grouped" (ABool (is_grouped i));
            pass "benchmark_price" "benchmark_prices[regime_benchmark]";
            pass "time_period" "time_period"; pass "perf_params" "perf_params";
            pass "regime_params" "regime_params"; spread "kwargs"];
      update_kwargs [kw "legend_loc" "None"];
      Subplot (slice 10 12) (slice_from 2);
      Draw "portfolio_data.plot_performance_attribution"
           [pass "time_period" "time_period";
            pass "attribution_metric" "qis.AttributionMetric.PNL";
            spread "local_kwargs"];
      Subplot (slice_from 12) (slice_from 2);
      Draw "portfolio_data.plot_performance_attribution"
           [pass "time_period" "time_period";
            pass "attribution_metric" "qis.AttributionMetric.PNL_RISK";
            spread "local_kwargs"];
      StartFigs].

(** A panel of the second figure drawn against one benchmark, present for
    the second benchmark only when there is one (lines 294 and 326). *)
Definition second_benchmark (i : inputs) (panel : list step) : list step :=
  if (1 <? length (benchmark_columns i))%nat then panel else [].

Definition benchmark_at (k : string) : step :=
  Invoke "benchmark_prices.iloc.__getitem__" [pass "key" ("(slice(None), " ++ k ++ ")")].

(** Lines 246-333: the figure of the VaR and risk profile. *)
Definition risk_sheet (i : inputs) (o : options) : list step :=
  if add_var_risk_sheet o then
    [Figure;
     Suptitle (nav_name i ++ " var and risk profile");
     AppendFig;
     Gridspec 14 4;
     Subplot (slice_to 2) (slice_to 2);
     Invoke "portfolio_data.compute_portfolio_benchmark_betas"
            [pass "benchmark_prices" "benchmark_prices"; pass "time_period" "time_period";
             given "beta_freq" (AStr (beta_freq o));
             given "factor_beta_span" (AInt (factor_beta_span o))];
     Draw "qis.plot_time_series"
          [pass "df" "factor_exposures"; pass "var_format" "'{:,.2f}'";
           pass "legend_stats" "qis.LegendStats.AVG_NONNAN_LAST";
           given "title"
             (AStr (title_or (factor_beta_title o)
                    ("Rolling " ++ int_str (factor_beta_span o) ++ "-period beta of "
                     ++ beta_freq o ++ "-freq returns")));
           spread "kwargs"];
     regime_shadows; set_spines;
     Subplot (slice 2 4) (slice_to 2);
     Invoke "portfolio_data.compute_portfolio_benchmark_attribution"
            [pass "benchmark_prices" "benchmark_prices";
             given "beta_freq" (AStr (beta_freq o));
             given "factor_beta_span" (AInt (factor_beta_span o));
             pass "time_period" "time_period"];
     Invoke "factor_attribution.cumsum" [pass "axis" "0"];
     Draw "qis.plot_time_series"
          [pass "df" "factor_attribution.cumsum(0)"; pass "var_format" "'{:,.0%}'";
           pass "legend_stats" "qis.LegendStats.LAST_NONNAN";
           given "title"
             (AStr (title_or (factor_attribution_title o)
                    ("Cumulative return attribution using rolling "
                     ++ int_str (factor_beta_span o) ++ "-period beta of "
                     ++ beta_freq o ++ "-freq returns")));
           spread "kwargs"];
     regime_shadows; set_spines;
     Subplot (slice 0 2) (slice_from 2);
     benchmark_at "0";
     Draw "portfolio_data.plot_returns_scatter"
          [pass "benchmark_price" "benchmark_prices.iloc[:, 0]";
           pass "time_period" "time_period"; pass "freq" "regime_params.freq";
           spread "kwargs"]]
    ++ second_benchmark i
         [Subplot (slice 2 4) (slice_from 2);
          benchmark_at "1";
          Draw "portfolio_data.plot_returns_scatter"
               [pass "benchmark_price" "benchmark_prices.iloc[:, 1]";
                pass "time_period" "time_period"; pass "freq" "regime_params.freq";
                spread "kwargs"]]
    ++ [Subplot (slice 4 6) (slice_to 2);
        Draw "portfolio_data.plot_portfolio_grouped_var"
             [pass "is_correlated" "True"; pass "time_period" "time_period";
              spread "kwargs"];
        regime_shadows; set_spines;
        Subplot (slice 4 6) (slice_from 2);
        Draw "portfolio_data.plot_portfolio_grouped_var"
             [pass "is_correlated" "False"; pass "time_period" "time_period";
              spread "kwargs"];
        regime_shadows; set_spines;
        Subplot (slice 6 8) (slice_to 2);
        benchmark_at "0";
        Draw "portfolio_data.plot_vol_regimes"
             [pass "benchmark_price" "benchmark_prices.iloc[:, 0]";
              pass "time_period" "time_period"; pass "freq" "regime_params.freq";
              pass "regime_params" "regime_params"; spread "kwargs"]]
    ++ second_benchmark i
         [Subplot (slice 6 8) (slice_from 2);
          benchmark_at "1";
          Draw "portfolio_data.plot_vol_regimes"
               [pass "benchmark_price" "benchmark_prices.iloc[:, 1]";
                pass "time_period" "time_period"; pass "freq" "regime_params.freq";
                pass "regime_params" "regime_params"; spread "kwargs"]]
  else [].

(** Lines 336-339 and 364-367: the period of the grouped figures. *)
Definition grouped_period (o : options) : list step :=
  if is_1y_exposures o then [shifted_period] else [].

Definition grouped_period_str (i : inputs) (o : options) : string :=
  if is_1y_exposures o then period_1y_str i else period_str i.

(** Lines 348-361: the two panels of one group of exposures, in row
    [idx] of the grid. *)
Definition exposure_row (idx : nat) (group : string) : list step :=
  [Invoke "grouped_exposures_agg.__getitem__" [given "key" (AStr group)];
   Invoke "grouped_exposures_by_inst.__getitem__" [given "key" (AStr group)]]
  ++ flat_map
       (fun panel : nat * string =>
          [Subplot (GsIndex (Z.of_nat idx)) (GsIndex (Z.of_nat (fst panel)));
           Draw "qis.plot_time_series"
                [pass "df" "df"; pass "var_format" "'{:,.0%}'";
                 pass "legend_stats" "qis.LegendStats.AVG_MIN_MAX_LAST";
                 given "title" (AStr (snd panel)); spread "local_kwargs"];
           regime_shadows; set_spines;
           Draw "ax.axhline" [pass "y" "0"; pass "color" "'black'"; pass "linewidth" "0.5"]])
       [(0%nat, group ++ " aggregated"); (1%nat, group ++ " by instrument")].

(** Lines 376-389: the two panels of one group of P&L. *)
Definition pnl_row (idx : nat) (group : string) : list step :=
  [Invoke "grouped_pnls_agg.__getitem__" [given "key" (AStr group)];
   Invoke "grouped_pnls_by_inst.__getitem__" [given "key" (AStr group)]]
  ++ flat_map
       (fun panel : nat * string =>
          [Subplot (GsIndex (Z.of_nat idx)) (GsIndex (Z.of_nat (fst panel)));
           Draw "qis.plot_time_series"
                [pass "df" "df"; pass "var_format" "'{:,.0%}'";
                 pass "legend_stats" "qis.LegendStats.LAST_NONNAN";
                 given "title" (AStr (snd panel)); spread "local_kwargs"];
           Invoke "time_period1.locate" [pass "pivot_prices" "pivot_prices"];
           Invoke "BenchmarkReturnsQuantileRegimeSpecs" [pass "freq" "'ME'"];
           Draw "qis.add_bnb_regime_shadows"
                [pass "pivot_prices" "time_period1.locate(pivot_prices)";
                 pass "regime_params" "BenchmarkReturnsQuantileRegimeSpecs(freq='ME')"];
           set_spines])
       [(0%nat, group ++ " aggregated"); (1%nat, group ++ " by instrument")].

(** [for idx, group in enumerate(groups)] *)
Fixpoint enumerate_from (idx : nat) (row : nat -> string -> list step)
         (groups : list string) : list step :=
  match groups with
  | [] => []
  | group :: rest => row idx group ++ enumerate_from (S idx) row rest
  end.

(** Lines 335-361 and 363-389: a figure with one row of two panels per
    group. The source names this figure [fig1]; [fig] is not read after
    line 331, so the one register [fig] of the state holds both. *)
Definition grouped_sheet (i : inputs) (o : options) (enabled : bool)
           (getter title : string) (groups : list string)
           (row : nat -> string -> list step) : list step :=
  if enabled then
    grouped_period o
    ++ [Invoke getter [pass "time_period" "time_period1"];
        Figure;
        AppendFig;
        Suptitle (nav_name i ++ title ++ grouped_period_str i o);
        Gridspec (Z.of_nat (length groups)) 2;
        update_kwargs [kw "framealpha" "0.9"]]
    ++ enumerate_from 0 row groups
  else [].

(** Lines 335-361 *)
Definition exposures_sheet (i : inputs) (o : options) : list step :=
  grouped_sheet i o (add_grouped_exposures o)
    "portfolio_data.get_grouped_long_short_exposures"
    " Exposures by groups for period " (exposure_groups i) exposure_row.

(** Lines 363-389 *)
Definition pnl_sheet (i : inputs) (o : options) : list step :=
  grouped_sheet i o (add_grouped_cum_pnl o)
    "portfolio_data.get_grouped_cum_pnls"
    " P&L by groups for period " (pnl_groups i) pnl_row.

(** Line 40 *)
Definition reindex : step :=
  Invoke "benchmark_prices.reindex"
         [pass "index" "portfolio_data.nav.index"; pass "method" "'ffill'"].

Definition statements (i : inputs) (o : options) : list step :=
  reindex
  :: match regime_column i o with
     | Raise e => [Fail e]
     | Ok b =>
         left_column i o b ++ right_column i o b ++ risk_sheet i o
         ++ exposures_sheet i o ++ pnl_sheet i o
     end.

(** The function: its statements, and [return figs] (line 391). *)
Definition generate_strategy_factsheet
           (raises : list event -> string -> list (string * arg) -> option exn)
           (i : inputs) (o : options) (st : state) : result (list nat) * state :=
  match run raises (statements i o) st with
  | (Ok _, st') => (Ok (figs st'), st')
  | (Raise e, st') => (Raise e, st')
  end.

(** *** Observations on the log *)

(** The figures created, in order. *)
Definition figures (lg : list event) : list nat :=
  flat_map (fun e => match e with NewFigure f => [f] | _ => [] end) lg.

(** The cells of the subplots added to one figure, in order: first and
    last row, first and last column. *)
Definition subplots (f : nat) (lg : list event) : list (Z * Z * (Z * Z)) :=
  flat_map (fun e => match e with
                     | NewSubplot f' _ row0 row1 col0 col1 =>
                         if (f' =? f)%nat then [((row0, row1), (col0, col1))] else []
                     | _ => []
                     end) lg.

(** The grids given to one figure, in order, and the last of them. *)
Definition grids (f : nat) (lg : list event) : list (Z * Z) :=
  flat_map (fun e => match e with
                     | NewGridspec f' nrows ncols =>
                         if (f' =? f)%nat then [(nrows, ncols)] else []
                     | _ => []
                     end) lg.

Definition grid (f : nat) (lg : list event) : option (Z * Z) := last (grids f lg).

Definition covers (cell : Z * Z * (Z * Z)) (r c : Z) : bool :=
  (fst (fst cell) <=? r) && (r <=? snd (fst cell))
  && (fst (snd cell) <=? c) && (c <=? snd (snd cell)).

(** How many of the cells contain position (r, c). *)
Definition coverage (cells : list (Z * Z * (Z * Z))) (r c : Z) : nat :=
  length (List.filter (fun cell => covers cell r c) cells).

(** The subplots partition a grid of [nrows] by [ncols]: every position of
    the grid is in exactly one of them. *)
Definition tiles (nrows ncols : Z) (cells : list (Z * Z * (Z * Z))) : Prop :=
  forall r c, 0 <= r < nrows -> 0 <= c < ncols -> coverage cells r c = 1%nat.

(** No position is in two subplots. *)
Definition disjoint_cells (cells : list (Z * Z * (Z * Z))) : Prop :=
  forall r c, (coverage cells r c <= 1)%nat.

(** The positions of a grid of [nrows] by [ncols], row by row. *)
Definition upto (n : Z) : list Z := map Z.of_nat (seq 0 (Z.to_nat n)).

Definition tiles_check (nrows ncols : Z) (cells : list (Z * Z * (Z * Z))) : bool :=
  forallb (fun r => forallb (fun c => (coverage cells r c =? 1)%nat) (upto ncols))
          (upto nrows).

(** No grid or subplot is added before the first figure of these
    statements is created. *)
Fixpoint fresh_start (steps : list step) : bool :=
  match steps with
  | [] => true
  | Figure :: _ => true
  | Subplot _ _ :: _ => false
  | Gridspec _ _ :: _ => false
  | _ :: rest => fresh_start rest
  end.

(** A statement that neither creates a figure nor adds a grid or a subplot
    to one. *)
Definition numbers_nothing (s : step) : Prop :=
  match s with
  | Figure | Subplot _ _ | Gridspec _ _ => False
  | _ => True
  end.

(** The figures, grids and subplots among these events are those of
    figures numbered from [bound]. *)
Definition from_figure (bound : nat) (e : event) : Prop :=
  match e with
  | NewSubplot f _ _ _ _ _ => (bound <= f)%nat
  | NewGridspec f _ _ => (bound <= f)%nat
  | NewFigure f => (bound <= f)%nat
  | _ => True
  end.

(** Where the statements stand with respect to the list [figs]: before
    the first figure, in the first figure (before [figs = [fig]]), with
    [figs] holding every figure created, or with the last figure created
    not yet appended. *)
Inductive phase : Type := Before | First | Listed | Pending.

Definition advance (p : phase) (s : step) : option phase :=
  match s, p with
  | Figure, Before => Some First
  | Figure, Listed => Some Pending
  | Figure, _ => None
  | StartFigs, First => Some Listed
  | StartFigs, _ => None
  | AppendFig, Pending => Some Listed
  | AppendFig, _ => None
  | _, _ => Some p
  end.

Fixpoint advance_all (p : phase) (steps : list step) : option phase :=
  match steps with
  | [] => Some p
  | s :: rest =>
      match advance p s with
      | Some q => advance_all q rest
      | None => None
      end
  end.

(** [figs] against the figures created so far, in each phase. *)
Definition in_phase (p : phase) (created : list nat) (st : state) : Prop :=
  match p with
  | Before => created = []
  | First => exists f, created = [f] /\ fig st = Some f
  | Listed => figs st = created
  | Pending => exists f, created = (figs st ++ [f])%list /\ fig st = Some f
  end.

Definition count_figures (steps : list step) : nat :=
  length (List.filter (fun s => match s with Figure => true | _ => false end) steps).

(** Statements that leave [fig] and [figs] alone. *)
Definition keeps_figures (s : step) : bool :=
  match s with
  | Figure | StartFigs | AppendFig => false
  | _ => true
  end.

Definition b2n (b : bool) : nat := if b then 1 else 0.

(** The figures, grids and subplots among these events are those of
    figure [n]. *)
Definition of_figure (n : nat) (e : event) : Prop :=
  match e with
  | NewSubplot f _ _ _ _ _ => f = n
  | NewGridspec f _ _ => f = n
  | NewFigure f => f = n
  | _ => True
  end.

(** A cell inside a grid of [nrows] by [ncols]. *)
Definition within (nrows ncols : Z) (cell : Z * Z * (Z * Z)) : bool :=
  (0 <=? fst (fst cell)) && (snd (fst cell) <? nrows)
  && (0 <=? fst (snd cell)) && (snd (snd cell) <? ncols).

Definition disjoint_check (nrows ncols : Z) (cells : list (Z * Z * (Z * Z))) : bool :=
  forallb (within nrows ncols) cells
  && forallb (fun r => forallb (fun c => (coverage cells r c <=? 1)%nat) (upto ncols))
             (upto nrows).

(** One row of two cells per group: the cells [gs[idx, 0]] and
    [gs[idx, 1]] for [idx] from [start], in that order. *)
Definition row_cells (start count : nat) : list (Z * Z * (Z * Z)) :=
  flat_map (fun r => [((r, r), (0, 0)); ((r, r), (1, 1))])
           (map Z.of_nat (seq start count)).

(** The events of one figure: it is created, given one grid of [nrows] by
    [ncols], and given the subplots [cells]. *)
Definition sheet (n : nat) (nrows ncols : Z) (cells : list (Z * Z * (Z * Z)))
           (new : list event) : Prop :=
  figures new = [n] /\ grids n new = [(nrows, ncols)] /\ subplots n new = cells
  /\ Forall (of_figure n) new.

(** The events of a figure that an option switches on. *)
Definition part (enabled : bool) (n : nat) (nrows ncols : Z)
           (cells : list (Z * Z * (Z * Z))) (new : list event) : Prop :=
  if enabled then sheet n nrows ncols cells new else new = [].

(** The exceptions of the statements themselves. *)
Definition no_benchmark (i : inputs) (o : options) (e : exn) : Prop :=
  e = IndexError /\ regime_benchmark o = None /\ benchmark_columns i = [].

Definition no_group (i : inputs) (o : options) (e : exn) : Prop :=
  e = ValueError "Number of rows must be a positive integer, not 0"
  /\ (add_grouped_exposures o = true /\ exposure_groups i = []
      \/ add_grouped_cum_pnl o = true /\ pnl_groups i = []).

(** The cells cover the positions of a grid as [expected] says, and
    stay inside it. *)
Definition coverage_check (nrows ncols : Z) (cells : list (Z * Z * (Z * Z)))
           (expected : Z -> Z -> nat) : bool :=
  forallb (within nrows ncols) cells
  && forallb (fun r => forallb (fun c => (coverage cells r c =? expected r c)%nat)
                               (upto ncols))
             (upto nrows).

(** The positions of a grid of 14 by 4 that the figure of the VaR and
    risk profile fills: its first eight rows, without the right half of
    rows 2-3 and 6-7 when there is no second benchmark. *)
Definition risk_expected (two : bool) (r c : Z) : nat :=
  if (r <? 8) && (two || (c <? 2) || (r <? 2) || ((4 <=? r) && (r <? 6)))
  then 1 else 0.

Definition risk_layout (i : inputs) (cells : list (Z * Z * (Z * Z))) : Prop :=
  forall r c,
    coverage cells r c
    = if (0 <=? r) && (r <? 14) && (0 <=? c) && (c <? 4)
      then risk_expected (1 <? length (benchmark_columns i))%nat r c
      else 0%nat.

(** What the function has done when it returns: after the call of line 40,
    the events of the factsheet, of the figure of the VaR and risk
    profile, of the exposures by group and of the P&L by group, each figure
    with its own number, grid and subplots. *)
Definition layout (i : inputs) (o : options) (n0 : nat) (new : list event) : Prop :=
  exists target args page risk exps pnls n1 n2 n3 cells0 cells1,
    new = (LibraryCall target None args :: page ++ risk ++ exps ++ pnls)%list
    /\ ((n0 < n1)%nat /\ (n1 <= n2)%nat /\ (n2 <= n3)%nat
        /\ (add_var_risk_sheet o = true -> (n1 < n2)%nat)
        /\ (add_grouped_exposures o = true -> (n2 < n3)%nat))
    /\ sheet n0 14 4 cells0 page /\ tiles 14 4 cells0 /\ disjoint_cells cells0
    /\ part (add_var_risk_sheet o) n1 14 4 cells1 risk /\ disjoint_cells cells1
    /\ (add_var_risk_sheet o = true -> risk_layout i cells1)
    /\ part (add_grouped_exposures o) n2 (Z.of_nat (length (exposure_groups i))) 2
            (row_cells 0 (length (exposure_groups i))) exps
    /\ part (add_grouped_cum_pnl o) n3 (Z.of_nat (length (pnl_groups i))) 2
            (row_cells 0 (length (pnl_groups i))) pnls.

(** *** Sample calls *)

(** A strategy with three groups, twelve instruments, two benchmarks and
    two groups of exposures and of P&L. *)
Definition sample_inputs : inputs := {|
  nav_name := "Strategy"; group_count := Some 3%nat; weight_columns := 12%nat;
  benchmark_columns := ["SPY"; "TLT"]; benchmark_freq := Some "B";
  turnover_freq := Some "B"; costs_freq := Some "B";
  period_str := "31Dec2019:29Dec2023"; period_1y_str := "30Dec2022:29Dec2023";
  exposure_groups := ["Equities"; "Bonds"]; pnl_groups := ["Equities"; "Bonds"]
|}.

(** The same strategy against benchmark prices without a column. *)
Definition no_benchmark_inputs : inputs := {|
  nav_name := "Strategy"; group_count := Some 3%nat; weight_columns := 12%nat;
  benchmark_columns := []; benchmark_freq := None;
  turnover_freq := Some "B"; costs_freq := Some "B";
  period_str := "31Dec2019:29Dec2023"; period_1y_str := "30Dec2022:29Dec2023";
  exposure_groups := ["Equities"; "Bonds"]; pnl_groups := ["Equities"; "Bonds"]
|}.

(** The defaults, with the two figures by group switched on. *)
Definition all_figures : options := {|
  regime_benchmark := None; exposures_freq := Some "W-WED";
  turnover_rolling_period := 260; turnover_title := None;
  factor_beta_span := 52; beta_freq := "W-WED";
  factor_beta_title := None; factor_attribution_title := None;
  add_all_benchmarks_to_nav_figure := false; fontsize := 4;
  add_var_risk_sheet := true; add_grouped_exposures := true;
  add_grouped_cum_pnl := true; is_1y_exposures := false
|}.

End Factsheet.

(** * Theorems *)

(** ** calc_ci *)

Section CalcCiFacts.
Context {F : Type} {num : Float64 F}.
Variable t_ppf : F -> Z -> F.

Lemma broadcast2_same_length (op : F -> F -> F) (a b : list F) :
  length a = length b -> broadcast2 op a b = Ok (zip_with op a b).
Proof.
  intros Hlen. unfold broadcast2.
  rewrite Hlen, Nat.eqb_refl. reflexivity.
Qed.

Lemma squared_residuals_zip (y y_model : list F) :
  map f_sq (zip_with f_sub y y_model) = sum_sq_residuals y y_model.
Proof.
  revert y_model. induction y as [|yi y IH]; intros [|mi m]; simpl; try reflexivity.
  now rewrite IH.
Qed.

Lemma int_truediv_nonzero (a b : Z) :
  b <> 0 -> int_truediv a b = Ok (f_div (f_of_int a) (f_of_int b)).
Proof.
  intros Hb. unfold int_truediv.
  destruct (b =? 0) eqn:E; [apply Z.eqb_eq in E; contradiction | reflexivity].
Qed.

Lemma lookup_map_Some {A B : Type} (f : A -> B) (l : list A) (i : nat) (b : B) :
  map f l !! i = Some b -> exists a, l !! i = Some a /\ b = f a.
Proof.
  revert i. induction l as [|a l IH]; intros [|i]; simpl; try discriminate.
  - intros [= <-]. eauto.
  - apply IH.
Qed.

Lemma lookup_map_at {A B : Type} (f : A -> B) (l : list A) (i : nat) (a : A) :
  l !! i = Some a -> map f l !! i = Some (f a).
Proof.
  revert i. induction l as [|a' l IH]; intros [|i]; simpl; try discriminate.
  - now intros [= ->].
  - apply IH.
Qed.

Lemma lookup_zip_with_Some {A B C : Type} (f : A -> B -> C) (l : list A)
      (k : list B) (i : nat) (c : C) :
  zip_with f l k !! i = Some c ->
  exists a b, l !! i = Some a /\ k !! i = Some b /\ c = f a b.
Proof.
  revert k i. induction l as [|a l IH]; intros [|b k] [|i]; simpl; try discriminate.
  - intros [= <-]. eauto.
  - apply IH.
Qed.

(** On arrays of one common, non-zero length calc_ci returns, element by
    element, the half-width of the specification. *)
Lemma calc_ci_common_length (x y y_model : list F) :
  x <> [] -> length y = length x -> length y_model = length x ->
  calc_ci t_ppf x y y_model = Ok (map (spec_half_width t_ppf x y y_model) x).
Proof.
  intros Hx Hy Hm. unfold calc_ci.
  rewrite broadcast2_same_length by congruence. cbn [rbind].
  rewrite int_truediv_nonzero.
  2:{ destruct x; [contradiction | cbn [length]; lia]. }
  cbn [rbind]. rewrite map_map, squared_residuals_zip.
  reflexivity.
Qed.

(** C1. For non-empty arrays x, y, y_model of one length n, calc_ci
    returns an array of length n whose i-th element is
    [t * s_err * sqrt(1/n + (x_i - mean x)^2 / sum_j (x_j - mean x)^2)]
    with [t] the 0.95 quantile at [dof = n - 2] and
    [s_err = sqrt(sum_i (y_i - y_model_i)^2 / dof)]. [y_model] is any
    array: calc_ci is not told the order of the fit that produced it, so
    the degrees of freedom are [n - 2] for every order. *)
Theorem calc_ci_half_width (x y y_model : list F) :
  x <> [] -> length y = length x -> length y_model = length x ->
  exists ci,
    calc_ci t_ppf x y y_model = Ok ci
    /\ length ci = length x
    /\ forall i xi,
         x !! i = Some xi ->
         ci !! i = Some (spec_half_width t_ppf x y y_model xi).
Proof.
  intros Hx Hy Hm.
  exists (map (spec_half_width t_ppf x y y_model) x).
  split; [now apply calc_ci_common_length|].
  split; [apply length_map|].
  intros i xi Hi. now apply lookup_map_at.
Qed.
End CalcCiFacts.

(** ** The confidence band *)

(** In binary64 a product with NaN is NaN. *)
Lemma float_mul_nan (a : float) : PrimFloat.mul a nan = nan.
Proof.
  rewrite <- (SF2Prim_Prim2SF (PrimFloat.mul a nan)).
  rewrite FloatAxioms.mul_spec.
  change (Prim2SF nan) with S754_nan.
  destruct (Prim2SF a); reflexivity.
Qed.


(** The two edges are rounded separately: in binary64 the distances from
    the prediction to the edges can differ, here for a prediction of 1 and
    a half-width of about 1e-16. *)
Remark band_edges_round_separately :
  ci_upper [1%float] [0x1.cd2b297d889bcp-54%float] = Ok [1%float]
  /\ ci_lower [1%float] [0x1.cd2b297d889bcp-54%float]
     = Ok [0x1.fffffffffffffp-1%float]
  /\ f_eq (f_sub 1%float 1%float)
          (f_sub 1%float 0x1.fffffffffffffp-1%float) = false.
Proof. repeat split; vm_compute; reflexivity. Qed.

Lemma Rleb_true (a b : R) : (a <= b)%R -> Rleb a b = true.
Proof. intros Hab. unfold Rleb. destruct (Rle_dec a b); [reflexivity | contradiction]. Qed.

Lemma Reqb_true (a b : R) : a = b -> Reqb a b = true.
Proof. intros Hab. unfold Reqb. destruct (Req_dec_T a b); [reflexivity | contradiction]. Qed.


(** ** The state-and-error monad *)

Section Monad.
Context {F : Type} {num : Float64 F}.

Lemma bind_Ok_inv {A B : Type} (m : py F A) (k : A -> py F B) (st st2 : state F) (b : B) :
  bind m k st = (Ok b, st2) ->
  exists a st1, m st = (Ok a, st1) /\ k a st1 = (Ok b, st2).
Proof.
  unfold bind. destruct (m st) as [[a|e] st1]; intros Hk.
  - exists a, st1. split; [reflexivity | exact Hk].
  - discriminate.
Qed.

Lemma lift_Ok_inv {A : Type} (r : result A) (st st' : state F) (a : A) :
  lift r st = (Ok a, st') -> r = Ok a /\ st' = st.
Proof. unfold lift. intros [= -> ->]. split; reflexivity. Qed.

Lemma get_frame_Ok_inv (l : positive) (st st' : state F) (d : frame F) :
  get_frame l st = (Ok d, st') -> heap st !! l = Some d /\ st' = st.
Proof.
  unfold get_frame. destruct (heap st !! l); intros [= <- <-]; split; reflexivity.
Qed.

Lemma bind_run {A B : Type} (m : py F A) (k : A -> py F B) (st st1 : state F) (a : A) :
  m st = (Ok a, st1) -> bind m k st = k a st1.
Proof. unfold bind. intros ->. reflexivity. Qed.

Lemma bind_raise {A B : Type} (m : py F A) (k : A -> py F B) (st st1 : state F) (e : exn) :
  m st = (Raise e, st1) -> bind m k st = (Raise e, st1).
Proof. unfold bind. intros ->. reflexivity. Qed.

End Monad.

(** Every function of the model, run from any state, only appends allowed
    calls to the log and keeps every DataFrame it did not create
    ([ok_at]); the lemmas follow the structure of the code. *)
Section Walk.
Context {F : Type} {num : Float64 F} {M : Type} {lib : Delegates F M}.
Variable a : scatter_args F.
Variable l0 : positive.
Variable d0 : frame F.

Lemma ok_silent {A : Type} (m : py F A) (st : state F) :
  snd (m st) = st -> ok_at a l0 d0 m st.
Proof.
  intros Hst. unfold ok_at. rewrite Hst. split; [|tauto].
  exists []. split; [now rewrite app_nil_r | constructor].
Qed.

Lemma ok_ret {A : Type} (x : A) (st : state F) : ok_at a l0 d0 (ret x) st.
Proof. now apply ok_silent. Qed.

Lemma ok_lift {A : Type} (r : result A) (st : state F) : ok_at a l0 d0 (lift r) st.
Proof. now apply ok_silent. Qed.

Lemma ok_raise {A : Type} (e : exn) (st : state F) : ok_at a l0 d0 (raise (A:=A) e) st.
Proof. now apply ok_silent. Qed.

Lemma ok_get_frame (l : positive) (st : state F) : ok_at a l0 d0 (get_frame l) st.
Proof. apply ok_silent. unfold get_frame. now destruct (heap st !! l). Qed.

Lemma ok_get_log (st : state F) : ok_at a l0 d0 get_log st.
Proof. now apply ok_silent. Qed.

Lemma ok_emit (c : call F) (st : state F) : allowed a c -> ok_at a l0 d0 (emit c) st.
Proof.
  intros Hc. split; [|tauto].
  exists [c]. split; [reflexivity | now constructor].
Qed.

Lemma ok_subplots (st : state F) : ok_at a l0 d0 plt_subplots st.
Proof.
  split; [|tauto].
  eexists [_]. split; [reflexivity|]. constructor; [|constructor].
  split; [intros Hc; discriminate Hc | exact I].
Qed.

Lemma fresh_not_good (st : state F) : good l0 d0 st -> fresh (dom (heap st)) <> l0.
Proof.
  intros Hgood Heq.
  pose proof (is_fresh (dom (heap st))) as Hfresh.
  apply Hfresh. rewrite Heq. apply elem_of_dom. now exists d0.
Qed.

Lemma ok_new_frame (d : frame F) (st : state F) : ok_at a l0 d0 (new_frame d) st.
Proof.
  split.
  - exists []. split; [now rewrite app_nil_r | constructor].
  - intros Hgood. unfold good. cbn. rewrite lookup_insert_ne; [exact Hgood|].
    now apply fresh_not_good.
Qed.

Lemma ok_put_frame (l : positive) (d : frame F) (st : state F) :
  l <> l0 -> ok_at a l0 d0 (put_frame l d) st.
Proof.
  intros Hl. split.
  - exists []. split; [now rewrite app_nil_r | constructor].
  - intros Hgood. unfold good. cbn. rewrite lookup_insert_ne; [exact Hgood | exact Hl].
Qed.

Lemma ok_bind {A B : Type} (m : py F A) (k : A -> py F B) (st : state F) :
  ok_at a l0 d0 m st ->
  (forall x st1, m st = (Ok x, st1) -> ok_at a l0 d0 (k x) st1) ->
  ok_at a l0 d0 (bind m k) st.
Proof.
  intros [(new1 & Hlog1 & Hall1) Hg1] Hk.
  unfold ok_at, bind. destruct (m st) as [[x|e] st1] eqn:Hrun; cbn in *.
  - destruct (Hk x st1 eq_refl) as [(new2 & Hlog2 & Hall2) Hg2].
    split; [|tauto]. exists (new1 ++ new2)%list.
    split; [rewrite Hlog2, Hlog1; now rewrite app_assoc | now apply Forall_app].
  - split; [|tauto]. now exists new1.
Qed.

Lemma ok_when (b : bool) (m : py F unit) (st : state F) :
  (b = true -> ok_at a l0 d0 m st) -> ok_at a l0 d0 (when b m) st.
Proof. destruct b; intros Hm; [now apply Hm | apply ok_ret]. Qed.

Lemma ok_plot_group_curve (ax : nat) (x y : string) (data_hue : frame F)
      (xs : list (cell F)) (x1 : list (list F)) (reg_model : M) (color : string)
      (st : state F) :
  ok_at a l0 d0 (plot_group_curve a ax x y data_hue xs x1 reg_model color) st.
Proof.
  unfold plot_group_curve.
  destruct (0 <? order a) eqn:Horder; [|apply ok_ret].
  destruct (is_some (ci a)).
  - apply ok_emit. split; [intros _; exact Horder | reflexivity].
  - apply ok_bind; [apply ok_lift | intros prediction st1 _].
    apply ok_emit. split; [intros _; exact Horder | exact I].
Qed.

Ltac walk :=
  repeat first
    [ apply ok_ret | apply ok_lift | apply ok_raise | apply ok_get_frame
    | apply ok_plot_group_curve
    | apply ok_get_log | apply ok_new_frame | apply ok_subplots
    | apply ok_put_frame; assumption
    | apply ok_emit; split;
      [ intros Hcurve; first [discriminate Hcurve | assumption]
      | first [exact I | reflexivity] ]
    | apply ok_when; intros ?
    | apply ok_bind; [ | intros ? ? _ ]
    | match goal with
      | |- ok_at _ _ _ (match ?x with _ => _ end) _ => destruct x eqn:?
      end ].

Lemma ok_copy_dropna (df : positive) (st : state F) : ok_at a l0 d0 (copy_dropna df) st.
Proof. unfold copy_dropna. walk. Qed.

Lemma ok_resolve_columns (df : positive) (st : state F) :
  ok_at a l0 d0 (resolve_columns a df) st.
Proof. unfold resolve_columns. walk. Qed.

Lemma ok_make_axes (ax : option nat) (st : state F) : ok_at a l0 d0 (make_axes ax) st.
Proof. unfold make_axes. walk. Qed.

Lemma ok_plot_hue_groups (ax : nat) (df : positive) (x y hue : string)
      (palette : list string) (hue_ids : list (cell F)) :
  forall (idx : nat) (models : list (cell F * M)) (st : state F),
    ok_at a l0 d0 (plot_hue_groups a ax df x y hue palette idx hue_ids models) st.
Proof.
  induction hue_ids as [|hue_id rest IH]; intros idx models st; cbn [plot_hue_groups].
  - apply ok_ret.
  - walk. apply IH.
Qed.

Lemma ok_plot_layers (ax : nat) (df : positive) (x y : string)
      (hue : option string) (st : state F) :
  ok_at a l0 d0 (plot_layers a ax df x y hue) st.
Proof. unfold plot_layers. walk. all: apply ok_plot_hue_groups. Qed.

Lemma ok_universe_model (ax : nat) (df : positive) (x y : string) (st : state F) :
  ok_at a l0 d0 (universe_model a ax df x y) st.
Proof. unfold universe_model. walk. Qed.

Lemma ok_hue_legend (df : positive) (hue : string) (label_models : bool)
      (models : list (cell F * M)) (pairs : list (string * cell F)) :
  df <> l0 ->
  forall (labels : list (cell F)) (colors : list string) (st : state F),
    ok_at a l0 d0 (hue_legend a df hue label_models models pairs labels colors) st.
Proof.
  intros Hdf. induction pairs as [|[color hue_id] rest IH]; intros labels colors st;
    cbn [hue_legend].
  - apply ok_ret.
  - walk. all: apply IH.
Qed.

Lemma ok_legend_entries (df : positive) (hue : option string) (label_models : bool)
      (models : list (cell F * M)) (colors : option (list string))
      (labels : list (cell F)) (legend_colors : list string) (st : state F) :
  df <> l0 ->
  ok_at a l0 d0 (legend_entries a df hue label_models models colors labels legend_colors) st.
Proof. intros Hdf. unfold legend_entries. walk. now apply ok_hue_legend. Qed.

Lemma ok_annotate_points (ax : nat) (fontsize : Z)
      (points : list (string * (cell F * (cell F * cell F)))) :
  forall st : state F, ok_at a l0 d0 (annotate_points ax fontsize points) st.
Proof.
  induction points as [|[label [x [y color]]] rest IH]; intros st;
    cbn [annotate_points].
  - apply ok_ret.
  - walk. apply IH.
Qed.

Lemma ok_annotate (ax : nat) (df : positive) (x y : string) (st : state F) :
  ok_at a l0 d0 (annotate a ax df x y) st.
Proof. unfold annotate. walk. all: apply ok_annotate_points. Qed.

Lemma ok_line_45 (ax : nat) (st : state F) : ok_at a l0 d0 (line_45 ax) st.
Proof. unfold line_45. walk. Qed.

Lemma ok_decorate (ax : nat) (df : positive) (x y : string)
      (labels : list (cell F)) (colors : list string) (st : state F) :
  ok_at a l0 d0 (decorate a ax df x y labels colors) st.
Proof. unfold decorate. walk. Qed.

Lemma ok_render (ax : nat) (df : positive) (x y : string) (hue : option string)
      (st : state F) :
  df <> l0 -> ok_at a l0 d0 (render a ax df x y hue) st.
Proof.
  intros Hdf. unfold render.
  apply ok_bind; [apply ok_plot_layers | intros layers st1 _].
  apply ok_bind; [apply ok_universe_model | intros universe st2 _].
  apply ok_bind; [now apply ok_legend_entries | intros legend st3 _].
  apply ok_bind; [apply ok_annotate | intros [] st4 _].
  apply ok_bind; [apply ok_when; intros _; apply ok_line_45 | intros [] st5 _].
  apply ok_decorate.
Qed.

End Walk.

(** ** plot_scatter: entry, column resolution, figure, frame *)

Tactic Notation "inv_bind" hyp(H) "as" simple_intropattern(x) ident(st) ident(Hx) :=
  apply bind_Ok_inv in H as (x & st & Hx & H).

Section PlotScatterFacts.
Context {F : Type} {num : Float64 F} {M : Type} {lib : Delegates F M}.

Lemma fresh_not_bound (h : gmap positive (frame F)) (l : positive) (d : frame F) :
  h !! l = Some d -> fresh (dom h) <> l.
Proof.
  intros Hl Heq. apply (is_fresh (dom h)). rewrite Heq.
  apply elem_of_dom. now exists d.
Qed.

Lemma copy_dropna_Ok_inv (df l : positive) (st st1 : state F) :
  copy_dropna df st = (Ok l, st1) ->
  exists d, heap st !! df = Some d /\ heap st1 !! l = Some (dropna d)
            /\ log st1 = log st /\ next_id st1 = next_id st
            /\ (forall l0 d0, heap st !! l0 = Some d0 ->
                              l <> l0 /\ heap st1 !! l0 = Some d0).
Proof.
  unfold copy_dropna, bind, get_frame, new_frame. cbn.
  destruct (heap st !! df) as [d|] eqn:Hd; [|discriminate]. cbn.
  rewrite lookup_insert_eq. cbn. intros [= <- <-]. cbn.
  set (h1 := <[fresh (dom (heap st)) := d]> (heap st)).
  exists d. rewrite lookup_insert_eq.
  repeat split; try reflexivity.
  - intros Heq. apply (fresh_not_bound h1 l0 d0); [|exact Heq].
    unfold h1. rewrite lookup_insert_ne; [assumption|]. now apply fresh_not_bound with d0.
  - assert (Hl0 : h1 !! l0 = Some d0).
    { unfold h1. rewrite lookup_insert_ne; [assumption|]. now apply fresh_not_bound with d0. }
    rewrite lookup_insert_ne; [exact Hl0|]. now apply fresh_not_bound with d0.
Qed.

Lemma resolve_columns_Ok_inv (a : scatter_args F) (l l' : positive)
      (x y : string) (hue' : option string) (st st1 : state F) :
  resolve_columns a l st = (Ok (x, y, hue', l'), st1) ->
  exists d melted,
    heap st !! l = Some d /\ resolve a d = Ok (x, y, hue', melted)
    /\ heap st1 !! l' = Some (default d melted)
    /\ log st1 = log st /\ next_id st1 = next_id st
    /\ (forall l0 d0, heap st !! l0 = Some d0 -> l <> l0 ->
                      l' <> l0 /\ heap st1 !! l0 = Some d0).
Proof.
  unfold resolve_columns. intros Hrun.
  inv_bind Hrun as d sta Hget. apply get_frame_Ok_inv in Hget as [Hd ->].
  inv_bind Hrun as [[[x1 y1] h1] [m|]] stb Hres; apply lift_Ok_inv in Hres as [Hres ->].
  - inv_bind Hrun as lm stc Hnew. unfold new_frame in Hnew. injection Hnew as <- <-.
    injection Hrun as <- <- <- <- <-. cbn.
    exists d, (Some m). rewrite lookup_insert_eq. repeat split; try assumption; try reflexivity.
    + intros Heq. eapply fresh_not_bound; [|exact Heq]. eassumption.
    + rewrite lookup_insert_ne; [assumption|]. eapply fresh_not_bound; eauto.
  - injection Hrun as <- <- <- <- <-.
    exists d, None. repeat split; try assumption; try reflexivity.
Qed.

Lemma ok_plot_scatter (a : scatter_args F) (df l0 : positive) (d0 : frame F)
      (st : state F) :
  heap st !! l0 = Some d0 -> ok_at a l0 d0 (plot_scatter df a) st.
Proof.
  intros Hl0. unfold plot_scatter.
  apply ok_bind; [apply ok_copy_dropna | intros l st1 Hcopy].
  apply copy_dropna_Ok_inv in Hcopy as (d & _ & _ & _ & _ & Hfresh).
  destruct (Hfresh l0 d0 Hl0) as [Hne Hl1].
  apply ok_bind; [apply ok_resolve_columns | intros [[[x y] hue'] l'] st2 Hres].
  apply resolve_columns_Ok_inv in Hres as (d1 & melted & _ & _ & _ & _ & _ & Hfresh').
  destruct (Hfresh' l0 d0 Hl1 Hne) as [Hne' _].
  apply ok_bind; [apply ok_make_axes | intros fa st3 _].
  apply ok_bind; [now apply ok_render | intros [] st4 _; apply ok_ret].
Qed.

Lemma plot_scatter_unbound (a : scatter_args F) (df : positive) (st : state F) :
  heap st !! df = None -> plot_scatter df a st = (Raise AttributeError, st).
Proof.
  intros Hdf. unfold plot_scatter, copy_dropna, bind, get_frame.
  now rewrite Hdf.
Qed.

(** C10. plot_scatter leaves the caller's DataFrame unchanged: dropping
    rows, melting to long form and adding the color column all act on new
    DataFrame objects, whatever the outcome of the call. *)
Theorem plot_scatter_leaves_argument_unchanged (a : scatter_args F)
        (df : positive) (st : state F) :
  heap (snd (plot_scatter df a st)) !! df = heap st !! df.
Proof.
  destruct (heap st !! df) as [d|] eqn:Hdf.
  - destruct (ok_plot_scatter a df df d st Hdf) as [_ Hkeep]. now apply Hkeep.
  - now rewrite plot_scatter_unbound.
Qed.

(** Every DataFrame that existed before the call is unchanged by it. *)
Lemma plot_scatter_frame (a : scatter_args F) (df l : positive) (d : frame F)
      (st : state F) :
  heap st !! l = Some d -> heap (snd (plot_scatter df a st)) !! l = Some d.
Proof.
  intros Hl. destruct (ok_plot_scatter a df l d st Hl) as [_ Hkeep]. now apply Hkeep.
Qed.

(** The calls of one run extend the log. *)
Lemma plot_scatter_log (a : scatter_args F) (df : positive) (st : state F) :
  exists new, log (snd (plot_scatter df a st)) = (log st ++ new)%list
              /\ Forall (allowed a) new.
Proof.
  destruct (heap st !! df) as [d|] eqn:Hdf.
  - destruct (ok_plot_scatter a df df d st Hdf) as [Hlog _]. exact Hlog.
  - rewrite plot_scatter_unbound by assumption. exists []. cbn.
    split; [now rewrite app_nil_r | constructor].
Qed.

Lemma columns_dropna (d : frame F) : columns (dropna d) = columns d.
Proof. reflexivity. Qed.

Lemma copy_dropna_run (df : positive) (d : frame F) (st : state F) :
  heap st !! df = Some d ->
  exists l st1, copy_dropna df st = (Ok l, st1) /\ heap st1 !! l = Some (dropna d)
                /\ log st1 = log st /\ next_id st1 = next_id st.
Proof.
  intros Hdf. unfold copy_dropna, bind, get_frame, new_frame. cbn.
  rewrite Hdf. cbn. rewrite lookup_insert_eq. cbn.
  eexists _, _. split; [reflexivity|]. cbn. rewrite lookup_insert_eq. auto.
Qed.

Lemma resolve_without_x (a : scatter_args F) (d : frame F) :
  x_column a = None -> two_or_three d (hue a) = false ->
  resolve a d =
  Raise (ValueError "x_column is not defined for more than on columns").
Proof. intros Hx Hcols. unfold resolve. now rewrite Hx, Hcols. Qed.

(** C4. A 5-column table with no group column and neither [x_column] nor
    [y_column] makes plot_scatter raise its column-inference error (the
    ValueError of line 64, which the specification calls
    AmbiguousColumnsError), and nothing has been rendered when it is
    raised: the log of calls and the figure counter are as before. *)
Theorem five_columns_raise_before_rendering (a : scatter_args F) (df : positive)
        (d : frame F) (st : state F) :
  heap st !! df = Some d ->
  length (columns d) = 5%nat ->
  hue a = None -> x_column a = None -> y_column a = None ->
  exists st',
    plot_scatter df a st =
    (Raise (ValueError "x_column is not defined for more than on columns"), st')
    /\ log st' = log st /\ next_id st' = next_id st.
Proof.
  intros Hdf Hlen Hhue Hx _.
  destruct (copy_dropna_run df d st Hdf) as (l & st1 & Hcopy & Hl & Hlog & Hid).
  exists st1. split; [|now split].
  unfold plot_scatter. rewrite (bind_run _ _ _ _ _ Hcopy).
  apply bind_raise. unfold resolve_columns, bind, get_frame. rewrite Hl. cbn.
  rewrite resolve_without_x; [reflexivity | exact Hx |].
  unfold two_or_three. rewrite columns_dropna, Hlen. reflexivity.
Qed.

(** C5 (as the code has it). With neither column named, a 2-column table
    resolves x to its first and y to its second column; so does a
    3-column table with a group column supplied, by position, and these
    are the two non-group columns when the group column is the third. *)
Theorem inferred_columns_are_the_first_two (a : scatter_args F) (df : positive)
        (d : frame F) (st : state F) :
  heap st !! df = Some d ->
  x_column a = None -> y_column a = None ->
  length (columns d) = 2%nat \/ (length (columns d) = 3%nat /\ hue a <> None) ->
  exists c1 c2 rest,
    columns d = c1 :: c2 :: rest
    /\ resolve_columns a df st = (Ok (c1, c2, hue a, df), st)
    /\ (forall h, hue a = Some h -> rest = [h] -> c1 <> h -> c2 <> h ->
                  non_group_columns (columns d) h = [c1; c2]).
Proof.
  intros Hdf Hx Hy Hlen.
  assert (Htest : two_or_three d (hue a) = true).
  { unfold two_or_three. destruct Hlen as [-> | [-> Hhue]]; [reflexivity|].
    destruct (hue a); [reflexivity | contradiction]. }
  destruct (columns d) as [|c1 [|c2 rest]] eqn:Hcols;
    [cbn in Hlen; destruct Hlen as [? | [? _]]; discriminate ..|].
  exists c1, c2, rest. split; [reflexivity|]. split.
  - unfold resolve_columns, bind, get_frame. rewrite Hdf. cbn.
    unfold resolve. rewrite Hx, Hy, Htest, Hcols. reflexivity.
  - intros h _ -> H1 H2. unfold non_group_columns. cbn.
    apply String.eqb_neq in H1, H2. rewrite H1, H2, String.eqb_refl. reflexivity.
Qed.

Lemma make_axes_Ok_inv (ax : option nat) (fa : option nat * nat)
      (st st1 : state F) :
  make_axes ax st = (Ok fa, st1) ->
  heap st1 = heap st /\
  match ax with
  | None => fa = (Some (next_id st), S (next_id st))
            /\ log st1 = (log st ++ [PltSubplots (next_id st) (S (next_id st))])%list
  | Some x => fa = (None, x) /\ log st1 = log st
  end.
Proof.
  destruct ax as [x|]; cbn.
  - intros [= <- <-]. auto.
  - unfold bind, plt_subplots, ret. cbn. intros [= <- <-]. auto.
Qed.

(** A successful run, stage by stage. *)
Lemma plot_scatter_Ok_inv (a : scatter_args F) (df : positive) (r : option nat)
      (st st' : state F) :
  plot_scatter df a st = (Ok r, st') ->
  exists d x y hue' melted l' st2 fa st3,
    heap st !! df = Some d
    /\ resolve a (dropna d) = Ok (x, y, hue', melted)
    /\ heap st2 !! l' = Some (default (dropna d) melted)
    /\ l' <> df
    /\ log st2 = log st /\ next_id st2 = next_id st
    /\ make_axes (ax a) st2 = (Ok fa, st3)
    /\ render a (snd fa) l' x y hue' st3 = (Ok tt, st')
    /\ r = fst fa.
Proof.
  unfold plot_scatter. intros Hrun.
  inv_bind Hrun as l st1 Hcopy.
  apply copy_dropna_Ok_inv in Hcopy as (d & Hdf & Hl & Hlog1 & Hid1 & Hfresh).
  destruct (Hfresh df d Hdf) as [Hne Hdf1].
  inv_bind Hrun as [[[x y] hue'] l'] st2 Hcols.
  apply resolve_columns_Ok_inv in Hcols
    as (d1 & melted & Hd1 & Hres & Hl' & Hlog2 & Hid2 & Hfresh').
  assert (d1 = dropna d) by congruence. subst d1.
  destruct (Hfresh' df d Hdf1 Hne) as [Hne' _].
  inv_bind Hrun as fa st3 Haxes.
  inv_bind Hrun as [] st4 Hrender. injection Hrun as <- <-.
  exists d, x, y, hue', melted, l', st2, fa, st3.
  repeat split; try assumption; congruence.
Qed.

(** C9. plot_scatter returns the figure it created when no axes is passed
    (the first call it logs is that creation) and None when it draws on the
    caller's axes; plot_classification_scatter returns what its call to
    plot_scatter returned, so the same holds of it. *)
Theorem plot_scatter_returns_figure (a : scatter_args F)
        (c : classification_args F) (df : positive) (r : option nat)
        (st st' : state F) :
  (plot_scatter df a st = (Ok r, st') -> returns_figure (ax a) st st' r)
  /\ (plot_classification_scatter df c st = (Ok r, st') ->
      returns_figure (cls_ax c) st st' r).
Proof.
  assert (Hcore : forall a df r st st',
             plot_scatter df a st = (Ok r, st') -> returns_figure (ax a) st st' r).
  { clear. intros a df r st st' Hrun.
    apply plot_scatter_Ok_inv in Hrun
      as (d & x & y & hue' & melted & l' & st2 & fa & st3
          & Hdf & _ & Hl' & Hne & Hlog2 & Hid2 & Haxes & Hrender & ->).
    apply make_axes_Ok_inv in Haxes as [_ Haxes].
    unfold returns_figure. destruct (ax a) as [axes|].
    - destruct Haxes as [-> _]. reflexivity.
    - destruct Haxes as [-> Hlog3]. cbn in *. split; [now rewrite Hid2|].
      destruct (ok_render a df d (S (next_id st2)) l' x y hue' st3 Hne)
        as [(new & Hlog & _) _].
      rewrite Hrender in Hlog. cbn in Hlog. exists new.
      rewrite Hlog, Hlog3, Hlog2, Hid2, <- app_assoc. reflexivity. }
  split; [apply Hcore|].
  unfold plot_classification_scatter. intros Hrun.
  inv_bind Hrun as d sta Hget. apply get_frame_Ok_inv in Hget as [_ ->].
  inv_bind Hrun as x stb Hx.
  assert (stb = st) as ->.
  { destruct (cls_x_column c); [now injection Hx |].
    destruct (_ =? _)%nat; [now apply lift_Ok_inv in Hx | discriminate]. }
  inv_bind Hrun as y stc Hy.
  assert (stc = st) as ->.
  { destruct (cls_y_column c); [now injection Hy |].
    destruct (_ =? _)%nat; [now apply lift_Ok_inv in Hy | discriminate]. }
  inv_bind Hrun as classified std Hcls. apply lift_Ok_inv in Hcls as [_ ->].
  inv_bind Hrun as l ste Hnew. unfold new_frame in Hnew. injection Hnew as <- <-.
  inv_bind Hrun as fig stf Hplot. injection Hrun as <- <-.
  apply Hcore in Hplot. exact Hplot.
Qed.

(** ** Annotation (lines 177-191) *)

Lemma annotate_points_run (ax : nat) (fs : Z)
      (points : list (string * (cell F * (cell F * cell F)))) :
  forall st : state F,
    annotate_points ax fs points st =
    (Ok tt, State (heap st) (log st ++ annotation_calls ax fs points) (next_id st)).
Proof.
  induction points as [|[label [x [y color]]] rest IH]; intros st.
  - cbn. rewrite app_nil_r. now destruct st.
  - cbn [annotate_points annotation_calls flat_map].
    unfold bind at 1. cbn [emit].
    unfold bind at 1. unfold when.
    destruct (String.eqb label "") eqn:Hlabel; cbn [negb ret emit];
      rewrite IH; cbn [heap log next_id]; rewrite <- ?app_assoc; reflexivity.
Qed.

Lemma annotation_calls_text (ax : nat) (fs : Z)
      (points : list (string * (cell F * (cell F * cell F))))
      (label : string) (x y c : cell F) :
  In (label, (x, (y, c))) points ->
  In (AxAnnotate ax label x y c fs) (annotation_calls ax fs points)
  /\ (label <> "" -> In (AxScatter ax x y c 20) (annotation_calls ax fs points)).
Proof.
  intros Hin. unfold annotation_calls. split.
  - apply in_flat_map. exists (label, (x, (y, c))). split; [exact Hin | now left].
  - intros Hlabel. apply in_flat_map. exists (label, (x, (y, c))).
    split; [exact Hin|]. apply String.eqb_neq in Hlabel. rewrite Hlabel.
    right. now left.
Qed.

Lemma annotation_calls_redraw (ax : nat) (fs : Z)
      (points : list (string * (cell F * (cell F * cell F))))
      (x y c : cell F) (s : Z) :
  In (AxScatter ax x y c s) (annotation_calls ax fs points) ->
  s = 20 /\ exists label, label <> "" /\ In (label, (x, (y, c))) points.
Proof.
  unfold annotation_calls. intros Hin. apply in_flat_map in Hin
    as ([label [x' [y' c']]] & Hpoint & Hcall).
  destruct Hcall as [Hcall | Hcall]; [discriminate|].
  destruct (String.eqb label "") eqn:Hlabel; [destruct Hcall|].
  destruct Hcall as [Hcall | []]. injection Hcall as <- <- <- <-.
  split; [reflexivity|]. exists label. split; [|exact Hpoint].
  now apply String.eqb_neq.
Qed.

(** C8 (as the code has it). The labels are paired by position with the
    rows of the table being plotted (the pairing stops at the shortest of
    labels, rows and colors). For every pair the text is placed at the
    row's point, so a visible text appears exactly for the non-empty
    labels, and the point is drawn again exactly when its label is not
    empty, at the fixed marker size 20; the base layers are drawn at
    [markersize], so the re-drawn point is the larger one exactly when
    [markersize < 20]. *)
Theorem annotation_marks_labelled_points (a : scatter_args F) (ax : nat)
        (df : positive) (x y : string) (d : frame F) (labels : list string)
        (xs ys colors : list (cell F)) (st : state F) :
  annotation_labels a = Some labels ->
  heap st !! df = Some d ->
  annotation_point_colors a d = Ok colors ->
  column d x = Ok xs -> column d y = Ok ys ->
  let points := zip labels (zip xs (zip ys colors)) in
  let drawn := annotation_calls ax (fontsize a) points in
  annotate a ax df x y st =
    (Ok tt, State (heap st) (log st ++ drawn) (next_id st))
  /\ (forall label xv yv c,
         In (label, (xv, (yv, c))) points ->
         In (AxAnnotate ax label xv yv c (fontsize a)) drawn
         /\ (label <> "" -> In (AxScatter ax xv yv c 20) drawn))
  /\ (forall xv yv c s,
         In (AxScatter ax xv yv c s) drawn ->
         s = 20 /\ exists label, label <> "" /\ In (label, (xv, (yv, c))) points)
  /\ (forall df0 st0 new base redrawn,
         log (snd (plot_scatter df0 a st0)) = (log st0 ++ new)%list ->
         In base (base_marker_sizes new) ->
         In redrawn (redraw_marker_sizes new) ->
         base = markersize a /\ redrawn = 20
         /\ (base < redrawn <-> markersize a < 20)).
Proof.
  intros Hlabels Hdf Hcolors Hxs Hys points drawn.
  split; [|split; [|split]].
  - unfold annotate. rewrite Hlabels.
    unfold bind at 1. unfold get_frame. rewrite Hdf.
    unfold bind at 1. unfold lift at 1. rewrite Hcolors.
    unfold bind at 1. unfold lift at 1. rewrite Hxs.
    unfold bind at 1. unfold lift at 1. rewrite Hys.
    apply annotate_points_run.
  - intros label xv yv c Hin. now apply annotation_calls_text.
  - intros xv yv c s Hin. now apply annotation_calls_redraw in Hin.
  - intros df0 st0 new base redrawn Hnew Hbase Hredrawn.
    destruct (plot_scatter_log a df0 st0) as (new' & Hlog & Hall).
    rewrite Hnew in Hlog. apply app_inv_head in Hlog. subst new'.
    rewrite Forall_forall in Hall.
    assert (base = markersize a) as ->.
    { unfold base_marker_sizes in Hbase. apply in_flat_map in Hbase as (c & Hc & Hs).
      apply list_elem_of_In, Hall in Hc. destruct Hc as [_ Hsize].
      destruct c; cbn in Hs, Hsize; try contradiction;
        destruct Hs as [<- | []]; exact Hsize. }
    assert (redrawn = 20) as ->.
    { unfold redraw_marker_sizes in Hredrawn.
      apply in_flat_map in Hredrawn as (c & Hc & Hs).
      apply list_elem_of_In, Hall in Hc. destruct Hc as [_ Hsize].
      destruct c; cbn in Hs, Hsize; try contradiction;
        destruct Hs as [<- | []]; exact Hsize. }
    repeat split; auto.
Qed.

(** ** The per-group fit (lines 89-96) *)


(** ** The legend (lines 127-174, 228-233) *)

Lemma returns_ret {A : Type} (Q : A -> Prop) (x : A) : Q x -> returns (F:=F) Q (ret x).
Proof. intros HQ st x' st' [= <- _]. exact HQ. Qed.

Lemma returns_bind {A B : Type} (Q : B -> Prop) (m : py F A) (k : A -> py F B) :
  (forall x, returns Q (k x)) -> returns Q (bind m k).
Proof.
  intros Hk st y st' Hrun. inv_bind Hrun as x st1 Hm. now apply (Hk x st1 y st').
Qed.

Lemma universe_model_entries (a : scatter_args F) (ax : nat) (df : positive)
      (x y : string) :
  returns (fun r => (length (fst r) <= 1)%nat /\ length (snd r) = length (fst r))
          (universe_model a ax df x y).
Proof.
  unfold universe_model.
  destruct (full_sample_order a) as [o|]; [|apply returns_ret; cbn; lia].
  destruct (_ && _); [|apply returns_ret; cbn; lia].
  repeat (apply returns_bind; intros ?).
  destruct (add_universe_model_label a); apply returns_ret; cbn; lia.
Qed.

Lemma hue_legend_Ok (a : scatter_args F) (df : positive) (hue : string)
      (label_models : bool) (models : list (cell F * M))
      (pairs : list (string * cell F)) :
  forall (labels : list (cell F)) (colors : list string) (st st' : state F)
         (r : list (cell F) * list string),
    hue_legend a df hue label_models models pairs labels colors st = (Ok r, st') ->
    exists texts,
      Forall2 (fun p t => group_label a label_models models (snd p) = Ok t)
              pairs texts
      /\ r = ((labels ++ texts)%list, (colors ++ map fst pairs)%list).
Proof.
  induction pairs as [|[color hue_id] rest IH]; intros labels colors st st' r Hrun.
  - cbn in Hrun. injection Hrun as <- _. exists []. split; [constructor|].
    now rewrite !app_nil_r.
  - cbn [hue_legend] in Hrun.
    inv_bind Hrun as d st1 Hget.
    inv_bind Hrun as d' st2 Hset.
    inv_bind Hrun as [] st3 Hput.
    inv_bind Hrun as text st4 Htext. apply lift_Ok_inv in Htext as [Htext _].
    apply IH in Hrun as (texts & Htexts & ->).
    exists (text :: texts). split; [now constructor|].
    cbn. now rewrite <- !app_assoc.
Qed.

Lemma group_label_order_zero (a : scatter_args F) (label_models : bool)
      (models : list (cell F * M)) (hue_id : cell F) :
  order a = 0 -> group_label a label_models models hue_id = Ok hue_id.
Proof. intros Horder. unfold group_label. now rewrite Horder. Qed.

Lemma legend_entries_Ok (a : scatter_args F) (df : positive)
      (hue : option string) (label_models : bool) (models : list (cell F * M))
      (colors : option (list string)) (labels : list (cell F))
      (legend_colors : list string) (d : frame F) (st st' : state F)
      (r : list (cell F) * list string) :
  heap st !! df = Some d ->
  legend_entries a df hue label_models models colors labels legend_colors st
  = (Ok r, st') ->
  match hue with
  | None => r = (labels, legend_colors)
  | Some h =>
      exists hue_col texts,
        column (set_column d "color" (Str (color0 a))) h = Ok hue_col
        /\ Forall2 (fun p t => group_label a label_models models (snd p) = Ok t)
                   (zip (default [] colors) (unique hue_col)) texts
        /\ r = ((labels ++ texts)%list,
                (legend_colors
                 ++ map fst (zip (default [] colors) (unique hue_col)))%list)
  end.
Proof.
  intros Hdf Hrun. unfold legend_entries in Hrun.
  inv_bind Hrun as d1 st1 Hget. apply get_frame_Ok_inv in Hget as [Hd1 ->].
  assert (d1 = d) by congruence. subst d1.
  inv_bind Hrun as [] st2 Hput. unfold put_frame in Hput. injection Hput as <-.
  destruct hue as [h|].
  - inv_bind Hrun as d2 st3 Hget. apply get_frame_Ok_inv in Hget as [Hd2 ->].
    cbn in Hd2. rewrite lookup_insert_eq in Hd2. injection Hd2 as <-.
    inv_bind Hrun as hue_col st4 Hcol. apply lift_Ok_inv in Hcol as [Hcol ->].
    apply hue_legend_Ok in Hrun as (texts & Htexts & ->).
    now exists hue_col, texts.
  - now injection Hrun as <- _.
Qed.

Lemma decorate_legend (a : scatter_args F) (ax : nat) (df : positive)
      (x y : string) (labels : list (cell F)) (colors : list string)
      (st st' : state F) :
  decorate a ax df x y labels colors st = (Ok tt, st') ->
  In (QpSetLegend ax labels colors (legend_loc a) (fontsize a)) (log st').
Proof.
  unfold decorate. intros Hrun.
  inv_bind Hrun as [] st1 H1. inv_bind Hrun as [] st2 H2.
  inv_bind Hrun as [] st3 H3. inv_bind Hrun as [] st4 H4.
  inv_bind Hrun as [] st5 H5. inv_bind Hrun as [] st6 H6.
  inv_bind Hrun as [] st7 H7.
  unfold emit in H6, Hrun. injection H6 as <-. injection Hrun as <-.
  cbn [log]. apply in_or_app. left.
  assert (Hext : exists new, log st7 = (log st5 ++ [QpSetLegend ax labels colors
                 (legend_loc a) (fontsize a)] ++ new)%list).
  { destruct (title a); cbn in H7; injection H7 as <-; cbn [log].
    - eexists. now rewrite <- app_assoc.
    - exists []. reflexivity. }
  destruct Hext as (new & ->). apply in_or_app. right. now left.
Qed.

Lemma render_Ok_inv (a : scatter_args F) (ax : nat) (df : positive)
      (x y : string) (hue : option string) (st st' : state F) :
  render a ax df x y hue st = (Ok tt, st') ->
  exists layers st1 universe st2 legend st3 st4,
    plot_layers a ax df x y hue st = (Ok layers, st1)
    /\ universe_model a ax df x y st1 = (Ok universe, st2)
    /\ legend_entries a df hue (truthy (effective_hue_model_label a hue))
         (fst layers) (snd layers) (fst universe) (snd universe) st2
       = (Ok legend, st3)
    /\ decorate a ax df x y (fst legend) (snd legend) st4 = (Ok tt, st').
Proof.
  unfold render. intros Hrun.
  inv_bind Hrun as layers st1 Hlayers.
  inv_bind Hrun as universe st2 Huniverse.
  inv_bind Hrun as legend st3 Hlegend.
  inv_bind Hrun as [] st3' Hannotate.
  inv_bind Hrun as [] st4 Hline.
  now exists layers, st1, universe, st2, legend, st3, st4.
Qed.

(** The table bound to the local [df] reaches the legend loop unchanged. *)
Lemma render_legend_frame (a : scatter_args F) (ax : nat) (df : positive)
      (x y : string) (hue : option string) (d : frame F) (st st' : state F) :
  heap st !! df = Some d ->
  render a ax df x y hue st = (Ok tt, st') ->
  exists models palette uni uni_colors legend,
    (length uni <= 1)%nat /\ length uni_colors = length uni
    /\ In (QpSetLegend ax (fst legend) (snd legend) (legend_loc a) (fontsize a))
          (log st')
    /\ exists st1 st2 st3,
         plot_layers a ax df x y hue st = (Ok (models, palette), st1)
         /\ legend_entries a df hue (truthy (effective_hue_model_label a hue))
              models palette uni uni_colors st2 = (Ok legend, st3)
         /\ heap st2 !! df = Some d
         /\ exists more, log st' = (log st1 ++ more)%list.
Proof.
  intros Hdf Hrun. pose proof Hrun as Hwhole.
  apply render_Ok_inv in Hrun
    as ([models palette] & st1 & [uni uni_colors] & st2 & legend & st3 & st4
        & Hlayers & Huniverse & Hlegend & Hdecorate).
  pose proof (universe_model_entries a ax df x y _ _ _ Huniverse) as [Hlen Hlen'].
  destruct (ok_plot_layers a df d ax df x y hue st) as [_ Hkeep1].
  rewrite Hlayers in Hkeep1. specialize (Hkeep1 Hdf).
  destruct (ok_universe_model a df d ax df x y st1) as [_ Hkeep2].
  rewrite Huniverse in Hkeep2. specialize (Hkeep2 Hkeep1).
  exists models, palette, uni, uni_colors, legend.
  split; [exact Hlen|]. split; [exact Hlen'|].
  split; [now apply decorate_legend in Hdecorate|].
  exists st1, st2, st3. repeat split; try assumption.
  unfold render in Hwhole. rewrite (bind_run _ _ _ _ _ Hlayers) in Hwhole.
  match type of Hwhole with
  | ?m ?s = _ => assert (Hrest : ok_at a (Pos.succ df) d m s)
  end.
  { assert (Hfresh : df <> Pos.succ df) by lia.
    apply ok_bind; [apply ok_universe_model | intros universe sta _].
    apply ok_bind; [now apply ok_legend_entries | intros lg stb _].
    apply ok_bind; [apply ok_annotate | intros [] stc _].
    apply ok_bind; [apply ok_when; intros _; apply ok_line_45 | intros [] std _].
    apply ok_decorate. }
  destruct Hrest as [(more & Hlog & _) _]. rewrite Hwhole in Hlog.
  now exists more.
Qed.

Lemma plot_scatter_legend (a : scatter_args F) (df : positive) (d : frame F)
      (r : option nat) (st st' : state F) :
  heap st !! df = Some d ->
  plot_scatter df a st = (Ok r, st') ->
  exists x y hue' melted axes models palette uni uni_colors legend l' st1 st2 st3 st4,
    resolve a (dropna d) = Ok (x, y, hue', melted)
    /\ (length uni <= 1)%nat /\ length uni_colors = length uni
    /\ In (QpSetLegend axes (fst legend) (snd legend) (legend_loc a) (fontsize a))
          (log st')
    /\ heap st1 !! l' = Some (default (dropna d) melted)
    /\ plot_layers a axes l' x y hue' st1 = (Ok (models, palette), st2)
    /\ heap st3 !! l' = Some (default (dropna d) melted)
    /\ legend_entries a l' hue' (truthy (effective_hue_model_label a hue'))
         models palette uni uni_colors st3 = (Ok legend, st4)
    /\ exists more, log st' = (log st2 ++ more)%list.
Proof.
  intros Hdf Hrun.
  apply plot_scatter_Ok_inv in Hrun
    as (d' & x & y & hue' & melted & l' & st2 & fa & st3
        & Hdf' & Hres & Hl' & Hne & _ & _ & Haxes & Hrender & _).
  assert (d' = d) by congruence. subst d'.
  apply make_axes_Ok_inv in Haxes as [Hheap _].
  rewrite <- Hheap in Hl'.
  destruct (render_legend_frame a (snd fa) l' x y hue' _ st3 st' Hl' Hrender)
    as (models & palette & uni & uni_colors & legend & Hlen & Hlen' & Hin
        & sta & stb & stc & Hlayers & Hlegend & Hkeep & Hmore).
  exists x, y, hue', melted, (snd fa), models, palette, uni, uni_colors, legend,
         l', st3, sta, stb, stc.
  repeat split; assumption.
Qed.

Lemma order_zero_texts (a : scatter_args F) (label_models : bool)
      (models : list (cell F * M)) (pairs : list (string * cell F))
      (texts : list (cell F)) :
  order a = 0 ->
  Forall2 (fun p t => group_label a label_models models (snd p) = Ok t) pairs texts ->
  texts = map snd pairs.
Proof.
  intros Horder Hall. induction Hall as [|p t pairs texts Hp _ IH]; [reflexivity|].
  rewrite group_label_order_zero in Hp by exact Horder.
  injection Hp as <-. cbn. now rewrite IH.
Qed.


(** ** Groups and their legend entries *)

Lemma column_set_column_other (d : frame F) (name h : string) (v : cell F) :
  h <> name -> column (set_column d name v) h = column d h.
Proof.
  intros Hne. unfold column, set_column. cbn [columns rows].
  assert (Hmem : bool_decide (h ∈ (if bool_decide (name ∈ columns d)
                                   then columns d else (columns d ++ [name])%list))
                 = bool_decide (h ∈ columns d)).
  { destruct (bool_decide (name ∈ columns d)); [reflexivity|].
    apply bool_decide_ext. rewrite elem_of_app, list_elem_of_singleton. tauto. }
  rewrite Hmem. destruct (bool_decide (h ∈ columns d)); [|reflexivity].
  f_equal. rewrite map_map. apply map_ext. intros r.
  unfold row_get. now rewrite lookup_insert_ne by congruence.
Qed.

Lemma zip_covering {A B : Type} (l : list A) (k : list B) :
  (length k <= length l)%nat ->
  map snd (zip l k) = k /\ map fst (zip l k) = take (length k) l.
Proof.
  revert l. induction k as [|b k IH]; intros l Hlen.
  - destruct l; split; reflexivity.
  - destruct l as [|a' l]; cbn in Hlen; [lia|].
    destruct (IH l) as [IH1 IH2]; [lia|]. cbn. now rewrite IH1, IH2.
Qed.

Lemma plot_hue_groups_Ok (a : scatter_args F) (ax : nat) (df : positive)
      (x y hue : string) (palette : list string) (d : frame F)
      (hue_ids : list (cell F)) :
  forall (idx : nat) (models r : list (cell F * M)) (st st' : state F),
    heap st !! df = Some d ->
    plot_hue_groups a ax df x y hue palette idx hue_ids models st = (Ok r, st') ->
    (length hue_ids <= length palette - idx)%nat
    /\ forall i hue_id,
         hue_ids !! i = Some hue_id ->
         exists color data xs ys,
           palette !! (idx + i)%nat = Some color
           /\ group_data d x y hue hue_id = Ok (data, xs, ys)
           /\ In (SnsScatterplot ax x y data color (markersize a)) (log st').
Proof.
  induction hue_ids as [|hue_id rest IH]; intros idx models r st st' Hdf Hrun.
  - cbn. split; [lia|]. intros i hue_id Hi. discriminate.
  - cbn [plot_hue_groups] in Hrun.
    inv_bind Hrun as d1 st1 Hget. apply get_frame_Ok_inv in Hget as [Hd1 ->].
    assert (d1 = d) by congruence. subst d1.
    inv_bind Hrun as [[data xs] ys] st2 Hdata. apply lift_Ok_inv in Hdata as [Hdata ->].
    inv_bind Hrun as x1 st3 Hdesign. apply lift_Ok_inv in Hdesign as [_ ->].
    inv_bind Hrun as reg_model st4 Hfit. apply lift_Ok_inv in Hfit as [_ ->].
    inv_bind Hrun as color st5 Hcolor. apply lift_Ok_inv in Hcolor as [Hcolor ->].
    unfold list_item in Hcolor.
    destruct (palette !! idx) as [color'|] eqn:Hidx; [|discriminate].
    injection Hcolor as ->.
    inv_bind Hrun as [] st6 Hemit. unfold emit in Hemit. injection Hemit as <-.
    inv_bind Hrun as [] st7 Hcurve.
    match type of Hcurve with
    | ?m ?s = _ => destruct (ok_plot_group_curve a df d ax x y data xs x1 reg_model
                               color s) as [(new & Hlog7 & _) Hkeep7]
    end.
    rewrite Hcurve in Hlog7, Hkeep7. cbn [snd log] in Hlog7, Hkeep7.
    specialize (Hkeep7 Hdf).
    destruct (ok_plot_hue_groups a df d ax df x y hue palette rest (S idx)
                (dict_set models hue_id reg_model) st7) as [(new' & Hlog' & _) _].
    rewrite Hrun in Hlog'. cbn [snd] in Hlog'.
    destruct (IH _ _ _ _ _ Hkeep7 Hrun) as [Hlen Hall].
    pose proof (lookup_lt_Some _ _ _ Hidx) as Hbound.
    split; [simpl length; lia|].
    intros [|i] hue_id' Hi.
    + injection Hi as <-. exists color, data, xs, ys.
      rewrite Nat.add_0_r. split; [exact Hidx|].
      split; [exact Hdata|]. rewrite Hlog', Hlog7.
      apply in_or_app. left. apply in_or_app. left. apply in_or_app. right. now left.
    + cbn in Hi. destruct (Hall i hue_id' Hi) as (c & dt & xs' & ys' & Hc & Hd & Hin).
      exists c, dt, xs', ys'. replace (idx + S i)%nat with (S idx + i)%nat by lia.
      now repeat split.
Qed.

Lemma plot_layers_groups (a : scatter_args F) (ax : nat) (df : positive)
      (x y h : string) (d : frame F) (models : list (cell F * M))
      (palette : option (list string)) (st st1 : state F) :
  heap st !! df = Some d ->
  plot_layers a ax df x y (Some h) st = (Ok (models, palette), st1) ->
  exists hue_col p,
    column d h = Ok hue_col /\ palette = Some p
    /\ (length (unique hue_col) <= length p)%nat
    /\ forall i hue_id,
         unique hue_col !! i = Some hue_id ->
         exists color data xs ys,
           p !! i = Some color
           /\ group_data d x y h hue_id = Ok (data, xs, ys)
           /\ In (SnsScatterplot ax x y data color (markersize a)) (log st1).
Proof.
  intros Hdf Hrun. unfold plot_layers in Hrun.
  inv_bind Hrun as d1 sta Hget. apply get_frame_Ok_inv in Hget as [Hd1 ->].
  assert (d1 = d) by congruence. subst d1.
  inv_bind Hrun as p stb Hp.
  assert (stb = st) as ->.
  { destruct (colors a); [now injection Hp|].
    inv_bind Hp as hc stc Hc. apply lift_Ok_inv in Hc as [_ ->]. now injection Hp. }
  inv_bind Hrun as hue_col stc Hcol. apply lift_Ok_inv in Hcol as [Hcol ->].
  inv_bind Hrun as ms std Hloop. injection Hrun as <- <- <-.
  destruct (plot_hue_groups_Ok _ _ _ _ _ _ _ _ _ _ _ _ _ _ Hdf Hloop) as [Hlen Hall].
  exists hue_col, p. split; [exact Hcol|]. split; [reflexivity|].
  split; [lia|]. exact Hall.
Qed.

Lemma group_label_cases (a : scatter_args F) (label_models : bool)
      (models : list (cell F * M)) (hue_id t : cell F) :
  group_label a label_models models hue_id = Ok t -> labels_group hue_id t.
Proof.
  unfold group_label, labels_group.
  destruct (0 <? order a); [|intros [= <-]; now left].
  destruct label_models; [|intros [= <-]; now left].
  destruct (dict_get models hue_id) as [m|e]; cbn; [|discriminate].
  intros [= <-]. right. eauto.
Qed.


End PlotScatterFacts.

(** * The claims on concrete tables (binary64, reference delegates) *)

(** calc_ci on five points, with a prediction of the same length. *)
Lemma calc_ci_half_width_witness :
  exists ci,
    calc_ci t_ppf_table [1; 2; 3; 4; 5]%float [2; 4; 5; 4; 5]%float
            [2.5; 3; 4; 4.5; 5]%float = Ok ci
    /\ length ci = length [1; 2; 3; 4; 5]%float
    /\ forall i xi,
         [1; 2; 3; 4; 5]%float !! i = Some xi ->
         ci !! i = Some (spec_half_width t_ppf_table [1; 2; 3; 4; 5]%float
                           [2; 4; 5; 4; 5]%float [2.5; 3; 4; 4.5; 5]%float xi).
Proof.
  apply (calc_ci_half_width t_ppf_table); [discriminate | reflexivity | reflexivity].
Defined.


(** C3, at the failing input: a group column named [color], [order = 0].
    The table has the two groups a and b; line 155 overwrites the group
    column with [color0], so the legend gets one group entry, "darkblue". *)
Lemma color_named_group_column_legend :
  (try c := column color_frame "color" in Ok (unique c)) = Ok [Str "a"; Str "b"]
  /\ fst (plot_scatter 1%positive (with_hue float_defaults "color" 0)
                       (one_frame_state color_frame)) = Ok (Some 0%nat)
  /\ legends (log (snd (plot_scatter 1%positive (with_hue float_defaults "color" 0)
                                     (one_frame_state color_frame))))
     = [([Str "Full sample:  y=poly(x), R2"; Str "darkblue"], ["darkblue"; "C0"])]
  /\ fst (plot_scatter 1%positive (with_hue float_defaults "color" 2)
                       (one_frame_state color_frame)) = Raise (KeyError "darkblue").
Proof. repeat split; vm_compute; reflexivity. Qed.

(** A 5-column table with the default arguments. *)
Lemma five_columns_raise_before_rendering_witness :
  exists st',
    plot_scatter 1%positive float_defaults (one_frame_state five_column_frame) =
    (Raise (ValueError "x_column is not defined for more than on columns"), st')
    /\ log st' = log (one_frame_state five_column_frame)
    /\ next_id st' = next_id (one_frame_state five_column_frame).
Proof.
  apply (five_columns_raise_before_rendering float_defaults 1%positive
           five_column_frame); reflexivity.
Defined.

(** C5, counterexample: with the group column first, x resolves to the
    group column itself and y to the first of the two non-group columns. *)
Lemma group_column_first_counterexample :
  resolve (with_hue float_defaults "g" 2) group_first_frame
  = Ok ("g", "x", Some "g", None)
  /\ non_group_columns (columns group_first_frame) "g" = ["x"; "y"].
Proof. split; vm_compute; reflexivity. Qed.

(** Three columns with the group column last. *)
Lemma inferred_columns_are_the_first_two_witness :
  exists c1 c2 rest,
    columns grouped_frame = c1 :: c2 :: rest
    /\ resolve_columns (with_hue float_defaults "g" 2) 1%positive
                       (one_frame_state grouped_frame)
       = (Ok (c1, c2, hue (with_hue float_defaults "g" 2), 1%positive),
          one_frame_state grouped_frame)
    /\ (forall h, hue (with_hue float_defaults "g" 2) = Some h -> rest = [h] ->
                  c1 <> h -> c2 <> h ->
                  non_group_columns (columns grouped_frame) h = [c1; c2]).
Proof.
  apply (inferred_columns_are_the_first_two (with_hue float_defaults "g" 2) 1%positive
           grouped_frame); [reflexivity | reflexivity | reflexivity |].
  right. split; [reflexivity | discriminate].
Defined.





(** C8, counterexample: [markersize = 30]; the base layer is drawn at
    size 30 and the two annotated points are drawn again at size 20. *)
Lemma large_marker_counterexample :
  base_marker_sizes
    (log (snd (plot_scatter 1%positive
                 (with_annotation float_defaults ["A"; ""; ""; ""; "B"] 30)
                 (one_frame_state xy_frame)))) = [30]
  /\ redraw_marker_sizes
       (log (snd (plot_scatter 1%positive
                    (with_annotation float_defaults ["A"; ""; ""; ""; "B"] 30)
                    (one_frame_state xy_frame)))) = [20; 20].
Proof. split; vm_compute; reflexivity. Qed.

(** Five rows, the first and the last labelled, at the default marker
    size. *)
Lemma annotation_marks_labelled_points_witness :
  exists xs ys colors,
    column xy_frame "x" = Ok xs /\ column xy_frame "y" = Ok ys
    /\ annotation_point_colors
         (with_annotation float_defaults ["A"; ""; ""; ""; "B"] 4) xy_frame = Ok colors
    /\ let a := with_annotation float_defaults ["A"; ""; ""; ""; "B"] 4 in
       let st := one_frame_state xy_frame in
       let points := zip ["A"; ""; ""; ""; "B"] (zip xs (zip ys colors)) in
       let drawn := annotation_calls 1 (fontsize a) points in
       annotate a 1 1%positive "x" "y" st =
         (Ok tt, State (heap st) (log st ++ drawn) (next_id st))
       /\ (forall label xv yv c,
              In (label, (xv, (yv, c))) points ->
              In (AxAnnotate 1 label xv yv c (fontsize a)) drawn
              /\ (label <> "" -> In (AxScatter 1 xv yv c 20) drawn))
       /\ (forall xv yv c s,
              In (AxScatter 1 xv yv c s) drawn ->
              s = 20 /\ exists label, label <> "" /\ In (label, (xv, (yv, c))) points)
       /\ (forall df0 st0 new base redrawn,
              log (snd (plot_scatter df0 a st0)) = (log st0 ++ new)%list ->
              In base (base_marker_sizes new) ->
              In redrawn (redraw_marker_sizes new) ->
              base = markersize a /\ redrawn = 20
              /\ (base < redrawn <-> markersize a < 20)).
Proof.
  eexists _, _, _.
  split; [vm_compute; reflexivity|].
  split; [vm_compute; reflexivity|].
  split; [vm_compute; reflexivity|].
  apply (annotation_marks_labelled_points
           (with_annotation float_defaults ["A"; ""; ""; ""; "B"] 4) 1 1%positive
           "x" "y" xy_frame); vm_compute; reflexivity.
Defined.

(** A call without axes, a call on axes 7, and the classification
    wrapper. *)
Lemma plot_scatter_returns_figure_witness :
  returns_figure (ax float_defaults) (one_frame_state xy_frame)
    (snd (plot_scatter 1%positive float_defaults (one_frame_state xy_frame)))
    (Some 0%nat)
  /\ returns_figure (ax (with_ax float_defaults 7)) (one_frame_state xy_frame)
       (snd (plot_scatter 1%positive (with_ax float_defaults 7)
                          (one_frame_state xy_frame)))
       None
  /\ returns_figure (cls_ax default_classification) (one_frame_state xy_frame)
       (snd (plot_classification_scatter 1%positive default_classification
                                         (one_frame_state xy_frame)))
       (Some 0%nat).
Proof.
  split; [|split].
  - apply (proj1 (plot_scatter_returns_figure float_defaults default_classification
                    1%positive (Some 0%nat) (one_frame_state xy_frame) _)).
    vm_compute. reflexivity.
  - apply (proj1 (plot_scatter_returns_figure (with_ax float_defaults 7)
                    default_classification 1%positive None
                    (one_frame_state xy_frame) _)).
    vm_compute. reflexivity.
  - apply (proj2 (plot_scatter_returns_figure float_defaults default_classification
                    1%positive (Some 0%nat) (one_frame_state xy_frame) _)).
    vm_compute. reflexivity.
Defined.


(** The caller's table after a call with the default arguments. *)
Lemma plot_scatter_frame_witness :
  heap (snd (plot_scatter 1%positive float_defaults (one_frame_state xy_frame)))
  !! 1%positive = Some xy_frame.
Proof.
  apply (plot_scatter_frame float_defaults 1%positive 1%positive xy_frame
           (one_frame_state xy_frame)).
  reflexivity.
Defined.

(** ** calc_ci: outcomes and exact-arithmetic properties *)

Section CalcCiOutcome.
Context {F : Type} {num : Float64 F}.
Variable t_ppf : F -> Z -> F.

Lemma broadcast2_outcome (op : F -> F -> F) (a b : list F) :
  if broadcastable (length a) (length b)
  then exists c, broadcast2 op a b = Ok c
  else broadcast2 op a b = Raise (ValueError "operands could not be broadcast together").
Proof.
  unfold broadcastable, broadcast2.
  destruct (length a =? length b)%nat eqn:Heq; cbn [orb]; [eauto|].
  destruct a as [|a0 [|a1 a]]; destruct b as [|b0 [|b1 b]]; cbn in *;
    try discriminate; eauto.
Qed.

(** The three outcomes of calc_ci. When [y] and [y_model] do not broadcast
    (different lengths, neither of them 1) the subtraction of line 301
    raises ValueError, whatever [x] is. When they do and [x] is empty,
    [1 / n] of line 306 raises ZeroDivisionError. In every other case
    calc_ci returns one half-width per element of [x]. *)
Theorem calc_ci_outcome (x y y_model : list F) :
  (broadcastable (length y) (length y_model) = false ->
   calc_ci t_ppf x y y_model
   = Raise (ValueError "operands could not be broadcast together"))
  /\ (broadcastable (length y) (length y_model) = true -> x = [] ->
      calc_ci t_ppf x y y_model = Raise ZeroDivisionError)
  /\ (broadcastable (length y) (length y_model) = true -> x <> [] ->
      exists ci, calc_ci t_ppf x y y_model = Ok ci /\ length ci = length x).
Proof.
  pose proof (broadcast2_outcome f_sub y y_model) as Hb.
  unfold calc_ci. repeat split.
  - intros Hshape. rewrite Hshape in Hb. now rewrite Hb.
  - intros Hshape ->. rewrite Hshape in Hb. destruct Hb as [resid ->]. reflexivity.
  - intros Hshape Hx. rewrite Hshape in Hb. destruct Hb as [resid ->].
    cbn [rbind]. unfold int_truediv.
    destruct (Z.of_nat (length x) =? 0) eqn:Hn.
    + apply Z.eqb_eq in Hn. destruct x; [contradiction | cbn [length] in Hn; lia].
    + cbn [rbind]. eexists. split; [reflexivity|]. now rewrite !length_map.
Qed.
End CalcCiOutcome.

Lemma np_sum_from (l : list R) (a : R) :
  fold_left Rplus l a = (a + fold_left Rplus l 0)%R.
Proof.
  revert a. induction l as [|v l IH]; intros a; cbn.
  - lra.
  - rewrite IH, (IH (0 + v)%R). lra.
Qed.

Lemma np_sum_cons (v : R) (l : list R) : np_sum (v :: l) = (v + np_sum l)%R.
Proof. unfold np_sum. cbn. rewrite np_sum_from. lra. Qed.

Lemma np_sum_nil : np_sum (F:=R) [] = 0%R.
Proof. reflexivity. Qed.

Lemma np_sum_squares_nonneg (l : list R) : (0 <= np_sum (map f_sq l))%R.
Proof.
  induction l as [|v l IH]; [cbn; lra|].
  cbn [map]. rewrite np_sum_cons. unfold f_sq at 1. cbn.
  pose proof (Rle_0_sqr v) as Hv. unfold Rsqr in Hv. lra.
Qed.

Lemma np_sum_shift (l : list R) (c : R) :
  np_sum (map (fun v => v + c)%R l) = (np_sum l + INR (length l) * c)%R.
Proof.
  induction l as [|v l IH]; [cbn; lra|].
  cbn [map]. rewrite !np_sum_cons, IH. cbn [length]. rewrite S_INR. lra.
Qed.

Lemma np_mean_shift (l : list R) (c : R) :
  l <> [] -> np_mean (map (fun v => v + c)%R l) = (np_mean l + c)%R.
Proof.
  intros Hl. unfold np_mean. rewrite np_sum_shift, length_map. cbn.
  rewrite <- INR_IZR_INZ.
  assert (INR (length l) <> 0)%R.
  { apply not_0_INR. destruct l; [contradiction | discriminate]. }
  field. assumption.
Qed.

(** In exact arithmetic the half-widths depend on [x] through its
    deviations from the mean only: adding one constant to every element of
    [x] changes neither the outcome nor any half-width. *)
Theorem calc_ci_shift_invariant (t_ppf : R -> Z -> R) (x y y_model : list R) (c : R) :
  calc_ci t_ppf (map (fun v => v + c)%R x) y y_model = calc_ci t_ppf x y y_model.
Proof.
  destruct x as [|x0 x].
  - reflexivity.
  - assert (Hx : x0 :: x <> []) by discriminate.
    unfold calc_ci. rewrite length_map.
    destruct (broadcast2 f_sub y y_model) as [resid|e]; [|reflexivity].
    cbn [rbind]. destruct (int_truediv 1 (Z.of_nat (length (x0 :: x)))) as [inv_n|e];
      [|reflexivity].
    cbn [rbind]. rewrite (np_mean_shift _ c Hx).
    set (m := np_mean (x0 :: x)).
    assert (Hdev : map (fun xi : R => f_sq (f_sub xi (m + c)%R))
                       (map (fun v => (v + c)%R) (x0 :: x))
                   = map (fun xi => f_sq (f_sub xi m)) (x0 :: x)).
    { rewrite map_map. apply map_ext. intros v. cbn. f_equal; lra. }
    now rewrite Hdev.
Qed.

Lemma inv_nonneg (s : R) : (0 <= s)%R -> (0 <= / s)%R.
Proof.
  intros Hs. destruct (Req_dec s 0) as [-> | Hne].
  - rewrite Rinv_0. lra.
  - left. apply Rinv_0_lt_compat. lra.
Qed.


Section Emission.
Context {F : Type} {num : Float64 F} {M : Type} {lib : Delegates F M}.
Variable P : call F -> Prop.

Lemma emits_silent {A : Type} (m : py F A) (st : state F) :
  log (snd (m st)) = log st -> emits P m st.
Proof. intros Hlog. exists []. split; [now rewrite app_nil_r | constructor]. Qed.

Lemma emits_ret {A : Type} (x : A) (st : state F) : emits P (ret x) st.
Proof. now apply emits_silent. Qed.

Lemma emits_lift {A : Type} (r : result A) (st : state F) : emits P (lift r) st.
Proof. now apply emits_silent. Qed.

Lemma emits_raise {A : Type} (e : exn) (st : state F) : emits P (raise (A:=A) e) st.
Proof. now apply emits_silent. Qed.

Lemma emits_get_frame (l : positive) (st : state F) : emits P (get_frame l) st.
Proof. apply emits_silent. unfold get_frame. now destruct (heap st !! l). Qed.

Lemma emits_get_log (st : state F) : emits P get_log st.
Proof. now apply emits_silent. Qed.

Lemma emits_new_frame (d : frame F) (st : state F) : emits P (new_frame d) st.
Proof. now apply emits_silent. Qed.

Lemma emits_put_frame (l : positive) (d : frame F) (st : state F) :
  emits P (put_frame l d) st.
Proof. now apply emits_silent. Qed.

Lemma emits_emit (c : call F) (st : state F) : P c -> emits P (emit c) st.
Proof. intros Hc. exists [c]. split; [reflexivity | now constructor]. Qed.

Lemma emits_bind {A B : Type} (m : py F A) (k : A -> py F B) (st : state F) :
  emits P m st ->
  (forall x st1, m st = (Ok x, st1) -> emits P (k x) st1) ->
  emits P (bind m k) st.
Proof.
  intros (new1 & Hlog1 & Hall1) Hk.
  unfold emits, bind. destruct (m st) as [[x|e] st1] eqn:Hrun; cbn in *.
  - destruct (Hk x st1 eq_refl) as (new2 & Hlog2 & Hall2).
    exists (new1 ++ new2)%list.
    split; [rewrite Hlog2, Hlog1; now rewrite app_assoc | now apply Forall_app].
  - now exists new1.
Qed.

Lemma emits_when (b : bool) (m : py F unit) (st : state F) :
  (b = true -> emits P m st) -> emits P (when b m) st.
Proof. destruct b; intros Hm; [now apply Hm | apply emits_ret]. Qed.

Lemma emits_Ok {A : Type} (m : py F A) (st st' : state F) (x : A) :
  emits P m st -> m st = (Ok x, st') ->
  exists new, log st' = (log st ++ new)%list /\ Forall P new.
Proof. intros Hm Hrun. unfold emits in Hm. now rewrite Hrun in Hm. Qed.

End Emission.

Lemma emits_impl {F : Type} {A : Type} (P Q : call F -> Prop) (m : py F A)
      (st : state F) :
  (forall c, P c -> Q c) -> emits P m st -> emits Q m st.
Proof.
  intros HPQ (new & Hlog & Hall). exists new. split; [exact Hlog|].
  eapply Forall_impl; [exact Hall | exact HPQ].
Qed.

Ltac emission_step :=
  match goal with
  | |- emits _ (ret _) _ => apply emits_ret
  | |- emits _ (lift _) _ => apply emits_lift
  | |- emits _ (raise _) _ => apply emits_raise
  | |- emits _ (get_frame _) _ => apply emits_get_frame
  | |- emits _ get_log _ => apply emits_get_log
  | |- emits _ (new_frame _) _ => apply emits_new_frame
  | |- emits _ (put_frame _ _) _ => apply emits_put_frame
  | |- emits _ (when _ _) _ => apply emits_when; intros ?
  | |- emits _ (bind _ _) _ => apply emits_bind; [ | intros ? ? _; cbv beta ]
  | |- emits _ (match ?x with _ => _ end) _ => destruct x eqn:?
  end.

Ltac emission_walk solve_call :=
  repeat first
    [ emission_step
    | match goal with
      | |- emits _ (emit _) _ => apply emits_emit; solve_call
      end ].

Section PlotScatterLog.
Context {F : Type} {num : Float64 F} {M : Type} {lib : Delegates F M}.

(** Parts of plot_scatter that draw nothing of the kind [P] excludes. *)
Section Generic.
Variable a : scatter_args F.
Variable P : call F -> Prop.
Hypothesis P_layers : forall c, is_data_layer c = true -> P c.
Hypothesis P_group_curve : forall c, is_group_curve c = true -> P c.
Hypothesis P_band : band_requested a = true -> forall c, is_ci_band c = true -> P c.
Hypothesis P_drawing :
  forall c, is_formatting c = false -> is_data_layer c = false ->
            is_group_curve c = false -> is_ci_band c = false -> P c.
Hypothesis P_formatting : forall c, is_formatting c = true -> P c.

Lemma emits_copy_dropna (df : positive) (st : state F) : emits P (copy_dropna df) st.
Proof. unfold copy_dropna. emission_walk idtac. Qed.

Lemma emits_resolve_columns (df : positive) (st : state F) :
  emits P (resolve_columns a df) st.
Proof. unfold resolve_columns. emission_walk idtac. Qed.

Lemma emits_make_axes (ax : option nat) (st : state F) : emits P (make_axes ax) st.
Proof.
  unfold make_axes. destruct ax; [apply emits_ret|].
  apply emits_bind; [|intros; apply emits_ret].
  eexists [_]. split; [reflexivity|]. constructor; [|constructor].
  now apply P_drawing.
Qed.

Lemma emits_plot_group_curve (ax : nat) (x y : string) (data_hue : frame F)
      (xs : list (cell F)) (x1 : list (list F)) (reg_model : M) (color : string)
      (st : state F) :
  emits P (plot_group_curve a ax x y data_hue xs x1 reg_model color) st.
Proof.
  unfold plot_group_curve.
  emission_walk ltac:(first [now apply P_layers | now apply P_group_curve]).
Qed.

Lemma emits_plot_hue_groups (ax : nat) (df : positive) (x y hue : string)
      (palette : list string) (hue_ids : list (cell F)) :
  forall (idx : nat) (models : list (cell F * M)) (st : state F),
    emits P (plot_hue_groups a ax df x y hue palette idx hue_ids models) st.
Proof.
  induction hue_ids as [|hue_id rest IH]; intros idx models st; cbn [plot_hue_groups].
  - apply emits_ret.
  - emission_walk ltac:(first [now apply P_layers | now apply P_group_curve]).
    all: first [apply emits_plot_group_curve | apply IH].
Qed.

Lemma emits_plot_layers (ax : nat) (df : positive) (x y : string)
      (hue : option string) (st : state F) :
  emits P (plot_layers a ax df x y hue) st.
Proof.
  unfold plot_layers.
  emission_walk ltac:(now apply P_layers).
  all: apply emits_plot_hue_groups.
Qed.

Lemma emits_hue_legend (df : positive) (hue : string) (label_models : bool)
      (models : list (cell F * M)) (pairs : list (string * cell F)) :
  forall (labels : list (cell F)) (colors : list string) (st : state F),
    emits P (hue_legend a df hue label_models models pairs labels colors) st.
Proof.
  induction pairs as [|[color hue_id] rest IH]; intros labels colors st;
    cbn [hue_legend].
  - apply emits_ret.
  - emission_walk idtac. apply IH.
Qed.

Lemma emits_legend_entries (df : positive) (hue : option string) (label_models : bool)
      (models : list (cell F * M)) (colors : option (list string))
      (labels : list (cell F)) (legend_colors : list string) (st : state F) :
  emits P (legend_entries a df hue label_models models colors labels legend_colors) st.
Proof. unfold legend_entries. emission_walk idtac. apply emits_hue_legend. Qed.

Lemma emits_annotate_points (ax : nat) (fontsize : Z)
      (points : list (string * (cell F * (cell F * cell F)))) :
  forall st : state F, emits P (annotate_points ax fontsize points) st.
Proof.
  induction points as [|[label [x [y color]]] rest IH]; intros st;
    cbn [annotate_points].
  - apply emits_ret.
  - emission_walk ltac:(now apply P_drawing). apply IH.
Qed.

Lemma emits_annotate (ax : nat) (df : positive) (x y : string) (st : state F) :
  emits P (annotate a ax df x y) st.
Proof. unfold annotate. emission_walk idtac. all: apply emits_annotate_points. Qed.

Lemma emits_line_45 (ax : nat) (st : state F) : emits P (line_45 ax) st.
Proof. unfold line_45. emission_walk ltac:(now apply P_drawing). Qed.

Lemma emits_decorate (ax : nat) (df : positive) (x y : string)
      (labels : list (cell F)) (colors : list string) (st : state F) :
  emits P (decorate a ax df x y labels colors) st.
Proof. unfold decorate. emission_walk ltac:(now apply P_formatting). Qed.

Lemma emits_universe_model (ax : nat) (df : positive) (x y : string) (st : state F) :
  emits P (universe_model a ax df x y) st.
Proof.
  unfold universe_model.
  destruct (full_sample_order a) as [o|] eqn:Horder; [|apply emits_ret].
  destruct ((_ || _) && (0 <? o)) eqn:Hfit; [|apply emits_ret].
  apply andb_true_iff in Hfit as [_ Hpos].
  do 8 (apply emits_bind; [emission_step | intros ? ? _]).
  apply emits_bind.
  { emission_walk ltac:(now apply P_drawing). }
  intros _ ? _. apply emits_bind.
  { apply emits_when. intros Hci.
    assert (Hband : band_requested a = true).
    { unfold band_requested. now rewrite Hci, Horder. }
    emission_walk ltac:(now apply P_band). }
  intros _ ? _. emission_walk idtac.
Qed.

Lemma emits_render (ax : nat) (df : positive) (x y : string) (hue : option string)
      (st : state F) :
  emits P (render a ax df x y hue) st.
Proof.
  unfold render.
  apply emits_bind; [apply emits_plot_layers | intros layers st1 _].
  apply emits_bind; [apply emits_universe_model | intros universe st2 _].
  apply emits_bind; [apply emits_legend_entries | intros legend st3 _].
  apply emits_bind; [apply emits_annotate | intros [] st4 _].
  apply emits_bind; [apply emits_when; intros _; apply emits_line_45 | intros [] st5 _].
  apply emits_decorate.
Qed.

Lemma emits_plot_scatter (df : positive) (st : state F) :
  emits P (plot_scatter df a) st.
Proof.
  unfold plot_scatter.
  apply emits_bind; [apply emits_copy_dropna | intros l st1 _].
  apply emits_bind; [apply emits_resolve_columns | intros [[[x y] hue'] l'] st2 _].
  apply emits_bind; [apply emits_make_axes | intros fa st3 _].
  apply emits_bind; [apply emits_render | intros [] st4 _; apply emits_ret].
Qed.

End Generic.

(** The confidence band is drawn on request only, whatever the outcome of
    the call: an edge of the band is logged only when
    [add_universe_model_ci] is set and [full_sample_order] is positive.
    plot_classification_scatter never draws it. *)
Theorem ci_band_only_on_request (a : scatter_args F) (c : classification_args F)
        (df : positive) (st : state F) :
  (exists new,
      log (snd (plot_scatter df a st)) = (log st ++ new)%list
      /\ Forall (fun call => is_ci_band call = true -> band_requested a = true) new)
  /\ (exists new,
         log (snd (plot_classification_scatter df c st)) = (log st ++ new)%list
         /\ Forall (fun call => is_ci_band call = false) new).
Proof.
  assert (Hcore : forall a df st,
             emits (fun call => is_ci_band call = true -> band_requested a = true)
                   (plot_scatter df a) st).
  { clear. intros a df st. apply emits_plot_scatter.
    - intros [] Hc; try discriminate Hc; intros Hb; discriminate Hb.
    - intros [] Hc; try discriminate Hc; intros Hb; try discriminate Hb.
      cbn in Hc, Hb. apply String.eqb_eq in Hc. subst. destruct lw; discriminate.
    - intros Hband call _ _. exact Hband.
    - intros call _ _ _ Hc Hb. congruence.
    - intros [] Hc; try discriminate Hc; intros Hb; discriminate Hb. }
  split; [apply Hcore|].
  change (emits (fun call => is_ci_band call = false)
                (plot_classification_scatter df c) st).
  unfold plot_classification_scatter.
  apply emits_bind; [apply emits_get_frame | intros d st1 _].
  apply emits_bind; [emission_walk idtac | intros x st2 _].
  apply emits_bind; [emission_walk idtac | intros y st3 _].
  apply emits_bind; [apply emits_lift | intros classified st4 _].
  apply emits_bind; [apply emits_new_frame | intros l st5 _].
  apply emits_bind; [|intros; apply emits_ret].
  eapply emits_impl; [|apply (Hcore (classification_scatter_args c x y))].
  cbn. intros call Hcall. destruct (is_ci_band call); [|reflexivity].
  specialize (Hcall eq_refl). discriminate Hcall.
Qed.

End PlotScatterLog.

(** ** The tables handed to seaborn *)

Section PlottedTables.
Context {F : Type} {num : Float64 F} {M : Type} {lib : Delegates F M}.

Lemma complete_frame_dropna (d : frame F) : complete_frame (dropna d) = true.
Proof.
  unfold complete_frame, dropna. cbn [columns rows].
  apply forallb_forall. intros r Hr. now apply filter_In in Hr as [_ Hr].
Qed.

Lemma row_get_insert (r : gmap string (cell F)) (k c : string) (v : cell F) :
  row_get (<[k := v]> r) c = if decide (k = c) then v else row_get r c.
Proof.
  unfold row_get. destruct (decide (k = c)) as [-> | Hne].
  - now rewrite lookup_insert_eq.
  - now rewrite lookup_insert_ne.
Qed.

Lemma complete_row_cell (cols : list string) (r : gmap string (cell F)) (c : string) :
  complete_row cols r = true -> c ∈ cols -> is_missing (row_get r c) = false.
Proof.
  unfold complete_row. intros Hall Hc. rewrite forallb_forall in Hall.
  apply list_elem_of_In, Hall in Hc. now apply negb_true_iff in Hc.
Qed.

Lemma complete_frame_melt (d : frame F) (x : string) (vars : list string)
      (var_name value_name : string) :
  complete_frame d = true -> x ∈ columns d ->
  (forall v, In v vars -> v ∈ columns d) ->
  complete_frame (melt d x vars var_name value_name) = true.
Proof.
  intros Hd Hx Hvars. unfold complete_frame in *. rewrite forallb_forall in Hd.
  apply forallb_forall. intros row Hrow. cbn [melt rows columns] in *.
  apply in_flat_map in Hrow as (v & Hv & Hrow).
  apply in_map_iff in Hrow as (r & <- & Hr).
  pose proof (complete_row_cell _ _ x (Hd r Hr) Hx) as Hxcell.
  pose proof (complete_row_cell _ _ v (Hd r Hr) (Hvars v Hv)) as Hvcell.
  unfold complete_row. cbn [forallb]. rewrite !row_get_insert.
  repeat match goal with
         | |- context [decide (?p = ?q)] => destruct (decide (p = q))
         end;
    try contradiction; cbn [is_missing negb andb];
    rewrite ?Hxcell, ?Hvcell; reflexivity.
Qed.

Lemma resolve_complete (a : scatter_args F) (d : frame F) (x y : string)
      (hue' : option string) (melted : option (frame F)) :
  resolve a d = Ok (x, y, hue', melted) -> complete_frame d = true ->
  complete_frame (default d melted) = true.
Proof.
  intros Hres Hd. destruct melted as [m|]; [|exact Hd]. cbn [default].
  unfold resolve in Hres.
  destruct (match x_column a with Some _ => _ | None => _ end) as [x0|e];
    [|discriminate]. cbn [rbind] in Hres.
  destruct (y_column a); [discriminate|].
  destruct (two_or_three d (hue a)).
  { destruct (list_item (columns d) 1); discriminate. }
  unfold columns_drop in Hres.
  destruct (bool_decide (x0 ∈ columns d)) eqn:Hin; [|discriminate].
  apply bool_decide_eq_true in Hin. cbn [rbind] in Hres.
  injection Hres as <- <- <- <-.
  apply complete_frame_melt; [exact Hd | exact Hin |].
  intros v Hv. apply filter_In in Hv as [Hv _]. now apply list_elem_of_In.
Qed.

Lemma forallb_insert_sorted (f : gmap string (cell F) -> bool) (name : string)
      (r : gmap string (cell F)) (l : list (gmap string (cell F))) :
  forallb f (insert_sorted name r l) = f r && forallb f l.
Proof.
  induction l as [|r' l IH]; cbn [insert_sorted forallb]; [reflexivity|].
  destruct (cell_lt _ _); cbn [forallb]; [reflexivity|].
  rewrite IH. destruct (f r), (f r'); reflexivity.
Qed.

Lemma complete_group_data (d data : frame F) (x y hue : string) (hue_id : cell F)
      (xs ys : list (cell F)) :
  group_data d x y hue hue_id = Ok (data, xs, ys) ->
  complete_frame d = true -> complete_frame data = true.
Proof.
  unfold group_data, select_eq, sort_values. intros Hdata Hd.
  destruct (column d hue); [|discriminate]. cbn [rbind] in Hdata.
  destruct (column _ x) as [xcol|]; [|discriminate]. cbn [rbind] in Hdata.
  destruct (column _ x) as [xs'|]; [|discriminate]. cbn [rbind] in Hdata.
  destruct (column _ y) as [ys'|]; [|discriminate]. cbn [rbind] in Hdata.
  injection Hdata as <- _ _.
  unfold complete_frame in *. cbn [columns rows].
  assert (Hsel : forallb (complete_row (columns d))
                   (List.filter (fun r => cell_eqb (row_get r hue) hue_id) (rows d))
                 = true).
  { rewrite forallb_forall in Hd. apply forallb_forall.
    intros r Hr. apply filter_In in Hr as [Hr _]. now apply Hd. }
  revert Hsel. generalize (List.filter (fun r => cell_eqb (row_get r hue) hue_id) (rows d)).
  intros l. induction l as [|r l IH]; cbn [fold_right forallb]; [reflexivity|].
  intros Hl. apply andb_true_iff in Hl as [Hr Hl].
  rewrite forallb_insert_sorted, Hr. now apply IH.
Qed.

Lemma emits_plot_group_curve_complete (a : scatter_args F) (ax : nat)
      (x y : string) (data_hue : frame F) (xs : list (cell F))
      (x1 : list (list F)) (reg_model : M) (color : string) (st : state F) :
  complete_frame data_hue = true ->
  emits data_complete (plot_group_curve a ax x y data_hue xs x1 reg_model color) st.
Proof.
  intros Hdata. unfold plot_group_curve.
  emission_walk ltac:(first [exact Hdata | exact I]).
Qed.

Lemma emits_plot_hue_groups_complete (a : scatter_args F) (ax : nat)
      (df : positive) (x y hue : string) (palette : list string) (d : frame F)
      (hue_ids : list (cell F)) :
  complete_frame d = true ->
  forall (idx : nat) (models : list (cell F * M)) (st : state F),
    heap st !! df = Some d ->
    emits data_complete
          (plot_hue_groups a ax df x y hue palette idx hue_ids models) st.
Proof.
  intros Hd. induction hue_ids as [|hue_id rest IH]; intros idx models st Hdf;
    cbn [plot_hue_groups].
  - apply emits_ret.
  - apply emits_bind; [apply emits_get_frame | intros d1 st1 Hget].
    apply get_frame_Ok_inv in Hget as [Hd1 ->].
    assert (d1 = d) by congruence. subst d1.
    apply emits_bind; [apply emits_lift | intros [[data xs] ys] st2 Hdata].
    apply lift_Ok_inv in Hdata as [Hdata ->].
    apply complete_group_data in Hdata; [|exact Hd].
    apply emits_bind; [apply emits_lift | intros x1 st3 Hx1].
    apply lift_Ok_inv in Hx1 as [_ ->].
    apply emits_bind; [apply emits_lift | intros reg_model st4 Hfit].
    apply lift_Ok_inv in Hfit as [_ ->].
    apply emits_bind; [apply emits_lift | intros color st5 Hcolor].
    apply lift_Ok_inv in Hcolor as [_ ->].
    apply emits_bind; [now apply emits_emit | intros [] st6 Hemit].
    unfold emit in Hemit. injection Hemit as <-.
    apply emits_bind; [now apply emits_plot_group_curve_complete | intros [] st7 Hcurve].
    apply IH.
    match type of Hcurve with
    | ?m ?s = _ => destruct (ok_plot_group_curve a df d ax x y data xs x1 reg_model
                               color s) as [_ Hkeep]
    end.
    rewrite Hcurve in Hkeep. now apply Hkeep.
Qed.

Lemma emits_plot_layers_complete (a : scatter_args F) (ax : nat) (df : positive)
      (x y : string) (hue : option string) (d : frame F) (st : state F) :
  heap st !! df = Some d -> complete_frame d = true ->
  emits data_complete (plot_layers a ax df x y hue) st.
Proof.
  intros Hdf Hd. unfold plot_layers. destruct hue as [h|].
  - apply emits_bind; [apply emits_get_frame | intros d1 st1 Hget].
    apply get_frame_Ok_inv in Hget as [_ ->].
    apply emits_bind.
    { destruct (colors a); emission_walk idtac. }
    intros palette st2 Hpalette.
    assert (st2 = st) as ->.
    { destruct (colors a); [now injection Hpalette|].
      inv_bind Hpalette as hc stc Hc. apply lift_Ok_inv in Hc as [_ ->].
      now injection Hpalette. }
    apply emits_bind; [apply emits_lift | intros hue_col st3 Hcol].
    apply lift_Ok_inv in Hcol as [_ ->].
    apply emits_bind; [|intros; apply emits_ret].
    now apply emits_plot_hue_groups_complete with d.
  - destruct (full_sample_order a) as [o|]; [|apply emits_ret].
    apply emits_bind; [apply emits_get_frame | intros d1 st1 Hget].
    apply get_frame_Ok_inv in Hget as [Hd1 ->].
    assert (d1 = d) by congruence. subst d1.
    emission_walk ltac:(exact Hd).
Qed.

Lemma data_complete_other (c : call F) : is_data_layer c = false -> data_complete c.
Proof. destruct c; intros Hc; try discriminate Hc; exact I. Qed.

Lemma emits_plot_scatter_complete (a : scatter_args F) (df : positive)
      (st : state F) :
  emits data_complete (plot_scatter df a) st.
Proof.
  unfold plot_scatter.
  apply emits_bind; [apply emits_copy_dropna | intros l st1 Hcopy].
  apply copy_dropna_Ok_inv in Hcopy as (d & _ & Hl & _).
  apply emits_bind; [apply emits_resolve_columns | intros [[[x y] hue'] l'] st2 Hres].
  apply resolve_columns_Ok_inv in Hres as (d1 & melted & Hd1 & Hres & Hl' & _).
  assert (d1 = dropna d) by congruence. subst d1.
  apply resolve_complete in Hres; [|apply complete_frame_dropna].
  apply emits_bind.
  { apply emits_make_axes. intros c _ Hc _ _. now apply data_complete_other. }
  intros fa st3 Haxes. apply make_axes_Ok_inv in Haxes as [Hheap _].
  rewrite <- Hheap in Hl'.
  apply emits_bind; [|intros; apply emits_ret].
  unfold render.
  apply emits_bind; [now apply emits_plot_layers_complete with (default (dropna d) melted)|].
  intros layers st4 _.
  apply emits_bind.
  { apply emits_universe_model.
    - intros _ c Hc. destruct c; try discriminate Hc. exact I.
    - intros c _ Hc _ _. now apply data_complete_other. }
  intros universe st5 _.
  apply emits_bind; [apply emits_legend_entries | intros legend st6 _].
  apply emits_bind.
  { apply emits_annotate. intros c _ Hc _ _. now apply data_complete_other. }
  intros [] st7 _.
  apply emits_bind.
  { apply emits_when. intros _. apply emits_line_45.
    intros c _ Hc _ _. now apply data_complete_other. }
  intros [] st8 _.
  apply emits_decorate. intros c Hc. destruct c; try discriminate Hc; exact I.
Qed.

(** Every table plot_scatter hands to seaborn is free of missing values,
    whatever the arguments and the outcome of the call: the rows with a
    missing cell are dropped first (line 58), and melting, selecting a
    group and sorting keep the remaining rows complete. The same holds of
    plot_classification_scatter, which draws through plot_scatter. *)
Theorem plotted_tables_are_complete (a : scatter_args F)
        (c : classification_args F) (df : positive) (st : state F) :
  (exists new,
      log (snd (plot_scatter df a st)) = (log st ++ new)%list
      /\ Forall data_complete new)
  /\ (exists new,
         log (snd (plot_classification_scatter df c st)) = (log st ++ new)%list
         /\ Forall data_complete new).
Proof.
  split; [apply emits_plot_scatter_complete|].
  change (emits data_complete (plot_classification_scatter df c) st).
  unfold plot_classification_scatter.
  apply emits_bind; [apply emits_get_frame | intros d st1 _].
  apply emits_bind; [emission_walk idtac | intros x st2 _].
  apply emits_bind; [emission_walk idtac | intros y st3 _].
  apply emits_bind; [apply emits_lift | intros classified st4 _].
  apply emits_bind; [apply emits_new_frame | intros l st5 _].
  apply emits_bind; [apply emits_plot_scatter_complete | intros; apply emits_ret].
Qed.

(** Without a group column and with [full_sample_order = None] nothing of
    the data is drawn, whatever the outcome of the call: no scatter or
    regression layer, no group curve and no confidence band. *)
Theorem no_layer_without_order (a : scatter_args F) (df : positive) (d : frame F)
        (x y : string) (st : state F) :
  heap st !! df = Some d ->
  resolve a (dropna d) = Ok (x, y, None, None) ->
  full_sample_order a = None ->
  exists new,
    log (snd (plot_scatter df a st)) = (log st ++ new)%list
    /\ Forall (fun c => is_data_layer c = false /\ is_group_curve c = false
                        /\ is_ci_band c = false) new.
Proof.
  intros Hdf Hres Horder.
  set (P := fun c : call F => is_data_layer c = false /\ is_group_curve c = false
                              /\ is_ci_band c = false).
  assert (Pd : forall c, is_formatting c = false -> is_data_layer c = false ->
                         is_group_curve c = false -> is_ci_band c = false -> P c).
  { intros c _ H1 H2 H3. now repeat split. }
  assert (Pf : forall c, is_formatting c = true -> P c).
  { intros c Hc. destruct c; try discriminate Hc; now repeat split. }
  change (emits P (plot_scatter df a) st). unfold plot_scatter.
  apply emits_bind; [apply emits_copy_dropna | intros l st1 Hcopy].
  apply copy_dropna_Ok_inv in Hcopy as (d' & Hdf' & Hl & _).
  assert (d' = d) by congruence. subst d'.
  apply emits_bind; [apply emits_resolve_columns | intros [[[x' y'] hue'] l'] st2 Hcols].
  apply resolve_columns_Ok_inv in Hcols as (d1 & melted & Hd1 & Hres' & _).
  assert (d1 = dropna d) by congruence. subst d1.
  rewrite Hres in Hres'. injection Hres' as <- <- <- <-.
  apply emits_bind; [now apply emits_make_axes | intros fa st3 _].
  apply emits_bind; [|intros; apply emits_ret].
  unfold render.
  apply emits_bind.
  { unfold plot_layers. rewrite Horder. apply emits_ret. }
  intros layers st4 _.
  apply emits_bind.
  { unfold universe_model. rewrite Horder. apply emits_ret. }
  intros universe st5 _.
  apply emits_bind; [apply emits_legend_entries | intros legend st6 _].
  apply emits_bind; [now apply emits_annotate | intros [] st7 _].
  apply emits_bind; [apply emits_when; intros _; now apply emits_line_45 | intros [] st8 _].
  now apply emits_decorate.
Qed.

End PlottedTables.

(** ** Drawing first, formatting last *)

Section Formatting.
Context {F : Type} {num : Float64 F} {M : Type} {lib : Delegates F M}.

Lemma render_stages (a : scatter_args F) (ax : nat) (df : positive)
      (x y : string) (hue : option string) (st st' : state F) :
  render a ax df x y hue st = (Ok tt, st') ->
  exists layers st1 universe st2 legend st3 st4 st5,
    plot_layers a ax df x y hue st = (Ok layers, st1)
    /\ universe_model a ax df x y st1 = (Ok universe, st2)
    /\ legend_entries a df hue (truthy (effective_hue_model_label a hue))
         (fst layers) (snd layers) (fst universe) (snd universe) st2
       = (Ok legend, st3)
    /\ annotate a ax df x y st3 = (Ok tt, st4)
    /\ when (add_45line a) (line_45 ax) st4 = (Ok tt, st5)
    /\ decorate a ax df x y (fst legend) (snd legend) st5 = (Ok tt, st').
Proof.
  unfold render. intros Hrun.
  inv_bind Hrun as layers st1 Hlayers.
  inv_bind Hrun as universe st2 Huniverse.
  inv_bind Hrun as legend st3 Hlegend.
  inv_bind Hrun as [] st4 Hannotate.
  inv_bind Hrun as [] st5 Hline.
  now exists layers, st1, universe, st2, legend, st3, st4, st5.
Qed.

Lemma not_formatting_other (c : call F) :
  is_data_layer c = true \/ is_group_curve c = true \/ is_ci_band c = true
  \/ c = PltSubplots 0 0 -> is_formatting c = false.
Proof.
  intros [Hc | [Hc | [Hc | ->]]]; [| | |reflexivity];
    destruct c; try discriminate Hc; reflexivity.
Qed.

Lemma emit_Ok_inv (c : call F) (st st' : state F) :
  emit c st = (Ok tt, st') -> log st' = (log st ++ [c])%list.
Proof. unfold emit. now intros [= <-]. Qed.

Lemma decorate_log (a : scatter_args F) (ax : nat) (df : positive)
      (x y : string) (labels : list (cell F)) (colors : list string)
      (st st' : state F) :
  decorate a ax df x y labels colors st = (Ok tt, st') ->
  exists formatting,
    log st' = (log st ++ formatting)%list
    /\ Forall (fun c => is_formatting c = true) formatting
    /\ legends formatting = [(labels, colors)]
    /\ last formatting = Some (QpSetSpines ax).
Proof.
  unfold decorate. intros Hrun.
  inv_bind Hrun as [] st1 H1. inv_bind Hrun as [] st2 H2.
  inv_bind Hrun as [] st3 H3. inv_bind Hrun as [] st4 H4.
  inv_bind Hrun as [] st5 H5. inv_bind Hrun as [] st6 H6.
  inv_bind Hrun as [] st7 H7.
  apply emit_Ok_inv in H4, H5, H6, Hrun.
  assert (E1 : exists l1, log st1 = (log st ++ l1)%list
                          /\ Forall (fun c => is_formatting c = true) l1
                          /\ legends l1 = []).
  { destruct (x_limits a).
    - apply emit_Ok_inv in H1. eexists. split; [exact H1|]. split; [|reflexivity].
      now repeat constructor.
    - injection H1 as <-. exists []. rewrite app_nil_r. now repeat constructor. }
  assert (E2 : exists l2, log st2 = (log st1 ++ l2)%list
                          /\ Forall (fun c => is_formatting c = true) l2
                          /\ legends l2 = []).
  { destruct (y_limits a).
    - apply emit_Ok_inv in H2. eexists. split; [exact H2|]. split; [|reflexivity].
      now repeat constructor.
    - injection H2 as <-. exists []. rewrite app_nil_r. now repeat constructor. }
  assert (E3 : exists c3, log st3 = (log st2 ++ [c3])%list
                          /\ is_formatting c3 = true /\ legends [c3] = []).
  { destruct (xticks a).
    - inv_bind H3 as d sta Hget. apply get_frame_Ok_inv in Hget as [_ ->].
      inv_bind H3 as xs stb Hxs. apply lift_Ok_inv in Hxs as [_ ->].
      apply emit_Ok_inv in H3. eexists. split; [exact H3|]. now split.
    - apply emit_Ok_inv in H3. eexists. split; [exact H3|]. now split. }
  assert (E7 : exists l7, log st7 = (log st6 ++ l7)%list
                          /\ Forall (fun c => is_formatting c = true) l7
                          /\ legends l7 = []).
  { destruct (title a).
    - apply emit_Ok_inv in H7. eexists. split; [exact H7|]. split; [|reflexivity].
      now repeat constructor.
    - injection H7 as <-. exists []. rewrite app_nil_r. now repeat constructor. }
  destruct E1 as (l1 & L1 & F1 & G1). destruct E2 as (l2 & L2 & F2 & G2).
  destruct E3 as (c3 & L3 & F3 & G3). destruct E7 as (l7 & L7 & F7 & G7).
  eexists (l1 ++ l2 ++ [c3] ++ [_; _; _] ++ l7 ++ [_])%list.
  split.
  { rewrite Hrun, L7, H6, H5, H4, L3, L2, L1. rewrite <- !app_assoc. reflexivity. }
  split.
  { repeat (apply Forall_app; split); try assumption; now repeat constructor. }
  split.
  { unfold legends in *. rewrite !flat_map_app, G1, G2, G3, G7. reflexivity. }
  rewrite !app_assoc. apply last_snoc.
Qed.

(** A call that returns has first drawn and then formatted: its new calls
    are drawing calls (none of them into the axes formatting of qis.plots)
    followed by formatting calls only; the legend is set exactly once, and
    the last call sets the spines. *)
Theorem formatting_follows_drawing (a : scatter_args F) (df : positive)
        (r : option nat) (st st' : state F) :
  plot_scatter df a st = (Ok r, st') ->
  exists drawing formatting axes labels colors,
    log st' = (log st ++ drawing ++ formatting)%list
    /\ Forall (fun c => is_formatting c = false) drawing
    /\ Forall (fun c => is_formatting c = true) formatting
    /\ legends formatting = [(labels, colors)]
    /\ last formatting = Some (QpSetSpines axes).
Proof.
  intros Hrun.
  set (P := fun c : call F => is_formatting c = false).
  assert (P1 : forall c, is_data_layer c = true -> P c).
  { intros c Hc. apply not_formatting_other. now left. }
  assert (P2 : forall c, is_group_curve c = true -> P c).
  { intros c Hc. apply not_formatting_other. right. now left. }
  assert (P3 : band_requested a = true -> forall c, is_ci_band c = true -> P c).
  { intros _ c Hc. apply not_formatting_other. right. right. now left. }
  assert (P4 : forall c, is_formatting c = false -> is_data_layer c = false ->
                         is_group_curve c = false -> is_ci_band c = false -> P c).
  { intros c Hc _ _ _. exact Hc. }
  unfold plot_scatter in Hrun.
  inv_bind Hrun as l st1 Hcopy.
  inv_bind Hrun as [[[x y] hue'] l'] st2 Hcols.
  inv_bind Hrun as fa st3 Haxes.
  inv_bind Hrun as [] st4 Hrender. injection Hrun as <- <-.
  apply render_stages in Hrender
    as (layers & sa & universe & sb & legend & sc & sd & se
        & Hlayers & Huniverse & Hlegend & Hannotate & Hline & Hdecorate).
  apply (emits_Ok P) in Hcopy as (n1 & L1 & F1); [|apply emits_copy_dropna].
  apply (emits_Ok P) in Hcols as (n2 & L2 & F2); [|apply emits_resolve_columns].
  assert (Haxes' : exists n3, log st3 = (log st2 ++ n3)%list /\ Forall P n3).
  { apply make_axes_Ok_inv in Haxes as [_ Haxes]. destruct (ax a).
    - destruct Haxes as [_ ->]. exists []. rewrite app_nil_r. now split.
    - destruct Haxes as [_ ->]. eexists. split; [reflexivity|]. now repeat constructor. }
  destruct Haxes' as (n3 & L3 & F3).
  apply (emits_Ok P) in Hlayers as (n4 & L4 & F4);
    [|now apply emits_plot_layers].
  apply (emits_Ok P) in Huniverse as (n5 & L5 & F5).
  2:{ now apply emits_universe_model. }
  apply (emits_Ok P) in Hlegend as (n6 & L6 & F6); [|apply emits_legend_entries].
  apply (emits_Ok P) in Hannotate as (n7 & L7 & F7).
  2:{ now apply emits_annotate. }
  apply (emits_Ok P) in Hline as (n8 & L8 & F8).
  2:{ apply emits_when. intros _. now apply emits_line_45. }
  apply decorate_log in Hdecorate as (formatting & L9 & F9 & G9 & E9).
  exists (n1 ++ n2 ++ n3 ++ n4 ++ n5 ++ n6 ++ n7 ++ n8)%list, formatting,
         (snd fa), (fst legend), (snd legend).
  split.
  { rewrite L9, L8, L7, L6, L5, L4, L3, L2, L1. rewrite <- !app_assoc. reflexivity. }
  split; [|now repeat split].
  repeat (apply Forall_app; split); assumption.
Qed.

End Formatting.

(** ** Palette, pooled label and band *)

Section LegendFacts.
Context {F : Type} {num : Float64 F} {M : Type} {lib : Delegates F M}.

Lemma plot_layers_palette (a : scatter_args F) (ax : nat) (df : positive)
      (x y h : string) (models : list (cell F * M)) (palette : option (list string))
      (cs : list string) (st st1 : state F) :
  colors a = Some cs ->
  plot_layers a ax df x y (Some h) st = (Ok (models, palette), st1) ->
  palette = Some cs.
Proof.
  intros Hcs Hrun. unfold plot_layers in Hrun. rewrite Hcs in Hrun.
  inv_bind Hrun as d sta Hget.
  inv_bind Hrun as p stb Hp. injection Hp as <- <-.
  inv_bind Hrun as hue_col stc Hcol.
  inv_bind Hrun as ms std Hloop. now injection Hrun as <- <- <-.
Qed.

(** A list of [colors] shorter than the number of groups makes the call
    raise: the loop of lines 89-112 indexes the palette by the position of
    the group (line 99). *)
Theorem too_few_colors_raise (a : scatter_args F) (df : positive) (d : frame F)
        (st : state F) (x y h : string) (melted : option (frame F))
        (hue_col : list (cell F)) (cs : list string) :
  heap st !! df = Some d ->
  resolve a (dropna d) = Ok (x, y, Some h, melted) ->
  column (default (dropna d) melted) h = Ok hue_col ->
  colors a = Some cs ->
  (length cs < length (unique hue_col))%nat ->
  exists e st', plot_scatter df a st = (Raise e, st').
Proof.
  intros Hdf Hres Hcol Hcs Hshort.
  destruct (plot_scatter df a st) as [[r|e] st'] eqn:Hrun; [|now exists e, st'].
  exfalso.
  destruct (plot_scatter_legend a df d r st st' Hdf Hrun)
    as (x' & y' & hue' & melted' & axes & models & palette & uni & uni_colors
        & legend & l' & st1 & st2 & st3 & st4
        & Hres' & _ & _ & _ & Hl1 & Hlayers & _).
  rewrite Hres in Hres'. injection Hres' as <- <- <- <-.
  pose proof (plot_layers_palette _ _ _ _ _ _ _ _ _ _ _ Hcs Hlayers) as ->.
  destruct (plot_layers_groups _ _ _ _ _ _ _ _ _ _ _ Hl1 Hlayers)
    as (hue_col' & p & Hcol' & Hp & Hfit & _).
  injection Hp as <-.
  assert (hue_col' = hue_col) by congruence. subst hue_col'. lia.
Qed.

Lemma universe_model_Ok_inv (a : scatter_args F) (ax : nat) (df : positive)
      (x y : string) (d : frame F) (universe : list (cell F) * list string)
      (st st' : state F) :
  heap st !! df = Some d ->
  universe_model a ax df x y st = (Ok universe, st') ->
  if pooled_label_requested a
  then exists o xy xs ys x1 reg_model,
      full_sample_order a = Some o
      /\ sort_values d x = Ok xy /\ column xy x = Ok xs /\ column xy y = Ok ys
      /\ get_ols_x xs o (fit_intercept a) = Ok x1 /\ ols_fit ys x1 = Ok reg_model
      /\ universe
         = ([Str (full_sample_label a ++ " "
                  ++ reg_model_params_to_str reg_model o false (fit_intercept a))],
            [color0 a])
  else universe = ([], []).
Proof.
  intros Hdf Hrun. unfold universe_model in Hrun. unfold pooled_label_requested.
  destruct (full_sample_order a) as [o|];
    [|rewrite andb_false_r; now injection Hrun as <- _].
  destruct (0 <? o); [|rewrite !andb_false_r in *; now injection Hrun as <- _].
  rewrite !andb_true_r in *.
  destruct (add_universe_model_prediction a || add_universe_model_label a
            || add_universe_model_ci a) eqn:Hany.
  2:{ injection Hrun as <- _.
      destruct (add_universe_model_label a); [|reflexivity].
      rewrite orb_true_r in Hany. discriminate. }
  inv_bind Hrun as d1 s1 Hget. apply get_frame_Ok_inv in Hget as [Hd1 ->].
  assert (d1 = d) by congruence. subst d1.
  inv_bind Hrun as cx s2 Hcx. apply lift_Ok_inv in Hcx as [_ ->].
  inv_bind Hrun as cy s3 Hcy. apply lift_Ok_inv in Hcy as [_ ->].
  inv_bind Hrun as xy s4 Hxy. apply lift_Ok_inv in Hxy as [Hxy ->].
  inv_bind Hrun as xs s5 Hxs. apply lift_Ok_inv in Hxs as [Hxs ->].
  inv_bind Hrun as ys s6 Hys. apply lift_Ok_inv in Hys as [Hys ->].
  inv_bind Hrun as x1 s7 Hx1. apply lift_Ok_inv in Hx1 as [Hx1 ->].
  inv_bind Hrun as reg_model s8 Hfit. apply lift_Ok_inv in Hfit as [Hfit ->].
  inv_bind Hrun as [] s9 Hpred.
  inv_bind Hrun as [] s10 Hband.
  destruct (add_universe_model_label a); injection Hrun as <- _; [|reflexivity].
  now exists o, xy, xs, ys, x1, reg_model.
Qed.

(** Without a group column the legend has at most the entry of the pooled
    model. When [add_universe_model_label] is set and [full_sample_order]
    is positive it has that one entry, in [color0]: [full_sample_label], a
    space and the regression summary of the model fitted to all rows of the
    cleaned table, sorted by x. Otherwise the legend is empty. *)
Theorem ungrouped_legend (a : scatter_args F) (df : positive) (d : frame F)
        (r : option nat) (st st' : state F) (x y : string) :
  heap st !! df = Some d ->
  plot_scatter df a st = (Ok r, st') ->
  resolve a (dropna d) = Ok (x, y, None, None) ->
  exists axes labels legend_colors,
    In (QpSetLegend axes labels legend_colors (legend_loc a) (fontsize a)) (log st')
    /\ if pooled_label_requested a
       then exists o xy xs ys x1 reg_model,
           full_sample_order a = Some o
           /\ sort_values (dropna d) x = Ok xy
           /\ column xy x = Ok xs /\ column xy y = Ok ys
           /\ get_ols_x xs o (fit_intercept a) = Ok x1
           /\ ols_fit ys x1 = Ok reg_model
           /\ labels = [Str (full_sample_label a ++ " "
                             ++ reg_model_params_to_str reg_model o false
                                  (fit_intercept a))]
           /\ legend_colors = [color0 a]
       else labels = [] /\ legend_colors = [].
Proof.
  intros Hdf Hrun Hres.
  apply plot_scatter_Ok_inv in Hrun
    as (d' & x' & y' & hue' & melted' & l' & st2 & fa & st3
        & Hdf' & Hres' & Hl' & Hne & _ & _ & Haxes & Hrender & _).
  assert (d' = d) by congruence. subst d'.
  rewrite Hres in Hres'. injection Hres' as <- <- <- <-. cbn [default] in Hl'.
  apply make_axes_Ok_inv in Haxes as [Hheap _]. rewrite <- Hheap in Hl'.
  apply render_Ok_inv in Hrender
    as ([models palette] & sa & [uni uni_colors] & sb & legend & sc & sd
        & Hlayers & Huniverse & Hlegend & Hdecorate).
  apply decorate_legend in Hdecorate.
  destruct (ok_plot_layers a l' (dropna d) (snd fa) l' x y None st3) as [_ Hkeep].
  rewrite Hlayers in Hkeep. specialize (Hkeep Hl').
  pose proof (universe_model_Ok_inv a _ _ _ _ _ _ _ _ Hkeep Huniverse) as Hlabel.
  cbn [fst snd] in *.
  unfold legend_entries in Hlegend.
  inv_bind Hlegend as d1 se Hget. inv_bind Hlegend as [] sf Hput.
  injection Hlegend as <- _. cbn [fst snd] in Hdecorate.
  exists (snd fa), uni, uni_colors. split; [exact Hdecorate|].
  destruct (pooled_label_requested a).
  - destruct Hlabel as (o & xy & xs & ys & x1 & m & Ho & Hxy & Hxs & Hys & Hx1 & Hfit
                        & [= -> ->]).
    now exists o, xy, xs, ys, x1, m.
  - now injection Hlabel as -> ->.
Qed.

Lemma when_Ok_inv (b : bool) (m : py F unit) (st st' : state F) :
  when b m st = (Ok tt, st') ->
  if b then m st = (Ok tt, st') else st' = st.
Proof. destruct b; cbn; [auto | now intros [= <-]]. Qed.

(** The band drawn when [add_universe_model_ci] is set and the pooled model
    has a positive order: on the rows sorted by x, the pooled prediction
    minus and plus the half-widths calc_ci computes from the sorted x, the
    sorted y and that prediction; the two edges are the last lines this
    part of the function draws. *)
Theorem band_is_calc_ci (a : scatter_args F) (ax : nat) (df : positive)
        (x y : string) (d : frame F) (o : Z)
        (universe : list (cell F) * list string) (st st' : state F) :
  heap st !! df = Some d ->
  full_sample_order a = Some o -> 0 < o -> add_universe_model_ci a = true ->
  universe_model a ax df x y st = (Ok universe, st') ->
  exists xy xs ys x1 reg_model y_model xf yf ci lower upper before,
    sort_values d x = Ok xy /\ column xy x = Ok xs /\ column xy y = Ok ys
    /\ get_ols_x xs o (fit_intercept a) = Ok x1 /\ ols_fit ys x1 = Ok reg_model
    /\ predict reg_model x1 = Ok y_model
    /\ as_floats xs = Ok xf /\ as_floats ys = Ok yf
    /\ calc_ci stats_t_ppf xf yf y_model = Ok ci
    /\ ci_lower y_model ci = Ok lower /\ ci_upper y_model ci = Ok upper
    /\ log st' = (log st ++ before
                  ++ [AxPlot ax xs lower "0.5" None "--";
                      AxPlot ax xs upper "0.5" None "--"])%list
    /\ Forall (fun c => is_ci_band c = false) before.
Proof.
  intros Hdf Horder Hpos Hci Hrun. unfold universe_model in Hrun.
  rewrite Horder, Hci in Hrun. apply Z.ltb_lt in Hpos. rewrite Hpos in Hrun.
  rewrite orb_true_r in Hrun. cbn [orb andb] in Hrun.
  inv_bind Hrun as d1 s1 Hget. apply get_frame_Ok_inv in Hget as [Hd1 ->].
  assert (d1 = d) by congruence. subst d1.
  inv_bind Hrun as cx s2 Hcx. apply lift_Ok_inv in Hcx as [_ ->].
  inv_bind Hrun as cy s3 Hcy. apply lift_Ok_inv in Hcy as [_ ->].
  inv_bind Hrun as xy s4 Hxy. apply lift_Ok_inv in Hxy as [Hxy ->].
  inv_bind Hrun as xs s5 Hxs. apply lift_Ok_inv in Hxs as [Hxs ->].
  inv_bind Hrun as ys s6 Hys. apply lift_Ok_inv in Hys as [Hys ->].
  inv_bind Hrun as x1 s7 Hx1. apply lift_Ok_inv in Hx1 as [Hx1 ->].
  inv_bind Hrun as reg_model s8 Hfit. apply lift_Ok_inv in Hfit as [Hfit ->].
  inv_bind Hrun as [] s9 Hpred.
  inv_bind Hrun as [] s10 Hband.
  assert (Hlast : log st' = log s10).
  { destruct (add_universe_model_label a); now injection Hrun as _ <-. }
  cbn [when] in Hband.
  inv_bind Hband as y_model s11 Hmodel. apply lift_Ok_inv in Hmodel as [Hmodel ->].
  inv_bind Hband as xf s12 Hxf. apply lift_Ok_inv in Hxf as [Hxf ->].
  inv_bind Hband as yf s13 Hyf. apply lift_Ok_inv in Hyf as [Hyf ->].
  inv_bind Hband as ci s14 Hcalc. apply lift_Ok_inv in Hcalc as [Hcalc ->].
  inv_bind Hband as lower s15 Hlower. apply lift_Ok_inv in Hlower as [Hlower ->].
  inv_bind Hband as [] s16 Hemit1. apply emit_Ok_inv in Hemit1.
  inv_bind Hband as upper s17 Hupper. apply lift_Ok_inv in Hupper as [Hupper ->].
  apply emit_Ok_inv in Hband.
  assert (Hbefore : exists before, log s9 = (log st ++ before)%list
                                   /\ Forall (fun c => is_ci_band c = false) before).
  { apply when_Ok_inv in Hpred. destruct (add_universe_model_prediction a).
    - inv_bind Hpred as prediction sp Hp. apply lift_Ok_inv in Hp as [_ ->].
      apply emit_Ok_inv in Hpred. eexists. split; [exact Hpred|].
      now repeat constructor.
    - subst s9. exists []. rewrite app_nil_r. now split. }
  destruct Hbefore as (before & Hlog9 & Hnone).
  exists xy, xs, ys, x1, reg_model, y_model, xf, yf, ci, lower, upper, before.
  repeat (split; [assumption|]). split; [|exact Hnone].
  rewrite Hlast, Hband, Hemit1, Hlog9, <- !app_assoc. reflexivity.
Qed.

End LegendFacts.

(** ** plot_classification_scatter: the column check *)

Section Classification.
Context {F : Type} {num : Float64 F} {M : Type} {lib : Delegates F M}.

(** plot_classification_scatter infers columns for a 2-column table only:
    on any other table, a missing [x_column] or [y_column] raises the
    ValueError of lines 266 and 271 before the table is classified or
    anything is drawn (plot_scatter would melt a wide table instead). *)
Theorem classification_needs_two_columns (c : classification_args F)
        (df : positive) (d : frame F) (st : state F) :
  heap st !! df = Some d ->
  length (columns d) <> 2%nat ->
  cls_x_column c = None \/ cls_y_column c = None ->
  plot_classification_scatter df c st
  = (Raise (ValueError ((if is_some (cls_x_column c) then "y_column" else "x_column")
                        ++ " is not defined for more than on columns")), st).
Proof.
  intros Hdf Hlen Hmissing. apply Nat.eqb_neq in Hlen.
  unfold plot_classification_scatter, bind, get_frame. rewrite Hdf, Hlen.
  destruct (cls_x_column c) as [x|]; [|reflexivity].
  destruct Hmissing as [Hx | Hy]; [discriminate|]. rewrite Hy. reflexivity.
Qed.

End Classification.

(** ** The per-group models reach the legend *)

Section GroupModels.
Context {F : Type} {num : Float64 F} {M : Type} {lib : Delegates F M}.

Lemma dict_set_keeps (models : list (cell F * M)) (k k2 : cell F) (v2 : M) :
  (exists m, dict_get models k = Ok m) ->
  exists m, dict_get (dict_set models k2 v2) k = Ok m.
Proof.
  induction models as [|[k' v'] models IH]; cbn [dict_get dict_set].
  - intros [m Hm]. discriminate.
  - destruct (cell_eqb k' k2); cbn [dict_get];
      destruct (cell_eqb k' k); eauto.
Qed.

Lemma dict_set_found (models : list (cell F * M)) (k : cell F) (v : M) :
  cell_eqb k k = true -> exists m, dict_get (dict_set models k v) k = Ok m.
Proof.
  intros Hk. induction models as [|[k' v'] models IH]; cbn [dict_get dict_set].
  - rewrite Hk. eauto.
  - destruct (cell_eqb k' k) eqn:Hk'; cbn [dict_get]; rewrite Hk'; eauto.
Qed.

Lemma plot_hue_groups_models (a : scatter_args F) (ax : nat) (df : positive)
      (x y hue : string) (palette : list string) (hue_ids : list (cell F)) :
  forall (idx : nat) (models r : list (cell F * M)) (st st' : state F),
    plot_hue_groups a ax df x y hue palette idx hue_ids models st = (Ok r, st') ->
    (forall k, (exists m, dict_get models k = Ok m) -> exists m, dict_get r k = Ok m)
    /\ (forall k, In k hue_ids -> cell_eqb k k = true -> exists m, dict_get r k = Ok m).
Proof.
  induction hue_ids as [|hue_id rest IH]; intros idx models r st st' Hrun.
  - cbn in Hrun. injection Hrun as <- _. split; [auto | intros k []].
  - cbn [plot_hue_groups] in Hrun.
    inv_bind Hrun as d1 st1 Hget.
    inv_bind Hrun as [[data xs] ys] st2 Hdata.
    inv_bind Hrun as x1 st3 Hdesign.
    inv_bind Hrun as reg_model st4 Hfit.
    inv_bind Hrun as color st5 Hcolor.
    inv_bind Hrun as [] st6 Hemit.
    inv_bind Hrun as [] st7 Hcurve.
    apply IH in Hrun as [Hkeep Hnew]. split.
    + intros k Hk. now apply Hkeep, dict_set_keeps.
    + intros k [<- | Hk] Hrefl.
      * now apply Hkeep, dict_set_found.
      * now apply Hnew.
Qed.

Lemma unique_subset (l : list (cell F)) (k : cell F) : In k (unique l) -> In k l.
Proof.
  induction l as [|c l IH]; cbn [unique]; [auto|].
  intros [-> | Hk]; [now left|].
  apply filter_In in Hk as [Hk _]. right. now apply IH.
Qed.

Lemma not_missing_refl (c : cell F) : is_missing c = false -> cell_eqb c c = true.
Proof.
  destruct c as [v|s|]; cbn; [|intros _; apply String.eqb_refl | discriminate].
  now intros Hv%negb_false_iff.
Qed.

Lemma column_complete (d : frame F) (h : string) (hue_col : list (cell F))
      (k : cell F) :
  complete_frame d = true -> column d h = Ok hue_col -> In k hue_col ->
  cell_eqb k k = true.
Proof.
  unfold column, complete_frame. intros Hd Hcol Hk.
  destruct (bool_decide (h ∈ columns d)) eqn:Hh; [|discriminate].
  apply bool_decide_eq_true in Hh. injection Hcol as <-.
  apply in_map_iff in Hk as (r & <- & Hr).
  rewrite forallb_forall in Hd. apply not_missing_refl.
  now apply complete_row_cell with (columns d); [apply Hd|].
Qed.

Lemma hue_legend_returns (a : scatter_args F) (df : positive) (hue : string)
      (label_models : bool) (models : list (cell F * M))
      (pairs : list (string * cell F)) :
  (forall p, In p pairs -> exists m, dict_get models (snd p) = Ok m) ->
  forall (labels : list (cell F)) (colors : list string) (st : state F) (d : frame F),
    heap st !! df = Some d -> hue ∈ columns d ->
    exists r st',
      hue_legend a df hue label_models models pairs labels colors st = (Ok r, st').
Proof.
  induction pairs as [|[color hue_id] rest IH]; intros Hfound labels colors st d Hdf Hhue.
  - cbn. eauto.
  - cbn [hue_legend]. unfold bind at 1, get_frame. rewrite Hdf.
    unfold bind at 1, lift at 1, set_where, column.
    rewrite (bool_decide_eq_true_2 _ Hhue). cbn [rbind].
    unfold bind at 1, put_frame.
    assert (Htext : exists text,
               group_label a label_models models hue_id = Ok text).
    { unfold group_label. destruct (0 <? order a); [|eauto].
      destruct label_models; [|eauto].
      destruct (Hfound (color, hue_id)) as [m Hm]; [now left|].
      cbn [snd] in Hm. rewrite Hm. cbn [rbind]. eauto. }
    destruct Htext as [text Htext].
    unfold bind at 1, lift at 1. rewrite Htext.
    eapply IH.
    + intros p Hp. apply Hfound. now right.
    + cbn [heap]. apply lookup_insert_eq.
    + cbn [columns]. destruct (bool_decide ("color" ∈ columns d)); [exact Hhue|].
      apply elem_of_app. now left.
Qed.


End GroupModels.

(** ** Wide tables (lines 68-72) *)

Section WideTable.
Context {F : Type} {num : Float64 F} {M : Type} {lib : Delegates F M}.

Lemma filter_filter_same {A : Type} (f : A -> bool) (l : list A) :
  List.filter f (List.filter f l) = List.filter f l.
Proof.
  induction l as [|v l IH]; cbn; [reflexivity|].
  destruct (f v) eqn:Hv; cbn; [rewrite Hv, IH|]; auto.
Qed.

Lemma unique_block (c : cell F) (n : nat) (l : list (cell F)) :
  cell_eqb c c = true ->
  unique (replicate (S n) c ++ l)
  = c :: List.filter (fun d => negb (cell_eqb d c)) (unique l).
Proof.
  intros Hc. induction n as [|n IH]; [reflexivity|].
  change (replicate (S (S n)) c ++ l)%list with (c :: (replicate (S n) c ++ l))%list.
  cbn [unique]. rewrite IH. cbn [List.filter]. rewrite Hc. cbn [negb].
  now rewrite filter_filter_same.
Qed.

Lemma filter_other_names (v : string) (vars : list string) :
  ~ In v vars ->
  List.filter (fun d : cell F => negb (cell_eqb d (Str v))) (map Str vars)
  = map Str vars.
Proof.
  induction vars as [|v' vars IH]; intros Hv; [reflexivity|].
  cbn [map List.filter cell_eqb].
  destruct (String.eqb v' v) eqn:Heq.
  - apply String.eqb_eq in Heq. subst. exfalso. apply Hv. now left.
  - cbn [negb]. rewrite IH; [reflexivity|]. intros Hin. apply Hv. now right.
Qed.

Lemma unique_blocks (n : nat) (vars : list string) :
  NoDup vars ->
  unique (flat_map (fun v => replicate (S n) (Str v : cell F)) vars) = map Str vars.
Proof.
  induction 1 as [|v vars Hv Hvars IH]; [reflexivity|].
  cbn [flat_map map]. rewrite unique_block by apply String.eqb_refl.
  rewrite IH, filter_other_names; [reflexivity|].
  intros Hin. apply Hv. now apply list_elem_of_In.
Qed.

(** The row of the melted table built from row [r] and value column [v]. *)
Lemma melt_row_cells (r : gmap string (cell F)) (x v value_name : string) :
  x <> "hue" -> value_name <> "hue" -> value_name <> x ->
  let row := <[value_name := row_get r v]>
               (<["hue" := Str v]> (<[x := row_get r x]> (∅ : gmap string (cell F)))) in
  row_get row "hue" = Str v /\ row_get row x = row_get r x
  /\ row_get row value_name = row_get r v.
Proof.
  intros Hx Hv Hvx row. unfold row. rewrite !row_get_insert.
  repeat match goal with
         | |- context [decide (?p = ?q)] => destruct (decide (p = q))
         end; try congruence; auto.
Qed.

Lemma melt_hue_column (d : frame F) (x value_name : string) (vars : list string) :
  x <> "hue" -> value_name <> "hue" -> value_name <> x ->
  map (fun row => row_get row "hue") (rows (melt d x vars "hue" value_name))
  = flat_map (fun v => replicate (length (rows d)) (Str v : cell F)) vars.
Proof.
  intros Hx Hv Hvx. cbn [melt rows].
  induction vars as [|v vars IH]; [reflexivity|].
  cbn [flat_map]. rewrite map_app, IH. f_equal.
  rewrite map_map. clear IH.
  induction (rows d) as [|r rs IHr]; [reflexivity|].
  cbn [map length replicate]. rewrite IHr.
  now destruct (melt_row_cells r x v value_name Hx Hv Hvx) as [-> _].
Qed.

Lemma melt_select (d : frame F) (x value_name v : string) (vars : list string) :
  x <> "hue" -> value_name <> "hue" -> value_name <> x ->
  NoDup vars -> In v vars ->
  List.filter (fun row => cell_eqb (row_get row "hue") (Str v))
              (rows (melt d x vars "hue" value_name))
  = map (fun r => <[value_name := row_get r v]>
                    (<["hue" := Str v]>
                       (<[x := row_get r x]> (∅ : gmap string (cell F)))))
        (rows d).
Proof.
  intros Hx Hv Hvx Hvars Hin. cbn [melt rows].
  assert (Hblock : forall v' : string,
             List.filter (fun row => cell_eqb (row_get row "hue") (Str v))
               (map (fun r => <[value_name := row_get r v']>
                                (<["hue" := Str v']>
                                   (<[x := row_get r x]> (∅ : gmap string (cell F)))))
                    (rows d))
             = if String.eqb v' v
               then map (fun r => <[value_name := row_get r v']>
                                    (<["hue" := Str v']>
                                       (<[x := row_get r x]>
                                          (∅ : gmap string (cell F)))))
                        (rows d)
               else []).
  { intros v'. induction (rows d) as [|r rs IHr]; [now destruct (String.eqb v' v)|].
    cbn [map List.filter].
    destruct (melt_row_cells r x v' value_name Hx Hv Hvx) as [-> _].
    cbn [cell_eqb]. rewrite IHr. now destruct (String.eqb v' v). }
  induction Hvars as [|v0 vars Hv0 Hvars IH]; [destruct Hin|].
  cbn [flat_map]. rewrite List.filter_app, Hblock.
  destruct Hin as [-> | Hin].
  - rewrite String.eqb_refl.
    assert (Hrest : List.filter (fun row => cell_eqb (row_get row "hue") (Str v))
                      (flat_map (fun v' =>
                         map (fun r => <[value_name := row_get r v']>
                                         (<["hue" := Str v']>
                                            (<[x := row_get r x]>
                                               (∅ : gmap string (cell F)))))
                             (rows d)) vars) = []).
    { clear IH Hvars. induction vars as [|v1 vars IHv]; [reflexivity|].
      cbn [flat_map]. rewrite List.filter_app, Hblock.
      assert (Hne : String.eqb v1 v = false).
      { apply String.eqb_neq. intros ->. apply Hv0. now left. }
      rewrite Hne. cbn [app]. apply IHv. intros Hin. apply Hv0. now right. }
    rewrite Hrest. apply app_nil_r.
  - assert (Hne : String.eqb v0 v = false).
    { apply String.eqb_neq. intros ->. apply Hv0. now apply list_elem_of_In. }
    rewrite Hne. cbn [app]. now apply IH.
Qed.

Lemma NoDup_filter_names (f : string -> bool) (l : list string) :
  NoDup l -> NoDup (List.filter f l).
Proof.
  induction 1 as [|v l Hv Hl IH]; cbn; [constructor|].
  destruct (f v); [|exact IH]. constructor; [|exact IH].
  intros Hin. apply Hv. apply list_elem_of_In in Hin. apply filter_In in Hin as [Hin _].
  now apply list_elem_of_In.
Qed.

(** A wide table: [x_column] is given, [y_column] is not, and the table
    does not have the 2 (or 3, with a group column) columns of the long
    form. The table is melted: y becomes [value_name], the group column
    becomes ['hue'] (a [hue] passed by the caller is replaced), every
    other column of the table is one group, in column order, and the
    points of a group are the x cells paired with the cells of its
    column. *)
Theorem wide_table_becomes_groups (a : scatter_args F) (d : frame F) (x : string) :
  x_column a = Some x -> y_column a = None -> two_or_three d (hue a) = false ->
  x ∈ columns d -> NoDup (columns d) -> rows d <> [] ->
  x <> "hue" -> value_name a <> "hue" -> value_name a ∉ columns d ->
  exists m,
    resolve a d = Ok (x, value_name a, Some "hue", Some m)
    /\ columns m = [x; "hue"; value_name a]
    /\ (try c := column m "hue" in Ok (unique c))
       = Ok (map Str (List.filter (fun c => negb (String.eqb c x)) (columns d)))
    /\ forall v, v ∈ columns d -> v <> x ->
         exists g, select_eq m "hue" (Str v) = Ok g
                   /\ column g x = column d x
                   /\ column g (value_name a) = column d v.
Proof.
  intros Hxcol Hycol Hshape Hx Hnodup Hrows Hxhue Hvhue Hvalue.
  assert (Hvx : value_name a <> x) by (intros Heq; apply Hvalue; now rewrite Heq).
  set (vars := List.filter (fun c => negb (String.eqb c x)) (columns d)).
  exists (melt d x vars "hue" (value_name a)).
  assert (Hhue_in : "hue" ∈ columns (melt d x vars "hue" (value_name a))).
  { cbn. apply list_elem_of_further, list_elem_of_here. }
  split.
  { unfold resolve. rewrite Hxcol, Hycol, Hshape. cbn [rbind].
    unfold columns_drop. now rewrite (bool_decide_eq_true_2 _ Hx). }
  split; [reflexivity|]. split.
  { unfold column at 1. rewrite (bool_decide_eq_true_2 _ Hhue_in). cbn [rbind].
    rewrite melt_hue_column by assumption.
    destruct (rows d) as [|r0 rs]; [contradiction|]. cbn [length].
    now rewrite unique_blocks by (apply NoDup_filter_names; exact Hnodup). }
  intros v Hv Hvne.
  assert (Hvars : In v vars).
  { apply filter_In. split; [now apply list_elem_of_In|].
    apply negb_true_iff. now apply String.eqb_neq. }
  unfold select_eq. unfold column at 1.
  rewrite (bool_decide_eq_true_2 _ Hhue_in). cbn [rbind].
  eexists. split; [reflexivity|].
  rewrite melt_select; try assumption; [|now apply NoDup_filter_names].
  unfold column. cbn [columns rows].
  rewrite (bool_decide_eq_true_2 _ Hx), (bool_decide_eq_true_2 _ Hv).
  rewrite bool_decide_eq_true_2 by apply list_elem_of_here.
  rewrite bool_decide_eq_true_2
    by (apply list_elem_of_further, list_elem_of_further, list_elem_of_here).
  rewrite !map_map. split; f_equal; apply map_ext; intros r.
  - now destruct (melt_row_cells r x v (value_name a) Hxhue Hvhue Hvx) as (_ & -> & _).
  - now destruct (melt_row_cells r x v (value_name a) Hxhue Hvhue Hvx) as (_ & _ & ->).
Qed.

End WideTable.

(** * The further properties on concrete tables *)


(** The default call on the five-point table. *)
Lemma formatting_follows_drawing_witness :
  exists drawing formatting axes labels colors,
    log (snd (plot_scatter 1%positive float_defaults (one_frame_state xy_frame)))
    = (log (one_frame_state xy_frame) ++ drawing ++ formatting)%list
    /\ Forall (fun c => is_formatting c = false) drawing
    /\ Forall (fun c => is_formatting c = true) formatting
    /\ legends formatting = [(labels, colors)]
    /\ last formatting = Some (QpSetSpines axes).
Proof.
  apply (formatting_follows_drawing (lib := float_delegates) float_defaults
           1%positive (Some 0%nat) (one_frame_state xy_frame)
           (snd (plot_scatter 1%positive float_defaults (one_frame_state xy_frame)))).
  vm_compute. reflexivity.
Defined.

(** Two groups and a palette of one color. *)
Lemma too_few_colors_raise_witness :
  exists e st',
    plot_scatter 1%positive
      (with_choices (with_hue float_defaults "g" 2) None (Some ["C0"]) false (Some 2))
      (one_frame_state grouped_frame) = (Raise e, st').
Proof.
  apply (too_few_colors_raise (lib := float_delegates)
           (with_choices (with_hue float_defaults "g" 2) None (Some ["C0"]) false (Some 2))
           1%positive grouped_frame (one_frame_state grouped_frame)
           "x" "y" "g" None
           [Str "a"; Str "b"; Str "a"; Str "b"; Str "a"; Str "b"] ["C0"]).
  - reflexivity.
  - vm_compute. reflexivity.
  - vm_compute. reflexivity.
  - reflexivity.
  - vm_compute. lia.
Defined.

(** The default call on the five-point table: one entry, of the pooled
    model. *)
Lemma ungrouped_legend_witness :
  exists axes labels legend_colors,
    In (QpSetLegend axes labels legend_colors (legend_loc float_defaults)
                    (fontsize float_defaults))
       (log (snd (plot_scatter 1%positive float_defaults (one_frame_state xy_frame))))
    /\ if pooled_label_requested float_defaults
       then exists o xy xs ys x1 reg_model,
           full_sample_order float_defaults = Some o
           /\ sort_values (dropna xy_frame) "x" = Ok xy
           /\ column xy "x" = Ok xs /\ column xy "y" = Ok ys
           /\ get_ols_x xs o (fit_intercept float_defaults) = Ok x1
           /\ ols_fit ys x1 = Ok reg_model
           /\ labels = [Str (full_sample_label float_defaults ++ " "
                             ++ reg_model_params_to_str reg_model o false
                                  (fit_intercept float_defaults))]
           /\ legend_colors = [color0 float_defaults]
       else labels = [] /\ legend_colors = [].
Proof.
  apply (ungrouped_legend (lib := float_delegates) float_defaults 1%positive xy_frame
           (Some 0%nat) (one_frame_state xy_frame)
           (snd (plot_scatter 1%positive float_defaults (one_frame_state xy_frame)))
           "x" "y").
  - reflexivity.
  - vm_compute. reflexivity.
  - vm_compute. reflexivity.
Defined.

(** The pooled model of the five-point table, with the band asked for. *)
Lemma band_is_calc_ci_witness :
  let a := with_choices float_defaults None None true (Some 2) in
  let st := one_frame_state xy_frame in
  exists xy xs ys x1 reg_model y_model xf yf ci lower upper before,
    sort_values xy_frame "x" = Ok xy /\ column xy "x" = Ok xs /\ column xy "y" = Ok ys
    /\ get_ols_x xs 2 (fit_intercept a) = Ok x1 /\ ols_fit ys x1 = Ok reg_model
    /\ predict reg_model x1 = Ok y_model
    /\ as_floats xs = Ok xf /\ as_floats ys = Ok yf
    /\ calc_ci stats_t_ppf xf yf y_model = Ok ci
    /\ ci_lower y_model ci = Ok lower /\ ci_upper y_model ci = Ok upper
    /\ log (snd (universe_model a 1 1%positive "x" "y" st))
       = (log st ++ before
          ++ [AxPlot 1 xs lower "0.5" None "--";
              AxPlot 1 xs upper "0.5" None "--"])%list
    /\ Forall (fun c => is_ci_band c = false) before.
Proof.
  intros a st.
  eapply (band_is_calc_ci (lib := float_delegates) a 1 1%positive "x" "y" xy_frame 2
            _ st (snd (universe_model a 1 1%positive "x" "y" st))).
  - reflexivity.
  - reflexivity.
  - lia.
  - reflexivity.
  - vm_compute. reflexivity.
Defined.


(** A table of four columns with [x_column='x']. *)
Lemma wide_table_becomes_groups_witness :
  let a := with_choices float_defaults (Some "x") None false (Some 2) in
  exists m,
    resolve a wide_frame = Ok ("x", value_name a, Some "hue", Some m)
    /\ columns m = ["x"; "hue"; value_name a]
    /\ (try c := column m "hue" in Ok (unique c))
       = Ok (map Str (List.filter (fun c => negb (String.eqb c "x"))
                                  (columns wide_frame)))
    /\ forall v, v ∈ columns wide_frame -> v <> "x" ->
         exists g, select_eq m "hue" (Str v) = Ok g
                   /\ column g "x" = column wide_frame "x"
                   /\ column g (value_name a) = column wide_frame v.
Proof.
  intros a.
  apply (wide_table_becomes_groups a wide_frame "x");
    try reflexivity; try discriminate.
  - apply list_elem_of_here.
  - repeat (constructor; [intros Hin; repeat (apply elem_of_cons in Hin as [Hin | Hin];
                                               [discriminate Hin|]);
                          inversion Hin|]).
    constructor.
  - intros Hin. repeat (apply elem_of_cons in Hin as [Hin | Hin]; [discriminate Hin|]).
    inversion Hin.
Defined.

(** The 5-column table and the default arguments of the wrapper. *)
Lemma classification_needs_two_columns_witness :
  plot_classification_scatter 1%positive default_classification
                              (one_frame_state five_column_frame)
  = (Raise (ValueError ((if is_some (cls_x_column default_classification)
                         then "y_column" else "x_column")
                        ++ " is not defined for more than on columns")),
     one_frame_state five_column_frame).
Proof.
  apply (classification_needs_two_columns (lib := float_delegates)
           default_classification 1%positive five_column_frame
           (one_frame_state five_column_frame)).
  - reflexivity.
  - discriminate.
  - now left.
Defined.

(** The five-point table with [full_sample_order = None]. *)
Lemma no_layer_without_order_witness :
  let a := with_choices float_defaults None None false None in
  exists new,
    log (snd (plot_scatter 1%positive a (one_frame_state xy_frame)))
    = (log (one_frame_state xy_frame) ++ new)%list
    /\ Forall (fun c => is_data_layer c = false /\ is_group_curve c = false
                        /\ is_ci_band c = false) new.
Proof.
  intros a.
  apply (no_layer_without_order (lib := float_delegates) a 1%positive xy_frame "x" "y"
           (one_frame_state xy_frame)).
  - reflexivity.
  - vm_compute. reflexivity.
  - reflexivity.
Defined.
(** ** get_random_data *)

Section RandomDataFacts.
Context {F : Type} {num : Float64 F}.

Lemma np_random_normal_length (loc scale : F) (n : Z) (g g' : generator) (l : list F) :
  np_random_normal loc scale n g = (Ok l, g') -> length l = Z.to_nat n.
Proof.
  unfold np_random_normal. destruct (n <? 0); [discriminate|].
  intros [= <- _]. now rewrite length_map, length_seq.
Qed.

Lemma zip_with_maps {A B C : Type} (op : A -> B -> C) (u : nat -> A) (v : nat -> B)
      (l : list nat) :
  zip_with op (map u l) (map v l) = map (fun k => op (u k) (v k)) l.
Proof. induction l as [|k l IH]; cbn; [reflexivity | now rewrite IH]. Qed.

Lemma repeat_as_map {A : Type} (v : A) (n start : nat) :
  repeat v n = map (fun _ => v) (seq start n).
Proof.
  revert start. induction n as [|n IH]; intros start; cbn; [reflexivity|].
  now rewrite (IH (S start)).
Qed.

Lemma concat_xy_maps (u v : nat -> F) (n : nat) :
  concat_xy (map u (seq 0 n)) (map v (seq 0 n))
  = Frame ["x"; "y"] (map (fun k => xy_row (Num (u k)) (Num (v k))) (seq 0 n)).
Proof.
  unfold concat_xy. rewrite !length_map, !length_seq, Nat.max_id. f_equal.
  apply map_ext_in. intros k Hk. apply in_seq in Hk.
  unfold series_cell. rewrite !list_lookup_fmap, !lookup_seq_lt by lia.
  reflexivity.
Qed.

Lemma insert_sorted_permutation (name : string) (r : gmap string (cell F))
      (l : list (gmap string (cell F))) :
  insert_sorted name r l ≡ₚ r :: l.
Proof.
  induction l as [|r' l IH]; cbn [insert_sorted]; [reflexivity|].
  destruct (cell_lt _ _); [reflexivity|].
  rewrite IH. apply Permutation_swap.
Qed.

Lemma sort_permutation (name : string) (l : list (gmap string (cell F))) :
  fold_right (insert_sorted name) [] l ≡ₚ l.
Proof.
  induction l as [|r l IH]; cbn [fold_right]; [reflexivity|].
  now rewrite insert_sorted_permutation, IH.
Qed.

(** The draws of one call, and what is left for the next. *)
Lemma get_random_data_unsorted (is_random_beta : bool) (n : Z) (g : generator) :
  0 <= n ->
  exists g',
    get_random_data is_random_beta n g
    = (sort_values
         (Frame ["x"; "y"]
                (map (drawn_row is_random_beta (Z.to_nat n) g) (seq 0 (Z.to_nat n))))
         "x", g')
    /\ forall k,
         g' k = g ((if is_random_beta then 3 else 2) * Z.to_nat n + k)%nat.
Proof.
  intros Hn. unfold get_random_data, random_beta, np_random_normal, np_ones.
  destruct (Z.ltb_spec n 0); [lia|].
  set (N := Z.to_nat n).
  assert (Hlen : forall (u : nat -> F), length (map u (seq 0 N)) = N)
    by (intros u; now rewrite length_map, length_seq).
  destruct is_random_beta.
  - eexists. split.
    + rewrite List.map_map. unfold broadcast2 at 1.
      rewrite !Hlen, Nat.eqb_refl, zip_with_maps.
      unfold broadcast2 at 1. rewrite !Hlen, Nat.eqb_refl, zip_with_maps.
      cbn [rbind]. unfold broadcast2 at 1.
      rewrite !Hlen, Nat.eqb_refl, zip_with_maps.
      cbn [rbind]. rewrite concat_xy_maps. reflexivity.
    + intros k. cbn beta. f_equal. lia.
  - eexists. split.
    + rewrite (repeat_as_map _ N 0).
      unfold broadcast2 at 1. rewrite !Hlen, Nat.eqb_refl, zip_with_maps.
      cbn [rbind]. unfold broadcast2 at 1.
      rewrite !Hlen, Nat.eqb_refl, zip_with_maps.
      cbn [rbind]. rewrite concat_xy_maps. reflexivity.
    + intros k. cbn beta. f_equal. lia.
Qed.


End RandomDataFacts.

Section RandomDataReals.

Lemma insert_sorted_x (r : gmap string (cell R)) (v : R)
      (l : list (gmap string (cell R))) (vs : list R) :
  has_x r v -> Forall2 has_x l vs -> Sorted.Sorted Rle vs ->
  exists ws,
    Forall2 has_x (insert_sorted "x" r l) ws /\ Sorted.Sorted Rle ws
    /\ forall b, Sorted.HdRel Rle b vs -> (b <= v)%R -> Sorted.HdRel Rle b ws.
Proof.
  intros Hr Hl. revert v Hr. induction Hl as [|r' u l vs Hr' Hl IH]; intros v Hr Hs.
  - exists [v]. cbn [insert_sorted]. repeat split; auto.
  - cbn [insert_sorted]. unfold has_x in Hr, Hr'. rewrite Hr, Hr'. cbn [cell_lt f_lt exact_reals].
    unfold Rltb. destruct (Rlt_dec v u) as [Hlt | Hge].
    + exists (v :: u :: vs). split; [constructor; [exact Hr | constructor; assumption]|].
      split; [constructor; [exact Hs | constructor; lra]|].
      intros b _ Hb. now constructor.
    + apply Sorted.Sorted_inv in Hs as [Hs Hhd].
      destruct (IH v Hr Hs) as (ws & Hws & Hsorted & Hhead).
      exists (u :: ws). split; [constructor; assumption|].
      split; [constructor; [exact Hsorted | apply Hhead; [exact Hhd | lra]]|].
      intros b Hb _. apply Sorted.HdRel_inv in Hb. now constructor.
Qed.

Lemma sort_x (l : list (gmap string (cell R))) (vs : list R) :
  Forall2 has_x l vs ->
  exists ws,
    Forall2 has_x (fold_right (insert_sorted "x") [] l) ws /\ Sorted.Sorted Rle ws.
Proof.
  induction 1 as [|r v l vs Hr Hl (ws & Hws & Hsorted)]; cbn [fold_right].
  - exists []. split; constructor.
  - destruct (insert_sorted_x r v _ ws Hr Hws Hsorted) as (ws' & Hws' & Hsorted' & _).
    eauto.
Qed.

Lemma xy_row_get (x y : cell R) :
  row_get (xy_row x y) "x" = x /\ row_get (xy_row x y) "y" = y.
Proof. split; reflexivity. Qed.



End RandomDataReals.
(** ** generate_strategy_factsheet *)

Section FactsheetRun.
Import Factsheet.
Variable raises : list event -> string -> list (string * arg) -> option exn.

Lemma run_app (steps more : list step) (st : state) :
  run raises (steps ++ more) st
  = match run raises steps st with
    | (Ok _, st1) => run raises more st1
    | (Raise e, st1) => (Raise e, st1)
    end.
Proof.
  revert st. induction steps as [|s steps IH]; intros st; cbn [run app]; [reflexivity|].
  destruct (exec raises s st) as [[[]|e] st1]; [apply IH | reflexivity].
Qed.

Lemma exec_never (s : step) (st st' : state) :
  exec raises s st = (Ok tt, st') -> exec never s st = (Ok tt, st').
Proof.
  destruct s; cbn [exec]; try exact (fun H => H);
    unfold library_call, never.
  - destruct (raises (log st) target args); [discriminate | exact (fun H => H)].
  - destruct (ax st); [|discriminate].
    destruct (raises (log st) target args); [discriminate | exact (fun H => H)].
Qed.

Lemma run_never (steps : list step) (st st' : state) :
  run raises steps st = (Ok tt, st') -> run never steps st = (Ok tt, st').
Proof.
  revert st. induction steps as [|s steps IH]; intros st; cbn [run]; [exact (fun H => H)|].
  destruct (exec raises s st) as [[[]|e] st1] eqn:Hs; [|discriminate].
  intros Hrun. rewrite (exec_never _ _ _ Hs). now apply IH.
Qed.

(** An exception of a run is raised by a library call, or it is raised
    when no library call raises. *)
Lemma raise_source (steps : list step) (e : exn) (st st' : state) :
  run raises steps st = (Raise e, st') ->
  (exists target args, raises (log st') target args = Some e)
  \/ exists st'', run never steps st = (Raise e, st'').
Proof.
  revert st. induction steps as [|s steps IH]; intros st; cbn [run]; [discriminate|].
  destruct (exec raises s st) as [[[]|e1] st1] eqn:Hs.
  - intros Hrun. rewrite (exec_never _ _ _ Hs). now apply IH.
  - intros [= -> ->]. destruct s; cbn [exec] in *; unfold library_call, never in *.
    + destruct (raises (log st) target args) as [e1|] eqn:Hr; [|discriminate].
      injection Hs as -> <-. left. eauto.
    + destruct (ax st); [|right; eauto].
      destruct (raises (log st) target args) as [e1|] eqn:Hr; [|discriminate].
      injection Hs as -> <-. left. eauto.
    + discriminate.
    + right. destruct (fig st); [discriminate | eauto].
    + right. rewrite Hs. eauto.
    + right. rewrite Hs. eauto.
    + right. rewrite Hs. eauto.
    + right. rewrite Hs. eauto.
    + right. rewrite Hs. eauto.
Qed.

(** A library that never raises is the one of [never]. *)
Lemma run_quiet (steps : list step) (st : state) :
  (forall history target args, raises history target args = None) ->
  run raises steps st = run never steps st.
Proof.
  intros Hquiet. revert st. induction steps as [|s steps IH]; intros st; cbn [run];
    [reflexivity|].
  assert (Hs : exec raises s st = exec never s st).
  { destruct s; cbn [exec]; unfold library_call, never; rewrite ?Hquiet; reflexivity. }
  rewrite Hs. destruct (exec never s st) as [[[]|e] st1]; [apply IH | reflexivity].
Qed.

End FactsheetRun.

Section FactsheetLayout.
Import Factsheet.

(** When no library call raises, the log so far plays no part. *)
Lemma exec_never_log (s : step) (lg l : list event) (n : nat) (f : option nat)
      (g : option (Z * Z)) (a : option nat) (fs : list nat) :
  exec never s (State (lg ++ l) n f g a fs)
  = (fst (exec never s (State l n f g a fs)),
     let st := snd (exec never s (State l n f g a fs)) in
     State (lg ++ log st) (next_id st) (fig st) (gs st) (ax st) (figs st)).
Proof.
  destruct s; unfold exec, library_call, never, logged;
    cbn [log next_id fig gs ax figs fst snd];
    repeat match goal with
           | |- context [match ?x with _ => _ end] => destruct x
           end;
    cbn [fst snd log next_id fig gs ax figs]; rewrite <- ?app_assoc; reflexivity.
Qed.

Lemma run_never_log (steps : list step) (lg : list event) :
  forall (l : list event) (n : nat) (f : option nat) (g : option (Z * Z))
         (a : option nat) (fs : list nat),
    run never steps (State (lg ++ l) n f g a fs)
    = (fst (run never steps (State l n f g a fs)),
       let st := snd (run never steps (State l n f g a fs)) in
       State (lg ++ log st) (next_id st) (fig st) (gs st) (ax st) (figs st)).
Proof.
  induction steps as [|s steps IH]; intros l n f g a fs; cbn [run]; [reflexivity|].
  rewrite exec_never_log.
  destruct (exec never s (State l n f g a fs)) as [[[]|e] [l1 n1 f1 g1 a1 fs1]];
    cbn [fst snd log next_id fig gs ax figs]; [apply IH | reflexivity].
Qed.

(** The run from a state, in terms of the run from the same state with an
    empty log. *)
Lemma run_never_fresh (steps : list step) (st : state) :
  run never steps st
  = (fst (run never steps (State [] (next_id st) (fig st) (gs st) (ax st) (figs st))),
     let st1 := snd (run never steps
                       (State [] (next_id st) (fig st) (gs st) (ax st) (figs st))) in
     State (log st ++ log st1) (next_id st1) (fig st1) (gs st1) (ax st1) (figs st1)).
Proof.
  destruct st as [lg n f g a fs]. cbn [log next_id fig gs ax figs].
  pose proof (run_never_log steps lg [] n f g a fs) as Hlog.
  rewrite app_nil_r in Hlog. exact Hlog.
Qed.

End FactsheetLayout.

Ltac exec_cases Hs :=
  unfold Factsheet.exec, Factsheet.library_call, Factsheet.logged in Hs;
  repeat match type of Hs with
         | context [match ?x with _ => _ end] => destruct x eqn:?
         end;
  injection Hs as <- <-;
  cbn [Factsheet.log Factsheet.next_id Factsheet.fig Factsheet.gs Factsheet.ax
       Factsheet.figs].

Ltac exec_cases_ok Hs :=
  unfold Factsheet.exec, Factsheet.library_call, Factsheet.logged in Hs;
  repeat match type of Hs with
         | context [match ?x with _ => _ end] => destruct x eqn:?
         end;
  try discriminate Hs;
  injection Hs as <-;
  cbn [Factsheet.log Factsheet.next_id Factsheet.fig Factsheet.gs Factsheet.ax
       Factsheet.figs].

Section FactsheetPages.
Import Factsheet.
Variable raises : list event -> string -> list (string * arg) -> option exn.

(** The log grows; figures and subplots are numbered from the counter. *)
Lemma exec_from_figure (s : step) (st st' : state) (r : result unit) (bound : nat) :
  exec raises s st = (r, st') ->
  (bound <= next_id st)%nat ->
  (forall g, fig st = Some g -> (bound <= g)%nat) ->
  exists new,
    log st' = (log st ++ new)%list
    /\ Forall (from_figure bound) new
    /\ (next_id st <= next_id st')%nat
    /\ (forall g, fig st' = Some g -> (bound <= g)%nat).
Proof.
  intros Hs Hb Hfig.
  destruct s; exec_cases Hs.
  all: eexists; (split; [first [reflexivity | symmetry; apply app_nil_r]|]).
  all: split; [first [apply List.Forall_nil
                     | apply List.Forall_cons;
                       [cbn; first [exact I | lia | apply Hfig; first [assumption | reflexivity]]
                       | apply List.Forall_nil]]|].
  all: split; [lia|].
  all: intros g' Hg; first [apply Hfig; congruence | injection Hg as <-; exact Hb].
Qed.

Lemma run_from_figure (steps : list step) :
  forall (st st' : state) (r : result unit) (bound : nat),
    run raises steps st = (r, st') ->
    (bound <= next_id st)%nat ->
    (forall g, fig st = Some g -> (bound <= g)%nat) ->
    exists new,
      log st' = (log st ++ new)%list /\ Forall (from_figure bound) new.
Proof.
  induction steps as [|s steps IH]; intros st st' r bound Hrun Hb Hfig; cbn [run] in Hrun.
  - injection Hrun as <- <-. exists []. now rewrite app_nil_r.
  - destruct (exec raises s st) as [[[]|e] st1] eqn:Hs.
    + destruct (exec_from_figure _ _ _ _ bound Hs Hb Hfig) as (n1 & L1 & F1 & Hid & Hfig1).
      destruct (IH _ _ _ bound Hrun ltac:(lia) Hfig1) as (n2 & L2 & F2).
      exists (n1 ++ n2)%list. rewrite L2, L1, app_assoc. split; [reflexivity|].
      now apply Forall_app.
    + injection Hrun as <- <-.
      destruct (exec_from_figure _ _ _ _ bound Hs Hb Hfig) as (n1 & L1 & F1 & _).
      now exists n1.
Qed.

(** Such a statement adds nothing to a figure. *)
Lemma exec_numbers_nothing (s : step) (st st' : state) (r : result unit) :
  numbers_nothing s ->
  exec raises s st = (r, st') ->
  exists new,
    log st' = (log st ++ new)%list
    /\ (forall bound, Forall (from_figure bound) new)
    /\ next_id st' = next_id st.
Proof.
  intros Hquiet Hs. destruct s; try contradiction; exec_cases Hs.
  all: eexists; (split; [first [reflexivity | symmetry; apply app_nil_r]|]).
  all: split; [|reflexivity].
  all: intros bound;
    first [apply List.Forall_nil
          | apply List.Forall_cons; [exact I | apply List.Forall_nil]].
Qed.

(** Statements that create their figure before their first subplot add
    subplots to new figures only. *)
Lemma run_fresh_start (steps : list step) :
  forall (st st' : state) (r : result unit),
    fresh_start steps = true ->
    run raises steps st = (r, st') ->
    exists new,
      log st' = (log st ++ new)%list /\ Forall (from_figure (next_id st)) new.
Proof.
  induction steps as [|s steps IH]; intros st st' r Hfresh Hrun; cbn [run] in Hrun.
  - injection Hrun as <- <-. exists []. now rewrite app_nil_r.
  - assert (Hkind : s = Figure \/ numbers_nothing s /\ fresh_start steps = true).
    { destruct s; cbn in Hfresh |- *; auto; discriminate. }
    destruct Hkind as [-> | [Hquiet Hrest]].
    + cbn [exec] in Hrun.
      destruct (run_from_figure steps _ _ _ (next_id st) Hrun) as (n2 & L2 & F2);
        cbn [next_id fig]; [lia | intros g [= <-]; lia |].
      cbn [log] in L2. eexists. split; [rewrite L2, <- app_assoc; reflexivity|].
      apply Forall_app. split; [|exact F2].
      apply List.Forall_cons; [cbn; lia | apply List.Forall_nil].
    + destruct (exec raises s st) as [[[]|e] st1] eqn:Hs.
      * destruct (exec_numbers_nothing _ _ _ _ Hquiet Hs) as (n1 & L1 & F1 & Hid).
        destruct (IH _ _ _ Hrest Hrun) as (n2 & L2 & F2).
        exists (n1 ++ n2)%list. rewrite L2, L1, app_assoc. split; [reflexivity|].
        apply Forall_app. split; [apply F1 | now rewrite <- Hid].
      * injection Hrun as <- <-.
        destruct (exec_numbers_nothing _ _ _ _ Hquiet Hs) as (n1 & L1 & F1 & Hid).
        exists n1. split; [exact L1 | apply F1].
Qed.

(** [figs] follows the figures created, phase by phase. *)
Lemma exec_phase (s : step) (st st' : state) (p q : phase) (created : list nat) :
  advance p s = Some q ->
  exec raises s st = (Ok tt, st') ->
  in_phase p created st ->
  exists new,
    log st' = (log st ++ new)%list
    /\ in_phase q (created ++ figures new) st'
    /\ length (figures new) = count_figures [s].
Proof.
  intros Hadv Hs Hin.
  destruct s, p; cbn [advance] in Hadv; try discriminate Hadv;
    injection Hadv as <-; exec_cases_ok Hs.
  all: eexists; (split; [first [reflexivity | symmetry; apply app_nil_r]|]).
  all: split; [|reflexivity].
  all: cbn [figures flat_map app in_phase figs fig] in *; rewrite ?app_nil_r.
  all: try assumption.
  all: try (destruct Hin as (f0 & -> & Hf0); first [now exists f0 | congruence]).
  all: try (subst created; eauto).
  all: destruct Hin as (f0 & -> & Hf0); exists f0; split; [reflexivity | congruence].
Qed.

Lemma run_phase (steps : list step) :
  forall (st st' : state) (p q : phase) (created : list nat),
    advance_all p steps = Some q ->
    run raises steps st = (Ok tt, st') ->
    in_phase p created st ->
    exists new,
      log st' = (log st ++ new)%list
      /\ in_phase q (created ++ figures new) st'
      /\ length (figures new) = count_figures steps.
Proof.
  induction steps as [|s steps IH]; intros st st' p q created Hadv Hrun Hin;
    cbn [advance_all run] in *.
  - injection Hadv as <-. injection Hrun as <-. exists [].
    cbn. rewrite !app_nil_r. auto.
  - destruct (advance p s) as [p1|] eqn:Hstep; [|discriminate].
    destruct (exec raises s st) as [[[]|e] st1] eqn:Hs; [|discriminate].
    destruct (exec_phase _ _ _ _ _ _ Hstep Hs Hin) as (n1 & L1 & P1 & C1).
    destruct (IH _ _ _ _ _ Hadv Hrun P1) as (n2 & L2 & P2 & C2).
    exists (n1 ++ n2)%list. rewrite L2, L1, app_assoc. split; [reflexivity|].
    unfold figures in *. rewrite flat_map_app, app_assoc, length_app.
    split; [exact P2|]. rewrite C1, C2. unfold count_figures. cbn [List.filter].
    destruct s; reflexivity.
Qed.

Lemma advance_all_app (p : phase) (steps more : list step) :
  advance_all p (steps ++ more)
  = match advance_all p steps with
    | Some q => advance_all q more
    | None => None
    end.
Proof.
  revert p. induction steps as [|s steps IH]; intros p; cbn [advance_all app];
    [reflexivity|].
  destruct (advance p s); [apply IH | reflexivity].
Qed.

Lemma count_figures_app (steps more : list step) :
  count_figures (steps ++ more) = (count_figures steps + count_figures more)%nat.
Proof. unfold count_figures. now rewrite List.filter_app, length_app. Qed.

(** The rows of a grouped figure leave [fig] and [figs] alone. *)
Lemma rows_keep_figures (row : nat -> string -> list step) (groups : list string) :
  (forall idx group, forallb keeps_figures (row idx group) = true) ->
  forall idx, forallb keeps_figures (enumerate_from idx row groups) = true.
Proof.
  intros Hrow. induction groups as [|group rest IH]; intros idx; cbn [enumerate_from];
    [reflexivity|].
  rewrite forallb_app, Hrow, IH. reflexivity.
Qed.

Lemma keeps_figures_phase (steps : list step) (p : phase) :
  forallb keeps_figures steps = true ->
  advance_all p steps = Some p /\ count_figures steps = 0%nat.
Proof.
  induction steps as [|s steps IH]; cbn [forallb advance_all]; [auto|].
  intros [Hs Hrest]%andb_true_iff. destruct (IH Hrest) as [IH1 IH2].
  unfold count_figures in *. cbn [List.filter].
  destruct s, p; cbn in Hs |- *; try discriminate Hs; auto.
Qed.

End FactsheetPages.

Section FactsheetFirstPage.
Import Factsheet.

Lemma tiles_check_sound (nrows ncols : Z) (cells : list (Z * Z * (Z * Z))) :
  tiles_check nrows ncols cells = true -> tiles nrows ncols cells.
Proof.
  unfold tiles_check, tiles, upto. intros Hcheck r c Hr Hc.
  rewrite forallb_forall in Hcheck.
  assert (Hin : forall n v, 0 <= v < n -> In v (map Z.of_nat (seq 0 (Z.to_nat n)))).
  { intros n v Hv. apply in_map_iff. exists (Z.to_nat v). split; [lia|].
    apply in_seq. lia. }
  specialize (Hcheck r (Hin _ _ Hr)). rewrite forallb_forall in Hcheck.
  specialize (Hcheck c (Hin _ _ Hc)). now apply Nat.eqb_eq in Hcheck.
Qed.

(** The first figure, when no library call raises: it is created and
    listed, and its subplots partition its grid of 14 by 4. *)
Lemma first_page_run (i : inputs) (o : options) (b : string) (n : nat)
      (f : option nat) (g : option (Z * Z)) (a : option nat) (fs : list nat) :
  exists st1,
    run never (left_column i o b ++ right_column i o b) (State [] n f g a fs)
    = (Ok tt, st1)
    /\ fig st1 = Some n /\ figs st1 = [n] /\ (n < next_id st1)%nat
    /\ sheet n 14 4 (subplots n (log st1)) (log st1)
    /\ tiles_check 14 4 (subplots n (log st1)) = true
    /\ disjoint_check 14 4 (subplots n (log st1)) = true.
Proof.
  unfold left_column, right_column, select_benchmark, perf_tables.
  destruct (add_all_benchmarks_to_nav_figure o), (exposures_freq o), (is_grouped i).
  all: eexists; split; [vm_compute; reflexivity|].
  all: cbn [fig figs next_id log]; split; [reflexivity|]; split; [reflexivity|].
  all: split; [lia|].
  all: unfold sheet, subplots, grids, figures; cbn [flat_map app];
    rewrite !Nat.eqb_refl; cbn [app].
  all: split; [|split; vm_compute; reflexivity].
  all: split; [reflexivity|]; split; [reflexivity|]; split; [reflexivity|].
  all: repeat (apply List.Forall_cons; [first [exact I | reflexivity]|]);
    apply List.Forall_nil.
Qed.

(** The figures after the first are created before anything is added to
    them. *)
Lemma later_sheets_fresh (i : inputs) (o : options) :
  fresh_start (risk_sheet i o ++ exposures_sheet i o ++ pnl_sheet i o) = true.
Proof.
  unfold risk_sheet, exposures_sheet, pnl_sheet, grouped_sheet, grouped_period.
  destruct (add_var_risk_sheet o); [reflexivity|].
  destruct (add_grouped_exposures o); [now destruct (is_1y_exposures o)|].
  destruct (add_grouped_cum_pnl o); [now destruct (is_1y_exposures o)|].
  reflexivity.
Qed.

Lemma nothing_from_later (bound f : nat) (new : list event) :
  Forall (from_figure bound) new -> (f < bound)%nat ->
  subplots f new = [] /\ grids f new = [].
Proof.
  intros Hall Hf. induction Hall as [|e new He _ [IH1 IH2]]; [split; reflexivity|].
  unfold subplots, grids in *. cbn [flat_map]. rewrite IH1, IH2, !app_nil_r.
  destruct e; cbn in He |- *; auto;
    (destruct (Nat.eqb_spec fig0 f); [lia | auto]).
Qed.

End FactsheetFirstPage.

Section FactsheetOutcome.
Import Factsheet.

Lemma normalize_index (idx : nat) (size : Z) :
  Z.of_nat idx < size ->
  normalize (GsIndex (Z.of_nat idx)) size = Ok (Z.of_nat idx, Z.of_nat idx).
Proof.
  intros Hidx. unfold normalize.
  destruct (Z.ltb_spec (Z.of_nat idx) 0); [lia|].
  destruct (Z.leb_spec 0 (Z.of_nat idx)); [|lia].
  destruct (Z.ltb_spec (Z.of_nat idx) size); [reflexivity | lia].
Qed.

Lemma run_cons_ok (s : step) (rest : list step) (st st1 : state) :
  exec never s st = (Ok tt, st1) -> run never (s :: rest) st = run never rest st1.
Proof. intros Hs. cbn [run]. now rewrite Hs. Qed.

Lemma exec_invoke (target : string) (args : list (string * arg)) (lg : list event)
      (n : nat) (f : option nat) (g : option (Z * Z)) (a : option nat) (fs : list nat) :
  exec never (Invoke target args) (State lg n f g a fs)
  = (Ok tt, State (lg ++ [LibraryCall target None args]) n f g a fs).
Proof. reflexivity. Qed.

Lemma exec_draw (target : string) (args : list (string * arg)) (lg : list event)
      (n : nat) (f : option nat) (g : option (Z * Z)) (a : nat) (fs : list nat) :
  exec never (Draw target args) (State lg n f g (Some a) fs)
  = (Ok tt, State (lg ++ [LibraryCall target (Some a) args]) n f g (Some a) fs).
Proof. reflexivity. Qed.

Lemma exec_figure (lg : list event) (n : nat) (f : option nat) (g : option (Z * Z))
      (a : option nat) (fs : list nat) :
  exec never Figure (State lg n f g a fs)
  = (Ok tt, State (lg ++ [NewFigure n]) (S n) (Some n) g a fs).
Proof. reflexivity. Qed.

Lemma exec_append (lg : list event) (n f : nat) (g : option (Z * Z))
      (a : option nat) (fs : list nat) :
  exec never AppendFig (State lg n (Some f) g a fs)
  = (Ok tt, State lg n (Some f) g a (fs ++ [f])).
Proof. reflexivity. Qed.

Lemma exec_suptitle (text : string) (lg : list event) (n f : nat)
      (g : option (Z * Z)) (a : option nat) (fs : list nat) :
  exec never (Suptitle text) (State lg n (Some f) g a fs)
  = (Ok tt, State (lg ++ [SetSuptitle f text]) n (Some f) g a fs).
Proof. reflexivity. Qed.

Lemma exec_gridspec (k m : Z) (lg : list event) (n f : nat) (g : option (Z * Z))
      (a : option nat) (fs : list nat) :
  0 < k -> 0 < m ->
  exec never (Gridspec k m) (State lg n (Some f) g a fs)
  = (Ok tt, State (lg ++ [NewGridspec f k m]) n (Some f) (Some (k, m)) a fs).
Proof.
  intros Hk Hm. cbn [exec fig].
  destruct (Z.leb_spec k 0); [lia|]. destruct (Z.leb_spec m 0); [lia|]. reflexivity.
Qed.

Lemma exec_subplot_index (idx col : nat) (lg : list event) (n f : nat) (k m : Z)
      (a : option nat) (fs : list nat) :
  Z.of_nat idx < k -> Z.of_nat col < m ->
  exec never (Subplot (GsIndex (Z.of_nat idx)) (GsIndex (Z.of_nat col)))
       (State lg n (Some f) (Some (k, m)) a fs)
  = (Ok tt,
     State (lg ++ [NewSubplot f n (Z.of_nat idx) (Z.of_nat idx)
                              (Z.of_nat col) (Z.of_nat col)])
           (S n) (Some f) (Some (k, m)) (Some n) fs).
Proof.
  intros Hidx Hcol. cbn [exec fig gs]. now rewrite !normalize_index.
Qed.

Ltac run_steps :=
  repeat (erewrite run_cons_ok;
          [|first [apply exec_invoke | apply exec_draw | apply exec_figure
                  | apply exec_append | apply exec_suptitle
                  | apply exec_gridspec; cbn; lia
                  | apply exec_subplot_index; cbn; lia]]).

Ltac all_of_figure :=
  repeat (apply List.Forall_cons; [first [exact I | reflexivity]|]);
  apply List.Forall_nil.

(** One row of a grouped figure, when no library call raises: its two
    subplots are added to the figure, in the two cells of row [idx]. *)
Lemma row_run (row : nat -> string -> list step) (idx : nat) (group : string)
      (lg : list event) (n f : nat) (k : Z) (a : option nat) (fs : list nat) :
  row = exposure_row \/ row = pnl_row ->
  Z.of_nat idx < k ->
  exists new,
    run never (row idx group) (State lg n (Some f) (Some (k, 2)) a fs)
    = (Ok tt, State (lg ++ new) (S (S n)) (Some f) (Some (k, 2)) (Some (S n)) fs)
    /\ subplots f new = row_cells idx 1
    /\ grids f new = [] /\ figures new = [] /\ Forall (of_figure f) new.
Proof.
  intros Hrow Hidx.
  destruct Hrow as [-> | ->]; unfold exposure_row, pnl_row, regime_shadows, set_spines;
    cbn [flat_map app fst snd]; run_steps; cbn [run];
    rewrite <- !app_assoc; cbn [app];
    (eexists; split; [reflexivity|]);
    unfold subplots, grids, figures, row_cells; cbn [flat_map app seq map];
    rewrite !Nat.eqb_refl;
    (split; [reflexivity|]; split; [reflexivity|]; split; [reflexivity|]);
    all_of_figure.
Qed.

Lemma row_cells_step (start count : nat) :
  row_cells start (S count) = (row_cells start 1 ++ row_cells (S start) count)%list.
Proof. reflexivity. Qed.

Lemma rows_run (row : nat -> string -> list step) (groups : list string) :
  row = exposure_row \/ row = pnl_row ->
  forall (idx : nat) (lg : list event) (n f : nat) (k : Z) (a : option nat)
         (fs : list nat),
    Z.of_nat (idx + length groups) <= k ->
    exists new n' a',
      run never (enumerate_from idx row groups)
          (State lg n (Some f) (Some (k, 2)) a fs)
      = (Ok tt, State (lg ++ new) n' (Some f) (Some (k, 2)) a' fs)
      /\ subplots f new = row_cells idx (length groups)
      /\ grids f new = [] /\ figures new = [] /\ (n <= n')%nat
      /\ Forall (of_figure f) new.
Proof.
  intros Hrow. induction groups as [|group rest IH]; intros idx lg n f k a fs Hk.
  - exists [], n, a. cbn. rewrite app_nil_r. repeat split; auto.
  - cbn [enumerate_from length]. rewrite row_cells_step.
    destruct (row_run row idx group lg n f k a fs Hrow)
      as (new1 & Hrun1 & S1 & G1 & F1 & O1);
      [cbn [length] in Hk; lia|].
    destruct (IH (S idx) (lg ++ new1)%list (S (S n)) f k (Some (S n)) fs)
      as (new2 & n' & a' & Hrun2 & S2 & G2 & F2 & Hn & O2);
      [cbn [length] in Hk; lia|].
    exists (new1 ++ new2)%list, n', a'.
    rewrite run_app, Hrun1, Hrun2, app_assoc.
    unfold subplots, grids, figures in *. rewrite !flat_map_app, S1, S2, G1, G2, F1, F2.
    repeat split; auto; [lia | now apply Forall_app].
Qed.

(** *** Cells *)

Lemma coverage_cons (cell : Z * Z * (Z * Z)) (cells : list (Z * Z * (Z * Z))) (r c : Z) :
  coverage (cell :: cells) r c
  = ((if covers cell r c then 1 else 0) + coverage cells r c)%nat.
Proof. unfold coverage. cbn [List.filter]. now destruct (covers cell r c). Qed.

Lemma coverage_app (cells more : list (Z * Z * (Z * Z))) (r c : Z) :
  coverage (cells ++ more) r c = (coverage cells r c + coverage more r c)%nat.
Proof. unfold coverage. now rewrite List.filter_app, length_app. Qed.

(** The cells of the rows [start], ..., [start + count - 1] of two
    columns cover each of their positions once, and no other. *)
Lemma coverage_row_cells (count : nat) :
  forall (start : nat) (r c : Z),
    coverage (row_cells start count) r c
    = if (Z.of_nat start <=? r) && (r <? Z.of_nat (start + count))
         && ((c =? 0) || (c =? 1))
      then 1%nat else 0%nat.
Proof.
  induction count as [|count IH]; intros start r c.
  - cbn [row_cells seq map flat_map coverage List.filter length].
    destruct (Z.leb_spec (Z.of_nat start) r), (Z.ltb_spec r (Z.of_nat (start + 0)));
      cbn [andb]; try reflexivity; lia.
  - rewrite row_cells_step, coverage_app, IH.
    unfold row_cells. cbn [seq map flat_map app].
    rewrite !coverage_cons. unfold covers, coverage. cbn [fst snd List.filter length].
    destruct (Z.leb_spec (Z.of_nat start) r), (Z.leb_spec r (Z.of_nat start)),
      (Z.leb_spec (Z.of_nat (S start)) r), (Z.ltb_spec r (Z.of_nat (S start + count))),
      (Z.ltb_spec r (Z.of_nat (start + S count))),
      (Z.leb_spec 0 c), (Z.leb_spec c 0), (Z.leb_spec 1 c), (Z.leb_spec c 1),
      (Z.eqb_spec c 0), (Z.eqb_spec c 1);
      cbn [andb orb Nat.add]; try reflexivity; lia.
Qed.

Lemma row_cells_tile (count : nat) : tiles (Z.of_nat count) 2 (row_cells 0 count).
Proof.
  intros r c Hr Hc. rewrite coverage_row_cells.
  destruct (Z.leb_spec (Z.of_nat 0) r), (Z.ltb_spec r (Z.of_nat (0 + count))),
    (Z.eqb_spec c 0), (Z.eqb_spec c 1); cbn [andb orb]; try reflexivity; lia.
Qed.

Lemma row_cells_disjoint (start count : nat) : disjoint_cells (row_cells start count).
Proof.
  intros r c. rewrite coverage_row_cells.
  destruct (_ && _ && _); lia.
Qed.

Lemma outside_uncovered (nrows ncols : Z) (cells : list (Z * Z * (Z * Z))) (r c : Z) :
  forallb (within nrows ncols) cells = true ->
  ~ (0 <= r < nrows /\ 0 <= c < ncols) ->
  coverage cells r c = 0%nat.
Proof.
  intros Hin Hout. induction cells as [|cell cells IH]; [reflexivity|].
  cbn [forallb] in Hin. apply andb_true_iff in Hin as [Hcell Hrest].
  rewrite coverage_cons, (IH Hrest).
  unfold within in Hcell. unfold covers.
  destruct (Z.leb_spec 0 (fst (fst cell))), (Z.ltb_spec (snd (fst cell)) nrows),
    (Z.leb_spec 0 (fst (snd cell))), (Z.ltb_spec (snd (snd cell)) ncols);
    try discriminate Hcell.
  destruct (Z.leb_spec (fst (fst cell)) r), (Z.leb_spec r (snd (fst cell))),
    (Z.leb_spec (fst (snd cell)) c), (Z.leb_spec c (snd (snd cell)));
    cbn [andb]; try reflexivity; lia.
Qed.

Lemma disjoint_check_sound (nrows ncols : Z) (cells : list (Z * Z * (Z * Z))) :
  disjoint_check nrows ncols cells = true -> disjoint_cells cells.
Proof.
  unfold disjoint_check. intros [Hin Hcheck]%andb_true_iff r c.
  destruct (Z.le_gt_cases 0 r), (Z.lt_ge_cases r nrows), (Z.le_gt_cases 0 c),
    (Z.lt_ge_cases c ncols);
    try (rewrite (outside_uncovered nrows ncols cells r c Hin); lia).
  rewrite forallb_forall in Hcheck.
  assert (Hmem : forall n v, 0 <= v < n -> In v (upto n)).
  { intros n v Hv. apply in_map_iff. exists (Z.to_nat v). split; [lia|].
    apply in_seq. lia. }
  specialize (Hcheck r (Hmem nrows r ltac:(lia))). rewrite forallb_forall in Hcheck.
  specialize (Hcheck c (Hmem ncols c ltac:(lia))). now apply Nat.leb_le in Hcheck.
Qed.

Lemma disjoint_nil : disjoint_cells [].
Proof. intros r c. cbn. lia. Qed.

(** *** The events of one figure among those of the others *)

Lemma other_figure (n f : nat) (new : list event) :
  Forall (of_figure n) new -> f <> n ->
  subplots f new = [] /\ grids f new = [].
Proof.
  intros Hall Hf. induction Hall as [|e new He _ [IH1 IH2]]; [split; reflexivity|].
  unfold subplots, grids in *. cbn [flat_map]. rewrite IH1, IH2, !app_nil_r.
  destruct e; cbn in He |- *; auto;
    (destruct (Nat.eqb_spec fig0 f); [congruence | auto]).
Qed.

Lemma part_subplots (enabled : bool) (n f : nat) (nrows ncols : Z)
      (cells : list (Z * Z * (Z * Z))) (new : list event) :
  part enabled n nrows ncols cells new ->
  subplots f new = (if enabled && (f =? n)%nat then cells else [])
  /\ grids f new = (if enabled && (f =? n)%nat then [(nrows, ncols)] else [])
  /\ figures new = (if enabled then [n] else []).
Proof.
  destruct enabled; cbn [part andb].
  - intros (Hfigs & Hgrid & Hcells & Hall).
    destruct (Nat.eqb_spec f n) as [-> | Hne]; [auto|].
    destruct (other_figure n f new Hall Hne) as [-> ->]. auto.
  - intros ->. auto.
Qed.

(** *** The figures one by one *)

Lemma run_never_at (steps : list step) (lg : list event) (n : nat) (f : option nat)
      (g : option (Z * Z)) (a : option nat) (fs : list nat)
      (r : result unit) (st1 : state) :
  run never steps (State [] n f g a fs) = (r, st1) ->
  run never steps (State lg n f g a fs)
  = (r, State (lg ++ log st1) (next_id st1) (fig st1) (gs st1) (ax st1) (figs st1)).
Proof.
  intros Hrun. rewrite (run_never_fresh steps (State lg n f g a fs)).
  cbn [log next_id fig gs ax figs]. now rewrite Hrun.
Qed.

Lemma first_page_outcome (i : inputs) (o : options) (b : string) (lg : list event)
      (n : nat) (f : option nat) (g : option (Z * Z)) (a : option nat) (fs : list nat) :
  exists new n' f' g' a' cells,
    run never (left_column i o b ++ right_column i o b) (State lg n f g a fs)
    = (Ok tt, State (lg ++ new) n' f' g' a' (figures new))
    /\ (n < n')%nat
    /\ sheet n 14 4 cells new /\ tiles 14 4 cells /\ disjoint_cells cells.
Proof.
  destruct (first_page_run i o b n f g a fs)
    as (st1 & Hrun & _ & Hfigs & Hid & Hsheet & Htiles & Hdisjoint).
  exists (log st1), (next_id st1), (fig st1), (gs st1), (ax st1),
         (subplots n (log st1)).
  rewrite (run_never_at _ lg _ _ _ _ _ _ _ Hrun).
  destruct Hsheet as (Hcreated & Hrest). rewrite Hcreated, Hfigs.
  split; [reflexivity|]. split; [exact Hid|].
  split; [split; assumption|].
  split; [now apply tiles_check_sound | now apply (disjoint_check_sound 14 4)].
Qed.

Lemma coverage_check_sound (nrows ncols : Z) (cells : list (Z * Z * (Z * Z)))
      (expected : Z -> Z -> nat) (r c : Z) :
  coverage_check nrows ncols cells expected = true ->
  coverage cells r c
  = if (0 <=? r) && (r <? nrows) && (0 <=? c) && (c <? ncols)
    then expected r c else 0%nat.
Proof.
  unfold coverage_check. intros [Hin Hcheck]%andb_true_iff.
  destruct (Z.leb_spec 0 r), (Z.ltb_spec r nrows), (Z.leb_spec 0 c),
    (Z.ltb_spec c ncols); cbn [andb];
    try (rewrite (outside_uncovered nrows ncols cells r c Hin); [reflexivity | lia]).
  rewrite forallb_forall in Hcheck.
  assert (Hmem : forall n v, 0 <= v < n -> In v (upto n)).
  { intros n v Hv. apply in_map_iff. exists (Z.to_nat v). split; [lia|].
    apply in_seq. lia. }
  specialize (Hcheck r (Hmem nrows r ltac:(lia))). rewrite forallb_forall in Hcheck.
  specialize (Hcheck c (Hmem ncols c ltac:(lia))). now apply Nat.eqb_eq in Hcheck.
Qed.

(** The figure of the VaR and risk profile, when no library call raises. *)
Lemma risk_sheet_run (i : inputs) (o : options) (n : nat)
      (f : option nat) (g : option (Z * Z)) (a : option nat) (fs : list nat) :
  add_var_risk_sheet o = true ->
  exists st1,
    run never (risk_sheet i o) (State [] n f g a fs) = (Ok tt, st1)
    /\ figs st1 = (fs ++ [n])%list /\ (n < next_id st1)%nat
    /\ sheet n 14 4 (subplots n (log st1)) (log st1)
    /\ disjoint_check 14 4 (subplots n (log st1)) = true
    /\ coverage_check 14 4 (subplots n (log st1))
         (risk_expected (1 <? length (benchmark_columns i))%nat) = true.
Proof.
  intros Hon. unfold risk_sheet, second_benchmark. rewrite Hon.
  destruct (1 <? length (benchmark_columns i))%nat.
  all: eexists; split; [vm_compute; reflexivity|].
  all: cbn [fig figs next_id log]; split; [reflexivity|].
  all: split; [lia|].
  all: unfold sheet, subplots, grids, figures; cbn [flat_map app];
    rewrite !Nat.eqb_refl; cbn [app].
  all: split; [|split; vm_compute; reflexivity].
  all: split; [reflexivity|]; split; [reflexivity|]; split; [reflexivity|].
  all: all_of_figure.
Qed.

Lemma risk_sheet_outcome (i : inputs) (o : options) (lg : list event)
      (n : nat) (f : option nat) (g : option (Z * Z)) (a : option nat) (fs : list nat) :
  exists new n' f' g' a' cells,
    run never (risk_sheet i o) (State lg n f g a fs)
    = (Ok tt, State (lg ++ new) n' f' g' a' (fs ++ figures new))
    /\ (n <= n')%nat /\ (add_var_risk_sheet o = true -> (n < n')%nat)
    /\ part (add_var_risk_sheet o) n 14 4 cells new /\ disjoint_cells cells
    /\ (add_var_risk_sheet o = true -> risk_layout i cells).
Proof.
  destruct (add_var_risk_sheet o) eqn:Hon.
  - destruct (risk_sheet_run i o n f g a fs Hon)
      as (st1 & Hrun & Hfigs & Hid & Hsheet & Hdisjoint & Hcover).
    exists (log st1), (next_id st1), (fig st1), (gs st1), (ax st1),
           (subplots n (log st1)).
    rewrite (run_never_at _ lg _ _ _ _ _ _ _ Hrun).
    destruct Hsheet as (Hcreated & Hrest). rewrite Hcreated, Hfigs.
    split; [reflexivity|]. split; [lia|]. split; [intros _; exact Hid|].
    split; [split; assumption|].
    split; [now apply (disjoint_check_sound 14 4)|].
    intros _ r c. now apply coverage_check_sound.
  - exists [], n, f, g, a, []. unfold risk_sheet. rewrite Hon.
    cbn [run figures flat_map part]. rewrite !app_nil_r.
    repeat split; auto using disjoint_nil; discriminate.
Qed.

(** A figure with one row per group, when no library call raises: with no
    group, its grid of no row is refused; otherwise it gets two subplots
    per group. *)
Lemma grouped_sheet_outcome (i : inputs) (o : options) (enabled : bool)
      (getter title : string) (groups : list string)
      (row : nat -> string -> list step) (lg : list event)
      (n : nat) (f : option nat) (g : option (Z * Z)) (a : option nat) (fs : list nat) :
  row = exposure_row \/ row = pnl_row ->
  (enabled = true /\ groups = []
   /\ exists st1,
        run never (grouped_sheet i o enabled getter title groups row)
            (State lg n f g a fs)
        = (Raise (ValueError "Number of rows must be a positive integer, not 0"), st1))
  \/ ((enabled = true -> groups <> [])
      /\ exists new n' f' g' a',
           run never (grouped_sheet i o enabled getter title groups row)
               (State lg n f g a fs)
           = (Ok tt, State (lg ++ new) n' f' g' a' (fs ++ figures new))
           /\ (n <= n')%nat /\ (enabled = true -> (n < n')%nat)
           /\ part enabled n (Z.of_nat (length groups)) 2
                   (row_cells 0 (length groups)) new).
Proof.
  intros Hrow. destruct enabled.
  2:{ right. split; [discriminate|]. exists [], n, f, g, a.
      cbn [grouped_sheet run figures flat_map part]. rewrite !app_nil_r.
      repeat split; auto. discriminate. }
  destruct groups as [|group rest].
  - left. split; [reflexivity|]. split; [reflexivity|].
    unfold grouped_sheet, grouped_period.
    destruct (is_1y_exposures o); eexists; vm_compute; reflexivity.
  - right. split; [discriminate|].
    set (groups := group :: rest).
    assert (Hk : 0 < Z.of_nat (length groups)) by (cbn [groups length]; lia).
    assert (Hrows : forall lg1 a1 fs1,
               exists new n' a',
                 run never (enumerate_from 0 row groups)
                     (State lg1 (S n) (Some n) (Some (Z.of_nat (length groups), 2)) a1 fs1)
                 = (Ok tt, State (lg1 ++ new) n' (Some n)
                                 (Some (Z.of_nat (length groups), 2)) a' fs1)
                 /\ subplots n new = row_cells 0 (length groups)
                 /\ grids n new = [] /\ figures new = [] /\ (S n <= n')%nat
                 /\ Forall (of_figure n) new).
    { intros lg1 a1 fs1. apply (rows_run row groups Hrow 0%nat). lia. }
    unfold grouped_sheet, grouped_period, shifted_period, update_kwargs.
    destruct (is_1y_exposures o); cbn [app]; run_steps.
    all: match goal with
         | |- context [run never _ (State ?lg1 _ _ _ ?a1 ?fs1)] =>
             destruct (Hrows lg1 a1 fs1) as (new & n' & a' & Hrun & S1 & G1 & F1 & Hn & O1)
         end.
    all: rewrite Hrun, <- !app_assoc; cbn [app].
    all: eexists _, n', (Some n), _, a'.
    all: (split; [f_equal; f_equal; unfold figures; cbn [flat_map app];
                  fold (figures new); rewrite F1; reflexivity|]).
    all: split; [lia|]; split; [intros _; lia|].
    all: cbn [part]; unfold sheet, subplots, grids, figures in *; cbn [flat_map app];
      rewrite ?Nat.eqb_refl, S1, G1, F1; cbn [app].
    all: split; [reflexivity|]; split; [reflexivity|]; split; [reflexivity|].
    all: repeat (apply List.Forall_cons; [first [exact I | reflexivity]|]); exact O1.
Qed.

End FactsheetOutcome.

Section FactsheetStatements.
Import Factsheet.

Lemma regime_column_outcome (i : inputs) (o : options) :
  (regime_column i o = Raise IndexError
   /\ regime_benchmark o = None /\ benchmark_columns i = [])
  \/ ((exists b, regime_column i o = Ok b)
      /\ (regime_benchmark o <> None \/ benchmark_columns i <> [])).
Proof.
  unfold regime_column. destruct (regime_benchmark o) as [b|].
  - right. split; [now exists b | left; discriminate].
  - destruct (benchmark_columns i) as [|c rest].
    + left. auto.
    + right. split; [now exists c | right; discriminate].
Qed.

(** The statements of the function, when no library call raises: they
    stop at [columns[0]] of no column or at the grid of no row, or they
    run to the end and leave the figures of [layout]. *)
Lemma statements_outcome (i : inputs) (o : options) (st : state) :
  (exists e st1,
      run never (statements i o) st = (Raise e, st1)
      /\ (no_benchmark i o e \/ no_group i o e))
  \/ (exists st1 new,
         run never (statements i o) st = (Ok tt, st1)
         /\ log st1 = (log st ++ new)%list
         /\ figs st1 = figures new
         /\ layout i o (next_id st) new).
Proof.
  destruct st as [lg n f g a fs]. cbn [log next_id].
  unfold statements, reindex. erewrite run_cons_ok; [|apply exec_invoke].
  destruct (regime_column_outcome i o) as [(Hcol & Hnone & Hempty) | ((b & Hcol) & _)];
    rewrite Hcol.
  { left. eexists _, _. split; [reflexivity|]. left. repeat split; assumption. }
  rewrite app_assoc, run_app.
  destruct (first_page_outcome i o b (lg ++ [LibraryCall "benchmark_prices.reindex" None
              [pass "index" "portfolio_data.nav.index"; pass "method" "'ffill'"]])%list
              n f g a fs)
    as (page & c1 & f1 & g1 & a1 & cells0 & Hrun1 & Hc1 & Hpage & Htiles & Hdisj0).
  rewrite Hrun1, run_app.
  match goal with
  | |- context [run never (risk_sheet i o) (State ?lg1 _ _ _ _ ?fs1)] =>
      destruct (risk_sheet_outcome i o lg1 c1 f1 g1 a1 fs1)
        as (risk & c2 & f2 & g2 & a2 & cells1 & Hrun2 & Hc2 & Hc2' & Hrisk & Hdisj1 & Hlay1)
  end.
  rewrite Hrun2, run_app. unfold exposures_sheet, pnl_sheet.
  match goal with
  | |- context [run never (grouped_sheet i o _ ?getter ?title _ exposure_row)
                    (State ?lg1 _ _ _ _ ?fs1)] =>
      destruct (grouped_sheet_outcome i o (add_grouped_exposures o) getter title
                  (exposure_groups i) exposure_row lg1 c2 f2 g2 a2 fs1)
        as [(Hon & Hnone & st1 & Hrun3)
           | (_ & exps & c3 & f3 & g3 & a3 & Hrun3 & Hc3 & Hc3' & Hexps)];
        [now left|..]
  end.
  { left. rewrite Hrun3. eexists _, _. split; [reflexivity|]. right.
    split; [reflexivity | left; split; assumption]. }
  rewrite Hrun3.
  match goal with
  | |- context [run never (grouped_sheet i o _ ?getter ?title _ pnl_row)
                    (State ?lg1 _ _ _ _ ?fs1)] =>
      destruct (grouped_sheet_outcome i o (add_grouped_cum_pnl o) getter title
                  (pnl_groups i) pnl_row lg1 c3 f3 g3 a3 fs1)
        as [(Hon & Hnone & st1 & Hrun4)
           | (_ & pnls & c4 & f4 & g4 & a4 & Hrun4 & Hc4 & Hc4' & Hpnls)];
        [now right|..]
  end.
  { left. rewrite Hrun4. eexists _, _. split; [reflexivity|]. right.
    split; [reflexivity | right; split; assumption]. }
  right. rewrite Hrun4. eexists _, _. split; [reflexivity|]. cbn [log figs].
  split; [rewrite <- !app_assoc; reflexivity|].
  split.
  { unfold figures. cbn [flat_map app]. rewrite !flat_map_app, !app_assoc. reflexivity. }
  eexists _, _, page, risk, exps, pnls, c1, c2, c3, cells0, cells1.
  split; [reflexivity|].
  split; [repeat split; auto; lia|].
  repeat (split; [assumption|]). assumption.
Qed.

(** The subplots, the grids and the figures of the events of [layout],
    from those of each figure. *)
Lemma parts_apart (f n0 n1 n2 n3 : nat) (var exp pnl : bool)
      (target : string) (args : list (string * arg))
      (page risk exps pnls : list event)
      (cells0 cells1 cells2 cells3 : list (Z * Z * (Z * Z))) (k2 k3 : Z) :
  sheet n0 14 4 cells0 page ->
  part var n1 14 4 cells1 risk ->
  part exp n2 k2 2 cells2 exps ->
  part pnl n3 k3 2 cells3 pnls ->
  let new := (LibraryCall target None args :: page ++ risk ++ exps ++ pnls)%list in
  subplots f new
  = ((if (f =? n0)%nat then cells0 else [])
     ++ (if var && (f =? n1)%nat then cells1 else [])
     ++ (if exp && (f =? n2)%nat then cells2 else [])
     ++ (if pnl && (f =? n3)%nat then cells3 else []))%list
  /\ grids f new
     = ((if (f =? n0)%nat then [(14, 4)] else [])
        ++ (if var && (f =? n1)%nat then [(14, 4)] else [])
        ++ (if exp && (f =? n2)%nat then [(k2, 2)] else [])
        ++ (if pnl && (f =? n3)%nat then [(k3, 2)] else []))%list
  /\ figures new
     = (n0 :: (if var then [n1] else []) ++ (if exp then [n2] else [])
           ++ (if pnl then [n3] else []))%list.
Proof.
  intros H0 H1 H2 H3 new.
  destruct (part_subplots true n0 f 14 4 cells0 page H0) as (S0 & G0 & F0).
  destruct (part_subplots var n1 f 14 4 cells1 risk H1) as (S1 & G1 & F1).
  destruct (part_subplots exp n2 f k2 2 cells2 exps H2) as (S2 & G2 & F2).
  destruct (part_subplots pnl n3 f k3 2 cells3 pnls H3) as (S3 & G3 & F3).
  cbn [andb] in S0, G0. subst new. unfold subplots, grids, figures in *.
  cbn [flat_map app]. rewrite !flat_map_app, S0, S1, S2, S3, G0, G1, G2, G3,
    F0, F1, F2, F3.
  repeat split; reflexivity.
Qed.

End FactsheetStatements.

Section FactsheetTheorems.
Import Factsheet.
Variable raises : list event -> string -> list (string * arg) -> option exn.

Lemma run_reindex (oracle : list event -> string -> list (string * arg) -> option exn)
      (rest : list step) (st st' : state) :
  run oracle (reindex :: rest) st = (Ok tt, st') ->
  exists target args,
    run oracle rest (logged st (LibraryCall target None args)) = (Ok tt, st').
Proof.
  cbn [run reindex exec]. unfold library_call.
  destruct (oracle _ _ _); [discriminate | eauto].
Qed.

Lemma first_page_phase (i : inputs) (o : options) (b : string) :
  advance_all Before (left_column i o b ++ right_column i o b) = Some Listed
  /\ count_figures (left_column i o b ++ right_column i o b) = 1%nat.
Proof.
  unfold left_column, right_column, select_benchmark, perf_tables.
  destruct (add_all_benchmarks_to_nav_figure o), (exposures_freq o), (is_grouped i);
    split; reflexivity.
Qed.

Lemma risk_sheet_phase (i : inputs) (o : options) :
  advance_all Listed (risk_sheet i o) = Some Listed
  /\ count_figures (risk_sheet i o) = b2n (add_var_risk_sheet o).
Proof.
  unfold risk_sheet, second_benchmark.
  destruct (add_var_risk_sheet o); [|split; reflexivity].
  destruct (1 <? length (benchmark_columns i))%nat; split; reflexivity.
Qed.

Lemma grouped_sheet_phase (i : inputs) (o : options) (enabled : bool)
      (getter title : string) (groups : list string)
      (row : nat -> string -> list step) :
  (forall idx group, forallb keeps_figures (row idx group) = true) ->
  advance_all Listed (grouped_sheet i o enabled getter title groups row) = Some Listed
  /\ count_figures (grouped_sheet i o enabled getter title groups row) = b2n enabled.
Proof.
  intros Hrow. unfold grouped_sheet, grouped_period.
  destruct enabled; [|split; reflexivity].
  destruct (keeps_figures_phase _ Listed (rows_keep_figures row groups Hrow 0%nat))
    as [Hphase Hcount].
  rewrite advance_all_app, !count_figures_app, Hcount.
  destruct (is_1y_exposures o); cbn [advance_all advance shifted_period app];
    cbn [advance_all advance update_kwargs app]; rewrite Hphase;
    split; reflexivity.
Qed.

Lemma later_sheets_phase (i : inputs) (o : options) :
  advance_all Listed (risk_sheet i o ++ exposures_sheet i o ++ pnl_sheet i o)
  = Some Listed
  /\ count_figures (risk_sheet i o ++ exposures_sheet i o ++ pnl_sheet i o)
     = (b2n (add_var_risk_sheet o) + b2n (add_grouped_exposures o)
        + b2n (add_grouped_cum_pnl o))%nat.
Proof.
  destruct (risk_sheet_phase i o) as [P1 C1].
  destruct (grouped_sheet_phase i o (add_grouped_exposures o)
              "portfolio_data.get_grouped_long_short_exposures"
              " Exposures by groups for period " (exposure_groups i) exposure_row)
    as [P2 C2]; [reflexivity|].
  destruct (grouped_sheet_phase i o (add_grouped_cum_pnl o)
              "portfolio_data.get_grouped_cum_pnls"
              " P&L by groups for period " (pnl_groups i) pnl_row)
    as [P3 C3]; [reflexivity|].
  fold (exposures_sheet i o) in P2, C2. fold (pnl_sheet i o) in P3, C3.
  rewrite advance_all_app, P1, advance_all_app, P2, P3.
  rewrite !count_figures_app, C1, C2, C3.
  split; [reflexivity | lia].
Qed.

(** When the function returns, the subplots of the first figure of the
    list partition its grid of 14 rows and 4 columns: every position of
    the grid is in exactly one panel, whether the data is grouped (one
    performance table over two rows) or not (two tables of one row). *)
Theorem first_figure_tiles_its_grid (i : inputs) (o : options)
        (fs : list nat) (st st' : state) :
  generate_strategy_factsheet raises i o st = (Ok fs, st') ->
  exists f rest new,
    fs = f :: rest
    /\ log st' = (log st ++ new)%list
    /\ grid f new = Some (14, 4)
    /\ tiles 14 4 (subplots f new).
Proof.
  unfold generate_strategy_factsheet. intros Hrun.
  destruct (run raises (statements i o) st) as [[[]|e] st1] eqn:Hsteps; [|discriminate].
  injection Hrun as <- <-.
  apply run_never in Hsteps. unfold statements in Hsteps.
  apply run_reindex in Hsteps as (target & args & Hsteps).
  destruct (regime_column i o) as [b|e].
  2:{ cbn in Hsteps. discriminate. }
  rewrite app_assoc, run_app, run_never_fresh in Hsteps.
  match type of Hsteps with
  | context [run never _ (State [] ?n ?f ?g ?a ?fs)] =>
      destruct (first_page_run i o b n f g a fs)
        as (s1 & Hpage & Hfig & Hfigs & Hid & (_ & Hgrid & _ & _) & Htiles & _)
  end.
  rewrite Hpage in Hsteps. cbn [fst snd] in Hsteps.
  destruct (run_fresh_start never _ _ _ _ (later_sheets_fresh i o) Hsteps)
    as (later & Hlog & Hlater).
  destruct (run_phase never _ _ _ Listed Listed [next_id st]
              (proj1 (later_sheets_phase i o)) Hsteps)
    as (later' & Hlog' & Hlisted & _); [exact Hfigs|].
  rewrite Hlog in Hlog'. apply app_inv_head in Hlog'. subst later'.
  cbn [in_phase] in Hlisted.
  cbn [log next_id logged] in Hlog, Hlater, Hid, Hgrid, Htiles, Hfigs, Hlisted.
  destruct (nothing_from_later _ (next_id st) _ Hlater Hid) as [Hsub Hgrids].
  exists (next_id st), (figures later),
         ([LibraryCall target None args] ++ log s1 ++ later)%list.
  split; [exact Hlisted|].
  split; [rewrite Hlog, <- !app_assoc; reflexivity|].
  unfold grid, grids, subplots in *. rewrite !flat_map_app.
  cbn [flat_map app]. rewrite Hsub, Hgrids, !app_nil_r, Hgrid.
  split; [reflexivity | now apply tiles_check_sound].
Qed.

(** When the function returns, the list it returns holds the figures it
    created, in the order it created them: the factsheet, then the figure
    of the VaR and risk profile, the figure of the exposures by group and
    the figure of the P&L by group, each present when its option is set. *)
Theorem factsheet_returns_its_figures (i : inputs) (o : options)
        (fs : list nat) (st st' : state) :
  generate_strategy_factsheet raises i o st = (Ok fs, st') ->
  exists new,
    log st' = (log st ++ new)%list
    /\ fs = figures new
    /\ length fs = (1 + b2n (add_var_risk_sheet o) + b2n (add_grouped_exposures o)
                    + b2n (add_grouped_cum_pnl o))%nat.
Proof.
  unfold generate_strategy_factsheet. intros Hrun.
  destruct (run raises (statements i o) st) as [[[]|e] st1] eqn:Hsteps; [|discriminate].
  injection Hrun as <- <-.
  assert (Hshape : advance_all Before (statements i o) = Some Listed
                   /\ count_figures (statements i o)
                      = (1 + b2n (add_var_risk_sheet o) + b2n (add_grouped_exposures o)
                         + b2n (add_grouped_cum_pnl o))%nat).
  { unfold statements in *. destruct (regime_column i o) as [b|e].
    - destruct (first_page_phase i o b) as [P1 C1].
      destruct (later_sheets_phase i o) as [P2 C2].
      rewrite app_assoc.
      set (page := (left_column i o b ++ right_column i o b)%list) in *.
      set (later := (risk_sheet i o ++ exposures_sheet i o ++ pnl_sheet i o)%list) in *.
      change (advance_all Before (reindex :: page ++ later))
        with (advance_all Before (page ++ later)).
      change (count_figures (reindex :: page ++ later))
        with (count_figures (page ++ later)).
      rewrite advance_all_app, P1, P2, count_figures_app, C1, C2.
      split; [reflexivity | lia].
    - exfalso. cbn [run reindex exec] in Hsteps. unfold library_call in Hsteps.
      destruct (raises _ _ _); discriminate. }
  destruct Hshape as [Hphase Hcount].
  destruct (run_phase raises _ _ _ Before Listed [] Hphase Hsteps eq_refl)
    as (new & Hlog & Hlisted & Hlen).
  cbn [in_phase app] in Hlisted.
  exists new. split; [exact Hlog|]. split; [exact Hlisted|].
  now rewrite Hlisted, Hlen.
Qed.

Lemma returned_layout (i : inputs) (o : options) (fs : list nat) (st st' : state) :
  generate_strategy_factsheet raises i o st = (Ok fs, st') ->
  exists new,
    log st' = (log st ++ new)%list /\ fs = figures new
    /\ layout i o (next_id st) new.
Proof.
  unfold generate_strategy_factsheet. intros Hrun.
  destruct (run raises (statements i o) st) as [[[]|e] st1] eqn:Hsteps; [|discriminate].
  injection Hrun as <- <-. apply run_never in Hsteps.
  destruct (statements_outcome i o st)
    as [(e & s & Hr & _) | (s & new & Hr & Hlog & Hfigs & Hlay)];
    rewrite Hsteps in Hr; [discriminate|].
  injection Hr as <-. eauto.
Qed.

(** An exception of the function is the exception of one of the library
    calls it makes, raised after the calls of the log, or it is one of
    two: the IndexError of [benchmark_prices.columns[0]] (line 42) when
    no regime benchmark is given and the benchmark prices have no column,
    or the ValueError of a grid of no row (lines 346 and 374) when a
    figure by group is asked for and there is no group. *)
Theorem factsheet_exceptions (i : inputs) (o : options) (e : exn) (st st' : state) :
  generate_strategy_factsheet raises i o st = (Raise e, st') ->
  (exists target args, raises (log st') target args = Some e)
  \/ (e = IndexError /\ regime_benchmark o = None /\ benchmark_columns i = [])
  \/ (e = ValueError "Number of rows must be a positive integer, not 0"
      /\ (add_grouped_exposures o = true /\ exposure_groups i = []
          \/ add_grouped_cum_pnl o = true /\ pnl_groups i = [])).
Proof.
  unfold generate_strategy_factsheet. intros Hrun.
  destruct (run raises (statements i o) st) as [[[]|e1] st1] eqn:Hsteps; [discriminate|].
  injection Hrun as -> ->.
  destruct (raise_source raises _ _ _ _ Hsteps) as [Hlib | (st2 & Hnever)]; [now left|].
  right.
  destruct (statements_outcome i o st) as [(e2 & s & Hr & Hcause) | (s & new & Hr & _)];
    rewrite Hnever in Hr; [|discriminate].
  injection Hr as -> _. exact Hcause.
Qed.

(** When no library call raises, the benchmark prices have a column or a
    regime benchmark is given, and every figure by group that is asked
    for has a group, the function returns. *)
Theorem factsheet_returns_when_no_call_raises (i : inputs) (o : options) (st : state) :
  (forall history target args, raises history target args = None) ->
  (regime_benchmark o <> None \/ benchmark_columns i <> []) ->
  (add_grouped_exposures o = true -> exposure_groups i <> []) ->
  (add_grouped_cum_pnl o = true -> pnl_groups i <> []) ->
  exists fs st', generate_strategy_factsheet raises i o st = (Ok fs, st').
Proof.
  intros Hquiet Hbench Hexp Hpnl. unfold generate_strategy_factsheet.
  rewrite (run_quiet raises _ _ Hquiet).
  destruct (statements_outcome i o st)
    as [(e & s & Hr & [(_ & Hnone & Hempty) | (_ & [[Hon Hnone] | [Hon Hnone]])])
       | (s & new & Hr & _)]; rewrite Hr.
  - destruct Hbench; contradiction.
  - now apply Hexp in Hon.
  - now apply Hpnl in Hon.
  - eauto.
Qed.

(** When the function returns, the figure of the exposures by group and
    the figure of the P&L by group, where asked for, stand in the list
    after the factsheet and the figure of the VaR, and each has a grid of
    one row per group and two columns, with one subplot in every cell:
    row by row, the aggregated panel in column 0 and the panel by
    instrument in column 1. *)
Theorem grouped_figures_have_a_row_per_group (i : inputs) (o : options)
        (fs : list nat) (st st' : state) :
  generate_strategy_factsheet raises i o st = (Ok fs, st') ->
  exists new,
    log st' = (log st ++ new)%list
    /\ (add_grouped_exposures o = true ->
        exists f,
          fs !! (1 + b2n (add_var_risk_sheet o))%nat = Some f
          /\ grid f new = Some (Z.of_nat (length (exposure_groups i)), 2)
          /\ subplots f new = row_cells 0 (length (exposure_groups i))
          /\ tiles (Z.of_nat (length (exposure_groups i))) 2 (subplots f new))
    /\ (add_grouped_cum_pnl o = true ->
        exists f,
          fs !! (1 + b2n (add_var_risk_sheet o) + b2n (add_grouped_exposures o))%nat
          = Some f
          /\ grid f new = Some (Z.of_nat (length (pnl_groups i)), 2)
          /\ subplots f new = row_cells 0 (length (pnl_groups i))
          /\ tiles (Z.of_nat (length (pnl_groups i))) 2 (subplots f new)).
Proof.
  intros Hrun.
  destruct (returned_layout i o fs st st' Hrun) as (new & Hlog & Hfs & Hlay).
  destruct Hlay as (target & args & page & risk & exps & pnls & n1 & n2 & n3
                    & cells0 & cells1 & Hnew & (O1 & O2 & O3 & O4 & O5)
                    & H0 & _ & _ & H1 & _ & _ & H2 & H3).
  exists new. split; [exact Hlog|]. subst new fs. split; intros Hon.
  - exists n2.
    destruct (parts_apart n2 (next_id st) n1 n2 n3 _ _ _ target args _ _ _ _ _ _ _ _ _ _
                H0 H1 H2 H3) as (Hcells & Hgrids & Hfigs).
    cbn zeta in Hcells, Hgrids, Hfigs. unfold grid.
    rewrite Hcells, Hgrids, Hfigs, Hon, Nat.eqb_refl.
    specialize (O5 Hon).
    replace (n2 =? next_id st)%nat with false by (symmetry; apply Nat.eqb_neq; lia).
    replace (n2 =? n3)%nat with false by (symmetry; apply Nat.eqb_neq; lia).
    rewrite !andb_false_r.
    destruct (add_var_risk_sheet o).
    + replace (n2 =? n1)%nat with false
        by (symmetry; apply Nat.eqb_neq; specialize (O4 eq_refl); lia).
      cbn [andb app b2n]. rewrite !app_nil_r.
      repeat split; try reflexivity. apply row_cells_tile.
    + cbn [andb app b2n]. rewrite !app_nil_r.
      repeat split; try reflexivity. apply row_cells_tile.
  - exists n3.
    destruct (parts_apart n3 (next_id st) n1 n2 n3 _ _ _ target args _ _ _ _ _ _ _ _ _ _
                H0 H1 H2 H3) as (Hcells & Hgrids & Hfigs).
    cbn zeta in Hcells, Hgrids, Hfigs. unfold grid.
    rewrite Hcells, Hgrids, Hfigs, Hon, Nat.eqb_refl.
    replace (n3 =? next_id st)%nat with false by (symmetry; apply Nat.eqb_neq; lia).
    destruct (add_var_risk_sheet o), (add_grouped_exposures o);
      try (replace (n3 =? n1)%nat with false
            by (symmetry; apply Nat.eqb_neq; specialize (O4 eq_refl); lia));
      try (replace (n3 =? n2)%nat with false
            by (symmetry; apply Nat.eqb_neq; specialize (O5 eq_refl); lia));
      cbn [andb app b2n]; rewrite ?app_nil_r;
      (repeat split; try reflexivity); apply row_cells_tile.
Qed.

(** When the function returns, no two subplots of a figure overlap: no
    position of a grid is in two of the panels the function has added to
    one figure. *)
Theorem panels_never_overlap (i : inputs) (o : options)
        (fs : list nat) (st st' : state) :
  generate_strategy_factsheet raises i o st = (Ok fs, st') ->
  exists new,
    log st' = (log st ++ new)%list
    /\ forall f, disjoint_cells (subplots f new).
Proof.
  intros Hrun.
  destruct (returned_layout i o fs st st' Hrun) as (new & Hlog & Hfs & Hlay).
  destruct Hlay as (target & args & page & risk & exps & pnls & n1 & n2 & n3
                    & cells0 & cells1 & Hnew & (O1 & O2 & O3 & O4 & O5)
                    & H0 & _ & Hd0 & H1 & Hd1 & _ & H2 & H3).
  exists new. split; [exact Hlog|]. intros f. subst new.
  destruct (parts_apart f (next_id st) n1 n2 n3 _ _ _ target args _ _ _ _ _ _ _ _ _ _
              H0 H1 H2 H3) as (Hcells & _).
  cbn zeta in Hcells. rewrite Hcells.
  destruct (add_var_risk_sheet o), (add_grouped_exposures o), (add_grouped_cum_pnl o),
    (Nat.eqb_spec f (next_id st)), (Nat.eqb_spec f n1), (Nat.eqb_spec f n2),
    (Nat.eqb_spec f n3);
    cbn [andb app]; rewrite ?app_nil_r;
    first [assumption | apply disjoint_nil | apply row_cells_disjoint
          | exfalso; try specialize (O4 eq_refl); try specialize (O5 eq_refl); lia].
Qed.

(** When the function returns with the figure of the VaR and risk
    profile, that figure is the second of the list, its grid has 14 rows
    and 4 columns, and its panels fill the first eight rows only: with one
    benchmark column, the right half of rows 2-3 and 6-7, where the panels
    of the second benchmark would be, stays empty as well. *)
Theorem risk_figure_fills_eight_rows (i : inputs) (o : options)
        (fs : list nat) (st st' : state) :
  generate_strategy_factsheet raises i o st = (Ok fs, st') ->
  add_var_risk_sheet o = true ->
  exists f new,
    log st' = (log st ++ new)%list
    /\ fs !! 1%nat = Some f
    /\ grid f new = Some (14, 4)
    /\ forall r c,
         coverage (subplots f new) r c
         = if (0 <=? r) && (r <? 14) && (0 <=? c) && (c <? 4)
           then risk_expected (1 <? length (benchmark_columns i))%nat r c
           else 0%nat.
Proof.
  intros Hrun Hon.
  destruct (returned_layout i o fs st st' Hrun) as (new & Hlog & Hfs & Hlay).
  destruct Hlay as (target & args & page & risk & exps & pnls & n1 & n2 & n3
                    & cells0 & cells1 & Hnew & (O1 & O2 & O3 & O4 & O5)
                    & H0 & _ & _ & H1 & _ & Hrisk & H2 & H3).
  exists n1, new. split; [exact Hlog|]. subst new fs.
  destruct (parts_apart n1 (next_id st) n1 n2 n3 _ _ _ target args _ _ _ _ _ _ _ _ _ _
              H0 H1 H2 H3) as (Hcells & Hgrids & Hfigs).
  cbn zeta in Hcells, Hgrids, Hfigs. unfold grid.
  rewrite Hcells, Hgrids, Hfigs, Hon, Nat.eqb_refl.
  specialize (O4 Hon). specialize (Hrisk Hon).
  replace (n1 =? next_id st)%nat with false by (symmetry; apply Nat.eqb_neq; lia).
  replace (n1 =? n2)%nat with false by (symmetry; apply Nat.eqb_neq; lia).
  replace (n1 =? n3)%nat with false by (symmetry; apply Nat.eqb_neq; lia).
  rewrite !andb_false_r. cbn [andb app]. rewrite !app_nil_r.
  split; [reflexivity|]. split; [reflexivity|]. exact Hrisk.
Qed.

End FactsheetTheorems.
Section FactsheetWitnesses.
Import Factsheet.

Lemma first_figure_tiles_its_grid_witness :
  let out := generate_strategy_factsheet never sample_inputs all_figures initial in
  exists f rest new,
    figs (snd out) = f :: rest
    /\ log (snd out) = (log initial ++ new)%list
    /\ grid f new = Some (14, 4)
    /\ tiles 14 4 (subplots f new).
Proof.
  intros out.
  apply (first_figure_tiles_its_grid never sample_inputs all_figures
           (figs (snd out)) initial (snd out)).
  vm_compute. reflexivity.
Defined.

Lemma factsheet_returns_its_figures_witness :
  let out := generate_strategy_factsheet never sample_inputs all_figures initial in
  exists new,
    log (snd out) = (log initial ++ new)%list
    /\ figs (snd out) = figures new
    /\ length (figs (snd out)) = 4%nat.
Proof.
  intros out.
  apply (factsheet_returns_its_figures never sample_inputs all_figures
           (figs (snd out)) initial (snd out)).
  vm_compute. reflexivity.
Defined.

Lemma factsheet_exceptions_witness :
  let out := generate_strategy_factsheet never no_benchmark_inputs default_options
               initial in
  (exists target args, never (log (snd out)) target args = Some IndexError)
  \/ (IndexError = IndexError /\ regime_benchmark default_options = None
      /\ benchmark_columns no_benchmark_inputs = [])
  \/ (IndexError = ValueError "Number of rows must be a positive integer, not 0"
      /\ (add_grouped_exposures default_options = true
          /\ exposure_groups no_benchmark_inputs = []
          \/ add_grouped_cum_pnl default_options = true
             /\ pnl_groups no_benchmark_inputs = [])).
Proof.
  intros out.
  apply (factsheet_exceptions never no_benchmark_inputs default_options IndexError
           initial (snd out)).
  vm_compute. reflexivity.
Defined.

Lemma factsheet_returns_when_no_call_raises_witness :
  exists fs st',
    generate_strategy_factsheet never sample_inputs all_figures initial = (Ok fs, st').
Proof.
  apply (factsheet_returns_when_no_call_raises never sample_inputs all_figures initial).
  - reflexivity.
  - right. discriminate.
  - discriminate.
  - discriminate.
Defined.

Lemma grouped_figures_have_a_row_per_group_witness :
  let out := generate_strategy_factsheet never sample_inputs all_figures initial in
  exists new,
    log (snd out) = (log initial ++ new)%list
    /\ (add_grouped_exposures all_figures = true ->
        exists f,
          figs (snd out) !! (1 + b2n (add_var_risk_sheet all_figures))%nat = Some f
          /\ grid f new = Some (Z.of_nat (length (exposure_groups sample_inputs)), 2)
          /\ subplots f new = row_cells 0 (length (exposure_groups sample_inputs))
          /\ tiles (Z.of_nat (length (exposure_groups sample_inputs))) 2
                   (subplots f new))
    /\ (add_grouped_cum_pnl all_figures = true ->
        exists f,
          figs (snd out) !! (1 + b2n (add_var_risk_sheet all_figures)
                             + b2n (add_grouped_exposures all_figures))%nat = Some f
          /\ grid f new = Some (Z.of_nat (length (pnl_groups sample_inputs)), 2)
          /\ subplots f new = row_cells 0 (length (pnl_groups sample_inputs))
          /\ tiles (Z.of_nat (length (pnl_groups sample_inputs))) 2 (subplots f new)).
Proof.
  intros out.
  apply (grouped_figures_have_a_row_per_group never sample_inputs all_figures
           (figs (snd out)) initial (snd out)).
  vm_compute. reflexivity.
Defined.

Lemma panels_never_overlap_witness :
  let out := generate_strategy_factsheet never sample_inputs all_figures initial in
  exists new,
    log (snd out) = (log initial ++ new)%list
    /\ forall f, disjoint_cells (subplots f new).
Proof.
  intros out.
  apply (panels_never_overlap never sample_inputs all_figures
           (figs (snd out)) initial (snd out)).
  vm_compute. reflexivity.
Defined.

Lemma risk_figure_fills_eight_rows_witness :
  let out := generate_strategy_factsheet never sample_inputs all_figures initial in
  exists f new,
    log (snd out) = (log initial ++ new)%list
    /\ figs (snd out) !! 1%nat = Some f
    /\ grid f new = Some (14, 4)
    /\ forall r c,
         coverage (subplots f new) r c
         = if (0 <=? r) && (r <? 14) && (0 <=? c) && (c <? 4)
           then risk_expected (1 <? length (benchmark_columns sample_inputs))%nat r c
           else 0%nat.
Proof.
  intros out.
  apply (risk_figure_fills_eight_rows never sample_inputs all_figures
           (figs (snd out)) initial (snd out)).
  - vm_compute. reflexivity.
  - reflexivity.
Defined.

End FactsheetWitnesses.
